(** * Klondike rule engine: a shallow embedding of the TypeScript sources

    The development follows the classes of the repository:
    [Card] (entities/Card), [CardStack] (entities/CardStack),
    [GameState] (game/GameState), [GameLogic] (game/GameLogic),
    [Deck] (entities/Deck), the placement checks and the score of [Utils]
    (utils/Utils), and the parts of [GameController] that deal a game and
    drive undo.

    Objects are mutable and shared in the source: one [Card] object may sit
    in the [cards] array of several stacks, and [flip] changes it for all of
    them.  The embedding therefore keeps object references ([Card],
    [CardStack]: an identity plus the readonly fields) apart from the
    mutable store [World] (face state, owning-stack back reference, the
    [cards] array of every stack, and the game state).  Methods that mutate
    are computations in the state monad [State] over [World].

    Rendering (PIXI containers, sprites, positions, drag state, DOM updates,
    console output), wall-clock time and local-storage persistence are not
    part of the model. *)

From stdpp Require Import base strings functions gmap list.
From Stdlib Require Import ZArith Lia.

Open Scope Z_scope.

(** ** types/global *)

Inductive Suit := hearts | diamonds | clubs | spades.

(** [Rank] is the string union 'A' | '2' | ... | 'K'. *)
Inductive Rank :=
  RA | R2 | R3 | R4 | R5 | R6 | R7 | R8 | R9 | R10 | RJ | RQ | RK.

Inductive StackType := stock | waste | foundation | tableau.

#[global] Instance Suit_eq_dec : EqDecision Suit.
Proof. solve_decision. Defined.
#[global] Instance Rank_eq_dec : EqDecision Rank.
Proof. solve_decision. Defined.
#[global] Instance StackType_eq_dec : EqDecision StackType.
Proof. solve_decision. Defined.

Definition Suit_to_string (s : Suit) : string :=
  match s with
  | hearts => "hearts" | diamonds => "diamonds"
  | clubs => "clubs" | spades => "spades"
  end.

Definition Rank_to_string (r : Rank) : string :=
  match r with
  | RA => "A" | R2 => "2" | R3 => "3" | R4 => "4" | R5 => "5" | R6 => "6"
  | R7 => "7" | R8 => "8" | R9 => "9" | R10 => "10"
  | RJ => "J" | RQ => "Q" | RK => "K"
  end.

Definition StackType_to_string (t : StackType) : string :=
  match t with
  | stock => "stock" | waste => "waste"
  | foundation => "foundation" | tableau => "tableau"
  end.

(** CONSTANTS.SUITS, CONSTANTS.RANKS and CONSTANTS.GAME. *)
Definition SUITS : list Suit := [hearts; diamonds; clubs; spades].
Definition RANKS : list Rank :=
  [RA; R2; R3; R4; R5; R6; R7; R8; R9; R10; RJ; RQ; RK].
Definition TABLEAU_COLUMNS : nat := 7.
Definition FOUNDATION_PILES : nat := 4.
Definition TOTAL_CARDS : Z := 52.

(** ** Object references *)

(** A reference to a [Card] object: [cid] is the object's identity (two
    [new Card(s, r)] give two objects), [suit] and [rank] are its readonly
    fields.  JavaScript's [===] on cards is equality of references. *)
Record Card := mkCard { cid : nat; suit : Suit; rank : Rank }.

(** A reference to a [CardStack] object with its readonly [type] and
    [index]. *)
Record CardStack := mkStack { sid : nat; type : StackType; index : Z }.

#[global] Instance Card_eq_dec : EqDecision Card.
Proof. solve_decision. Defined.
#[global] Instance CardStack_eq_dec : EqDecision CardStack.
Proof. solve_decision. Defined.

(** ** Card: the methods that read only readonly fields *)

Definition isRed (c : Card) : bool :=
  bool_decide (suit c = hearts) || bool_decide (suit c = diamonds).

Definition isBlack (c : Card) : bool :=
  bool_decide (suit c = clubs) || bool_decide (suit c = spades).

(** [getValue]: A, J, Q, K are 1, 11, 12, 13; the others [parseInt(rank)]. *)
Definition getValue (c : Card) : Z :=
  match rank c with
  | RA => 1 | RJ => 11 | RQ => 12 | RK => 13
  | R2 => 2 | R3 => 3 | R4 => 4 | R5 => 5 | R6 => 6
  | R7 => 7 | R8 => 8 | R9 => 9 | R10 => 10
  end.

Definition toString (c : Card) : string :=
  Rank_to_string (rank c) +:+ "_" +:+ Suit_to_string (suit c).

(** ** Utils.calculateScore *)

Definition calculateScore (moves time foundationCards : Z) : Z :=
  let score := foundationCards * 10 in
  let timeBonus := Z.max 0 (500 - time / 10) in
  let score := score + timeBonus in
  let movePenalty := moves / 2 in
  Z.max 0 (score - movePenalty).

(** ** MoveData and GameSettings (types/global) *)

Module MoveData.
(** Optional fields are [option]s.  [timestamp] is [Date.now()] in the
    source; wall-clock time is outside the model and the field is left
    out. *)
Record t := mk {
  type : string;
  card : option string;
  cards : option (list string);
  count : option Z;
  from : option string;
  to : option string;
  fromIndex : option Z;
  toIndex : option Z;
  moveNumber : option Z;
  stack : option string;
  stackIndex : option Z }.

(** An object literal that sets only [type]. *)
Definition of_type (ty : string) : t :=
  mk ty None None None None None None None None None None.
End MoveData.

Record GameSettings := mkSettings {
  drawCount : Z;
  allowUndo : bool;
  showTimer : bool;
  autoComplete : bool;
  hintEnabled : bool }.

(** ** GameState *)

Module GameState.
(** The fields the rule engine reads or writes.  Timer bookkeeping
    ([startTime], [pausedTime], [pauseStartTime]) and the persisted
    [stats] are left out. *)
Record t := mk {
  isGameStarted : bool;
  isGameCompleted : bool;
  isPaused : bool;
  currentTime : Z;
  score : Z;
  moves : Z;
  foundationCards : Z;
  moveHistory : list MoveData.t;
  settings : GameSettings }.

Definition maxHistorySize : Z := 100.

Definition defaultSettings : GameSettings := mkSettings 3 true true true true.

Definition reset (g : t) : t :=
  mk false false false 0 0 0 0 [] (settings g).

(** The constructor: field initialisers, then [reset]. *)
Definition new : t :=
  reset (mk false false false 0 0 0 0 [] defaultSettings).

Definition startGame (g : t) : t :=
  if isGameStarted g then g
  else mk true (isGameCompleted g) (isPaused g) 0 (score g) (moves g)
          (foundationCards g) (moveHistory g) (settings g).

Definition completeGame (g : t) : t :=
  if isGameCompleted g then g
  else mk false true (isPaused g) (currentTime g)
          (calculateScore (moves g) (currentTime g) (foundationCards g))
          (moves g) (foundationCards g) (moveHistory g) (settings g).

(** [{...moveData, timestamp, moveNumber}] *)
Definition stamp (md : MoveData.t) (n : Z) : MoveData.t :=
  MoveData.mk (MoveData.type md) (MoveData.card md) (MoveData.cards md)
    (MoveData.count md) (MoveData.from md) (MoveData.to md)
    (MoveData.fromIndex md) (MoveData.toIndex md) (Some n)
    (MoveData.stack md) (MoveData.stackIndex md).

Definition recordMove (md : MoveData.t) (g : t) : t :=
  if negb (isGameStarted g) then g
  else
    let moves' := moves g + 1 in
    let history := moveHistory g ++ [stamp md moves'] in
    let history :=
      if bool_decide (maxHistorySize < Z.of_nat (length history))
      then tail history (* shift *)
      else history in
    mk (isGameStarted g) (isGameCompleted g) (isPaused g) (currentTime g)
       (score g) moves' (foundationCards g) history (settings g).

Definition undoLastMove (g : t) : option MoveData.t * t :=
  if negb (allowUndo (settings g))
     || bool_decide (length (moveHistory g) = 0%nat)
  then (None, g)
  else
    (* moveHistory.pop() *)
    let lastMove := last (moveHistory g) in
    let history := removelast (moveHistory g) in
    match lastMove with
    | Some m =>
        (Some m,
         mk (isGameStarted g) (isGameCompleted g) (isPaused g)
            (currentTime g) (score g) (Z.max 0 (moves g - 1))
            (foundationCards g) history (settings g))
    | None =>
        (None,
         mk (isGameStarted g) (isGameCompleted g) (isPaused g)
            (currentTime g) (score g) (moves g)
            (foundationCards g) history (settings g))
    end.

Definition updateScore (g : t) : t :=
  if negb (isGameStarted g) then g
  else mk (isGameStarted g) (isGameCompleted g) (isPaused g) (currentTime g)
          (calculateScore (moves g) (currentTime g) (foundationCards g))
          (moves g) (foundationCards g) (moveHistory g) (settings g).

Definition addToFoundation (g : t) : bool * t :=
  let g := mk (isGameStarted g) (isGameCompleted g) (isPaused g)
              (currentTime g) (score g) (moves g) (foundationCards g + 1)
              (moveHistory g) (settings g) in
  if bool_decide (foundationCards g = TOTAL_CARDS)
  then (true, completeGame g)
  else (false, updateScore g).

Definition removeFromFoundation (g : t) : t :=
  updateScore
    (mk (isGameStarted g) (isGameCompleted g) (isPaused g)
        (currentTime g) (score g) (moves g)
        (Z.max 0 (foundationCards g - 1))
        (moveHistory g) (settings g)).

Definition canUndo (g : t) : bool :=
  allowUndo (settings g)
  && bool_decide (0 < length (moveHistory g))%nat
  && isGameStarted g
  && negb (isGameCompleted g).

Definition isPlaying (g : t) : bool :=
  isGameStarted g && negb (isPaused g) && negb (isGameCompleted g).
End GameState.

(** ** The mutable store *)

Record World := mkWorld {
  faceUp : Card → bool;                       (* card.faceUp *)
  currentStack : Card → option CardStack;     (* card.currentStack *)
  cards : CardStack → list Card;              (* stack.cards, bottom first *)
  gameState : GameState.t }.

Definition State (A : Type) : Type := World → A * World.

#[global] Instance State_ret : MRet State := λ A a w, (a, w).
#[global] Instance State_bind : MBind State :=
  λ A B f m w, let (a, w') := m w in f a w'.

Definition gets {A} (f : World → A) : State A := λ w, (f w, w).
Definition modify (f : World → World) : State unit := λ w, ((), f w).

(** [Array.prototype.forEach]: the callback's results are discarded. *)
Fixpoint forEach {A B} (l : list A) (f : A → State B) : State unit :=
  match l with
  | [] => mret ()
  | x :: l' => f x ;; forEach l' f
  end.

(** A counted [for (let i = 0; i < n; i++)] loop whose body does not read
    [i]; the accumulator is threaded by hand. *)
Fixpoint repeatM {A} (n : nat) (body : A → State A) (acc : A) : State A :=
  match n with
  | O => mret acc
  | S n' => acc' ← body acc; repeatM n' body acc'
  end.

Definition set_faceUp (c : Card) (b : bool) (w : World) : World :=
  mkWorld (<[c := b]> (faceUp w)) (currentStack w) (cards w) (gameState w).
Definition set_currentStack (c : Card) (s : option CardStack) (w : World)
  : World :=
  mkWorld (faceUp w) (<[c := s]> (currentStack w)) (cards w) (gameState w).
Definition set_cards (s : CardStack) (l : list Card) (w : World) : World :=
  mkWorld (faceUp w) (currentStack w) (<[s := l]> (cards w)) (gameState w).
Definition set_gameState (g : GameState.t) (w : World) : World :=
  mkWorld (faceUp w) (currentStack w) (cards w) g.

(** [card.flip(faceUp?)]: with an argument the face is set, without it
    toggled.  (Refreshing the owning stack's draggable flags is rendering.) *)
Definition flip (c : Card) (b : option bool) : State unit :=
  modify (λ w,
    match b with
    | Some b => set_faceUp c b w
    | None => set_faceUp c (negb (faceUp w c)) w
    end).

(** ** CardStack *)

(** [cards.indexOf(card)], [None] for -1. *)
Fixpoint indexOf (c : Card) (l : list Card) : option nat :=
  match l with
  | [] => None
  | x :: l' =>
      if decide (x = c) then Some O
      else match indexOf c l' with Some i => Some (S i) | None => None end
  end.

(** [cards.splice(i, 1)] *)
Definition splice1 (i : nat) (l : list Card) : list Card :=
  take i l ++ drop (S i) l.

Module CardStack.

Definition getTopCard (s : CardStack) (w : World) : option Card :=
  last (cards w s).

Definition getCardCount (s : CardStack) (w : World) : Z :=
  Z.of_nat (length (cards w s)).

Definition isEmpty (s : CardStack) (w : World) : bool :=
  bool_decide (length (cards w s) = 0%nat).

(** [addCard]: push, then set the back reference.  (The guard on an
    absent card or container cannot fire for a typed reference.) *)
Definition addCard (s : CardStack) (c : Card) : State unit :=
  modify (λ w, set_currentStack c (Some s) (set_cards s (cards w s ++ [c]) w)).

(** [removeCard]: nothing happens when the card is not in this stack. *)
Definition removeCard (s : CardStack) (c : Card) : State unit :=
  modify (λ w,
    match indexOf c (cards w s) with
    | Some i => set_currentStack c None (set_cards s (splice1 i (cards w s)) w)
    | None => w
    end).

Definition canPlaceOnFoundation (s : CardStack) (c : Card) (w : World)
  : bool :=
  if isEmpty s w then bool_decide (getValue c = 1)
  else
    match getTopCard s w with
    | None => false
    | Some topCard =>
        let isSameSuit := bool_decide (suit c = suit topCard) in
        let isOneMore := bool_decide (getValue c = getValue topCard + 1) in
        isSameSuit && isOneMore
    end.

Definition canPlaceOnTableau (s : CardStack) (c : Card) (w : World)
  : bool :=
  if isEmpty s w then bool_decide (getValue c = 13)
  else
    match getTopCard s w with
    | None => false
    | Some topCard =>
        if negb (faceUp w topCard) then false
        else
          bool_decide (isRed c ≠ isRed topCard)
          && bool_decide (getValue c = getValue topCard - 1)
    end.

Definition canAcceptCard (s : CardStack) (c : Card) (w : World) : bool :=
  match type s with
  | foundation => canPlaceOnFoundation s c w
  | tableau => canPlaceOnTableau s c w
  | waste => false
  | stock => false
  end.

(** The loop of [getValidSequence] from [i = 1] on: [prev] is
    [cards[i - 1]], the list holds [cards[i..]]. *)
Fixpoint validLoop (w : World) (prevCard : Card) (rest : list Card)
  : list Card :=
  match rest with
  | [] => []
  | currCard :: rest' =>
      if negb (faceUp w prevCard) || negb (faceUp w currCard) then []
      else if bool_decide (isRed prevCard = isRed currCard) then []
      else if bool_decide (getValue prevCard ≠ getValue currCard + 1) then []
      else currCard :: validLoop w currCard rest'
  end.

Definition getValidSequence (l : list Card) (w : World) : list Card :=
  if bool_decide (length l ≤ 1)%nat then l
  else
    match l with
    | [] => []
    | c0 :: rest => c0 :: validLoop w c0 rest
    end.

Definition getCardsFromIndex (s : CardStack) (startIndex : Z) (w : World)
  : list Card :=
  if bool_decide (startIndex < 0)
     || bool_decide (Z.of_nat (length (cards w s)) ≤ startIndex)
  then []
  else
    let cardsFromIndex := drop (Z.to_nat startIndex) (cards w s) in
    if bool_decide (type s = tableau)
    then getValidSequence cardsFromIndex w
    else cardsFromIndex.

(** [moveCards]: all cards leave this stack first, then all are pushed
    onto the target.  (A missing target cannot occur for a typed
    reference.) *)
Definition moveCards (s : CardStack) (l : list Card) (targetStack : CardStack)
  : State bool :=
  match l with
  | [] => mret false
  | bottomCard :: _ =>
      ok ← gets (canAcceptCard targetStack bottomCard);
      if negb ok then mret false
      else
        forEach l (λ card, removeCard s card) ;;
        forEach l (λ card, addCard targetStack card) ;;
        mret true
  end.

End CardStack.

(** ** GameLogic *)

(** An entry of the lists built by [findAutoCompletableCards] and
    [findHints]: [{card, fromStack, toStack, type?}]. *)
Record Hint := mkHint {
  h_card : Card;
  h_fromStack : CardStack;
  h_toStack : CardStack;
  h_type : option string }.

Module GameLogic.
Import CardStack.

(** [this.gameState] is the game state of the store. *)
Definition recordMove (md : MoveData.t) : State unit :=
  modify (λ w, set_gameState (GameState.recordMove md (gameState w)) w).

Definition canMoveToFoundation (card : Card) (foundationStack : CardStack)
    (w : World) : bool :=
  let foundationCards := cards w foundationStack in
  if bool_decide (length foundationCards = 0%nat)
  then bool_decide (getValue card = 1)
  else
    match last foundationCards with
    | Some topCard =>
        bool_decide (suit card = suit topCard)
        && bool_decide (getValue card = getValue topCard + 1)
    | None => false (* not reached: the array is not empty *)
    end.

Definition canMoveToTableau (card : Card) (tableauStack : CardStack)
    (w : World) : bool :=
  let tableauCards := cards w tableauStack in
  if bool_decide (length tableauCards = 0%nat)
  then bool_decide (getValue card = 13)
  else
    match last tableauCards with
    | Some topCard =>
        if negb (faceUp w topCard) then false
        else
          bool_decide (isRed card ≠ isRed topCard)
          && bool_decide (getValue card = getValue topCard - 1)
    | None => false (* not reached: the array is not empty *)
    end.

(** (The guard on an absent card or target stack cannot fire for typed
    references.) *)
Definition validateMove (card : Card) (fromStack toStack : CardStack)
    (w : World) : bool :=
  if negb (GameState.isPlaying (gameState w)) then false
  else if negb (faceUp w card) then false
  else
    match type toStack with
    | foundation => canMoveToFoundation card toStack w
    | tableau => canMoveToTableau card toStack w
    | waste => false
    | stock => false
    end.

(** The loop of [areCardsSequential] from [i = 1] on. *)
Fixpoint sequentialLoop (w : World) (prevCard : Card) (rest : list Card)
  : bool :=
  match rest with
  | [] => true
  | currCard :: rest' =>
      if negb (faceUp w prevCard) || negb (faceUp w currCard) then false
      else if bool_decide (isRed prevCard = isRed currCard) then false
      else if bool_decide (getValue prevCard ≠ getValue currCard + 1)
      then false
      else sequentialLoop w currCard rest'
  end.

Definition areCardsSequential (l : list Card) (w : World) : bool :=
  if bool_decide (length l ≤ 1)%nat then true
  else
    match l with
    | [] => true
    | c0 :: rest => sequentialLoop w c0 rest
    end.

Definition validateMultiCardMove (l : list Card)
    (fromStack toStack : CardStack) (w : World) : bool :=
  match l with
  | [] => false
  | c0 :: _ =>
      if bool_decide (type fromStack ≠ tableau) then false
      else if negb (areCardsSequential l w) then false
      else validateMove c0 fromStack toStack w
  end.

(** The callback of the [forEach] in [recycleWasteToStock]. *)
Definition recycleCard (stockStack wasteStack : CardStack) (card : Card)
  : State unit :=
  removeCard wasteStack card ;;
  flip card (Some false) ;;
  addCard stockStack card.

Definition recycleWasteToStock (stockStack wasteStack : CardStack)
  : State (list Card) :=
  empty ← gets (isEmpty wasteStack);
  if (empty : bool) then mret []
  else
    l ← gets (λ w, reverse (cards w wasteStack));
    forEach l (recycleCard stockStack wasteStack) ;;
    recordMove
      (MoveData.mk "waste_to_stock" None None
         (Some (Z.of_nat (length l))) None None None None None None None) ;;
    mret l.

(** The body of the [for] loop in [drawFromStock]. *)
Definition drawCard (stockStack wasteStack : CardStack)
    (drawnCards : list Card) : State (list Card) :=
  top ← gets (getTopCard stockStack);
  match top with
  | Some card =>
      removeCard stockStack card ;;
      flip card (Some true) ;;
      addCard wasteStack card ;;
      mret (drawnCards ++ [card])
  | None => mret drawnCards
  end.

Definition drawFromStock (stockStack wasteStack : CardStack)
  : State (list Card) :=
  empty ← gets (isEmpty stockStack);
  if (empty : bool) then recycleWasteToStock stockStack wasteStack
  else
    n ← gets (λ w, Z.min (drawCount (GameState.settings (gameState w)))
                          (getCardCount stockStack w));
    drawnCards ← repeatM (Z.to_nat n) (drawCard stockStack wasteStack) [];
    recordMove
      (MoveData.mk "stock_to_waste" None (Some (toString <$> drawnCards))
         (Some (Z.of_nat (length drawnCards)))
         None None None None None None None) ;;
    mret drawnCards.

Definition findCardsToFlip (tableauStacks : list CardStack) (w : World)
  : list Card :=
  tableauStacks ≫= λ stack,
    match getTopCard stack w with
    | Some topCard => if negb (faceUp w topCard) then [topCard] else []
    | None => []
    end.

Definition executeCardFlip (card : Card) : State bool :=
  up ← gets (λ w, faceUp w card);
  if (up : bool) then mret false
  else
    flip card (Some true) ;;
    cs ← gets (λ w, currentStack w card);
    recordMove
      (MoveData.mk "card_flip" (Some (toString card)) None None None None
         None None None
         (Some (from_option (λ s, StackType_to_string (type s)) "unknown" cs))
         (Some (from_option index 0 cs))) ;;
    mret true.

Definition findAutoCompletableCards (allStacks : list CardStack) (w : World)
  : list Hint :=
  let foundationStacks := filter (λ s, type s = foundation) allStacks in
  allStacks ≫= λ stack,
    if bool_decide (type stack = foundation) then []
    else
      match getTopCard stack w with
      | None => []
      | Some topCard =>
          if negb (faceUp w topCard) then []
          else
            foundationStacks ≫= λ foundationStack,
              if canMoveToFoundation topCard foundationStack w
              then [mkHint topCard stack foundationStack None]
              else []
      end.

Definition findHints (allStacks : list CardStack) (w : World) : list Hint :=
  let autoCompletable := findAutoCompletableCards allStacks w in
  let tableauStacks := filter (λ s, type s = tableau) allStacks in
  let wasteStack :=
    List.find (λ s, bool_decide (type s = waste)) allStacks in
  let wasteHints :=
    match wasteStack with
    | Some wasteStack =>
        if negb (isEmpty wasteStack w) then
          match getTopCard wasteStack w with
          | Some wasteTopCard =>
              if faceUp w wasteTopCard then
                tableauStacks ≫= λ tableauStack,
                  if canMoveToTableau wasteTopCard tableauStack w
                  then [mkHint wasteTopCard wasteStack tableauStack None]
                  else []
              else []
          | None => []
          end
        else []
    | None => []
    end in
  let tableauHints :=
    tableauStacks ≫= λ fromStack,
      match getTopCard fromStack w with
      | None => []
      | Some topCard =>
          if negb (faceUp w topCard) then []
          else
            tableauStacks ≫= λ toStack,
              if bool_decide (fromStack = toStack) then []
              else if canMoveToTableau topCard toStack w
              then [mkHint topCard fromStack toStack None]
              else []
      end in
  let flipHints :=
    findCardsToFlip tableauStacks w ≫= λ card,
      match currentStack w card with
      | Some cs => [mkHint card cs cs (Some "flip")]
      | None => []
      end in
  autoCompletable ++ wasteHints ++ tableauHints ++ flipHints.

Definition isGameComplete (foundationStacks : list CardStack) (w : World)
  : bool :=
  let totalCards :=
    foldl (λ sum stack, sum + getCardCount stack w) 0 foundationStacks in
  bool_decide (totalCards = TOTAL_CARDS).

Definition executeSingleCardMove (card : Card)
    (fromStack toStack : CardStack) : State bool :=
  valid ← gets (validateMove card fromStack toStack);
  if negb valid then mret false
  else
    removeCard fromStack card ;;
    addCard toStack card ;;
    complete ←
      (if bool_decide (type toStack = foundation)
       then λ w,
         let (isGameComplete, g) :=
           GameState.addToFoundation (gameState w) in
         (isGameComplete, set_gameState g w)
       else mret false);
    if (complete : bool) then mret true
    else
      (if bool_decide (type fromStack = foundation)
       then modify (λ w,
         set_gameState (GameState.removeFromFoundation (gameState w)) w)
       else mret ()) ;;
      recordMove
        (MoveData.mk "card_move" (Some (toString card)) None None
           (Some (StackType_to_string (type fromStack)))
           (Some (StackType_to_string (type toStack)))
           (Some (index fromStack)) (Some (index toStack))
           None None None) ;;
      mret true.

Definition executeMultiCardMove (l : list Card)
    (fromStack toStack : CardStack) : State bool :=
  valid ← gets (validateMultiCardMove l fromStack toStack);
  if negb valid then mret false
  else
    forEach l (λ card,
      removeCard fromStack card ;;
      addCard toStack card) ;;
    recordMove
      (MoveData.mk "multi_card_move" None (Some (toString <$> l))
         (Some (Z.of_nat (length l)))
         (Some (StackType_to_string (type fromStack)))
         (Some (StackType_to_string (type toStack)))
         (Some (index fromStack)) (Some (index toStack))
         None None None) ;;
    mret true.

(** The five reversal handlers only log. *)
Definition undoCardMove (moveData : MoveData.t) : State bool := mret true.
Definition undoMultiCardMove (moveData : MoveData.t) : State bool :=
  mret true.
Definition undoStockToWaste (moveData : MoveData.t) : State bool :=
  mret true.
Definition undoWasteToStock (moveData : MoveData.t) : State bool :=
  mret true.
Definition undoCardFlip (moveData : MoveData.t) : State bool := mret true.

Definition undoMove (moveData : MoveData.t) : State bool :=
  let ty := MoveData.type moveData in
  if bool_decide (ty = "card_move") then undoCardMove moveData
  else if bool_decide (ty = "multi_card_move")
  then undoMultiCardMove moveData
  else if bool_decide (ty = "stock_to_waste") then undoStockToWaste moveData
  else if bool_decide (ty = "waste_to_stock") then undoWasteToStock moveData
  else if bool_decide (ty = "card_flip") then undoCardFlip moveData
  else mret false.

(** The callback of the [forEach] in [executeAutoComplete]; the boolean
    it computes is dropped by [forEach]. *)
Definition moveCandidate (h : Hint) : State bool :=
  executeSingleCardMove (h_card h) (h_fromStack h) (h_toStack h).

Definition executeAutoComplete (allStacks : list CardStack) : State bool :=
  completableCards ← gets (findAutoCompletableCards allStacks);
  if bool_decide (length completableCards = 0%nat) then mret false
  else
    forEach completableCards moveCandidate ;;
    mret true.

Definition isGameBlocked (allStacks : list CardStack) (w : World) : bool :=
  let hints := findHints allStacks w in
  let stockStack :=
    List.find (λ s, bool_decide (type s = stock)) allStacks in
  let wasteStack :=
    List.find (λ s, bool_decide (type s = waste)) allStacks in
  (* [stack && !stack.isEmpty()]: a missing stack is falsy *)
  let canDrawFromStock :=
    match stockStack with Some s => negb (isEmpty s w) | None => false end in
  let canDrawFromWaste :=
    match wasteStack with Some s => negb (isEmpty s w) | None => false end in
  bool_decide (length hints = 0%nat)
  && negb canDrawFromStock && negb canDrawFromWaste.

(** The [forEach] of [executeAllCardFlips] with its counter. *)
Fixpoint flipLoop (l : list Card) (flippedCount : Z) : State Z :=
  match l with
  | [] => mret flippedCount
  | card :: l' =>
      ok ← executeCardFlip card;
      flipLoop l' (if (ok : bool) then flippedCount + 1 else flippedCount)
  end.

Definition executeAllCardFlips (tableauStacks : list CardStack) : State Z :=
  cardsToFlip ← gets (findCardsToFlip tableauStacks);
  flipLoop cardsToFlip 0.

(** [BestMove]; the [cards] field is never set. *)
Record BestMove := mkBestMove {
  bm_type : string;
  bm_card : option Card;
  bm_fromStack : option CardStack;
  bm_toStack : option CardStack }.

(** [{type: ty, ...l[0]}]: the spread comes last, so a hint that has a
    [type] of its own keeps it; spreading a missing element adds nothing. *)
Definition spreadFirst (ty : string) (l : list Hint) : BestMove :=
  match head l with
  | Some h =>
      mkBestMove (default ty (h_type h)) (Some (h_card h))
        (Some (h_fromStack h)) (Some (h_toStack h))
  | None => mkBestMove ty None None None
  end.

Definition wouldUnblockCards (fromStack toStack : CardStack)
    (movingCard : Card) (w : World) : bool :=
  if bool_decide (type fromStack = tableau) then
    let remainingCards :=
      filter (λ card, card ≠ movingCard) (cards w fromStack) in
    if bool_decide (0 < length remainingCards)%nat then
      match last remainingCards with
      | Some topCard => if negb (faceUp w topCard) then true else false
      | None => false
      end
    else false
  else false.

Definition findUnblockingMoves (tableauMoves : list Hint)
    (allStacks : list CardStack) (w : World) : list Hint :=
  filter (λ move,
            wouldUnblockCards (h_fromStack move) (h_toStack move)
              (h_card move) w = true)
         tableauMoves.

Definition getSmartMovePriority (hints : list Hint)
    (allStacks : list CardStack) (w : World) : BestMove :=
  let foundationMoves :=
    filter (λ h, type (h_toStack h) = foundation) hints in
  if bool_decide (0 < length foundationMoves)%nat then
    let aceOrTwoMoves :=
      filter (λ h, getValue (h_card h) ≤ 2) foundationMoves in
    if bool_decide (0 < length aceOrTwoMoves)%nat
    then spreadFirst "card_move" aceOrTwoMoves
    else spreadFirst "card_move" foundationMoves
  else
    let flipMoves := filter (λ h, h_type h = Some "flip") hints in
    if bool_decide (0 < length flipMoves)%nat
    then spreadFirst "flip" flipMoves
    else
      let tableauMoves := filter (λ h, type (h_toStack h) = tableau) hints in
      if bool_decide (0 < length tableauMoves)%nat then
        let emptyTableauMoves :=
          filter (λ h, length (cards w (h_toStack h)) = 0%nat) tableauMoves in
        if bool_decide (0 < length emptyTableauMoves)%nat
        then spreadFirst "card_move" emptyTableauMoves
        else
          let unblockingMoves :=
            findUnblockingMoves tableauMoves allStacks w in
          if bool_decide (0 < length unblockingMoves)%nat
          then spreadFirst "card_move" unblockingMoves
          else spreadFirst "card_move" tableauMoves
      else spreadFirst "card_move" hints.

Definition suggestBestMove (allStacks : list CardStack) (w : World)
  : option BestMove :=
  let hints := findHints allStacks w in
  if bool_decide (length hints = 0%nat) then
    let stockStack :=
      List.find (λ s, bool_decide (type s = stock)) allStacks in
    let wasteStack :=
      List.find (λ s, bool_decide (type s = waste)) allStacks in
    let stockHasCards :=
      match stockStack with Some s => negb (isEmpty s w) | None => false end in
    let wasteHasCards :=
      match wasteStack with Some s => negb (isEmpty s w) | None => false end in
    if stockHasCards
    then Some (mkBestMove "draw_stock" None stockStack wasteStack)
    else if wasteHasCards
    then Some (mkBestMove "recycle_waste" None wasteStack stockStack)
    else None
  else Some (getSmartMovePriority hints allStacks w).

Record GameAnalysis := mkAnalysis {
  a_totalCards : Z;
  a_faceUpCards : Z;
  a_foundationCards : Z;
  a_blockedCards : Z;
  a_availableCards : Z;
  a_possibleMoves : Z }.

(** The inner [forEach] of [analyzeGame], for one card of [stack]. *)
Definition analyzeCard (stack : CardStack) (w : World) (a : GameAnalysis)
    (card : Card) : GameAnalysis :=
  if faceUp w card then
    let a := mkAnalysis (a_totalCards a) (a_faceUpCards a + 1)
               (a_foundationCards a) (a_blockedCards a)
               (a_availableCards a) (a_possibleMoves a) in
    if bool_decide (getTopCard stack w = Some card)
    then mkAnalysis (a_totalCards a) (a_faceUpCards a)
           (a_foundationCards a) (a_blockedCards a)
           (a_availableCards a + 1) (a_possibleMoves a)
    else a
  else mkAnalysis (a_totalCards a) (a_faceUpCards a)
         (a_foundationCards a) (a_blockedCards a + 1)
         (a_availableCards a) (a_possibleMoves a).

(** The outer [forEach] of [analyzeGame], for one stack. *)
Definition analyzeStack (w : World) (a : GameAnalysis) (stack : CardStack)
  : GameAnalysis :=
  let a := mkAnalysis (a_totalCards a + getCardCount stack w)
             (a_faceUpCards a) (a_foundationCards a) (a_blockedCards a)
             (a_availableCards a) (a_possibleMoves a) in
  let a :=
    if bool_decide (type stack = foundation)
    then mkAnalysis (a_totalCards a) (a_faceUpCards a)
           (a_foundationCards a + getCardCount stack w) (a_blockedCards a)
           (a_availableCards a) (a_possibleMoves a)
    else a in
  foldl (analyzeCard stack w) a (cards w stack).

Definition analyzeGame (allStacks : list CardStack) (w : World)
  : GameAnalysis :=
  let a := foldl (analyzeStack w) (mkAnalysis 0 0 0 0 0 0) allStacks in
  mkAnalysis (a_totalCards a) (a_faceUpCards a) (a_foundationCards a)
    (a_blockedCards a) (a_availableCards a)
    (Z.of_nat (length (findHints allStacks w))).

Record BlockedCard := mkBlocked {
  b_card : Card;
  b_stack : CardStack;
  b_index : nat }.

Definition findBlockedCards (tableauStacks : list CardStack) (w : World)
  : list BlockedCard :=
  tableauStacks ≫= λ stack,
    imap (λ index card, (index, card)) (cards w stack) ≫= λ p,
      if negb (faceUp w p.2)
         && bool_decide (Z.of_nat p.1 < Z.of_nat (length (cards w stack)) - 1)
      then [mkBlocked p.2 stack p.1]
      else [].

(** [cards.indexOf(card)] as a number, -1 when the card is absent. *)
Definition indexOfZ (c : Card) (l : list Card) : Z :=
  match indexOf c l with
  | Some i => Z.of_nat i
  | None => -1
  end.

(** The body of the inner [forEach] of [tryUnblockSpecificCards]. *)
Definition tryUnblockOnto (b : BlockedCard) (targetStack : CardStack)
  : State unit :=
  if bool_decide (targetStack ≠ b_stack b) then
    cardsToMove ← gets (λ w,
      getCardsFromIndex (b_stack b)
        (indexOfZ (b_card b) (cards w (b_stack b))) w);
    valid ← gets (validateMultiCardMove cardsToMove (b_stack b) targetStack);
    if (valid : bool)
    then executeMultiCardMove cardsToMove (b_stack b) targetStack ;; mret ()
    else mret ()
  else mret ().

Definition tryUnblockSpecificCards (blockedCards : list BlockedCard)
    (allStacks : list CardStack) : State unit :=
  let tableauStacks := filter (λ s, type s = tableau) allStacks in
  forEach blockedCards (λ b,
    forEach tableauStacks (tryUnblockOnto b)).

Definition tryUnblockGame (allStacks : list CardStack) : State bool :=
  let tableauStacks := filter (λ s, type s = tableau) allStacks in
  flippedCount ← executeAllCardFlips tableauStacks;
  if bool_decide (0 < flippedCount) then mret true
  else
    let stockStack :=
      List.find (λ s, bool_decide (type s = stock)) allStacks in
    let wasteStack :=
      List.find (λ s, bool_decide (type s = waste)) allStacks in
    drew ←
      match stockStack, wasteStack with
      | Some s, Some ws =>
          empty ← gets (isEmpty s);
          if negb empty then
            drawnCards ← drawFromStock s ws;
            mret (bool_decide (0 < length drawnCards)%nat)
          else mret false
      | _, _ => mret false
      end;
    if (drew : bool) then mret true
    else
      recycled ←
        match stockStack, wasteStack with
        | Some s, Some ws =>
            empty ← gets (isEmpty ws);
            if negb empty then
              recycledCards ← recycleWasteToStock s ws;
              mret (bool_decide (0 < length recycledCards)%nat)
            else mret false
        | _, _ => mret false
        end;
      if (recycled : bool) then mret true else mret false.

Definition preventGameBlock (allStacks : list CardStack) : State bool :=
  let tableauStacks := filter (λ s, type s = tableau) allStacks in
  flippedCount ← executeAllCardFlips tableauStacks;
  blockedCards ← gets (findBlockedCards tableauStacks);
  (if bool_decide (0 < length blockedCards)%nat
   then tryUnblockSpecificCards blockedCards allStacks
   else mret ()) ;;
  mret (bool_decide (0 < flippedCount)
        || bool_decide (0 < length blockedCards)%nat).

End GameLogic.

(** ** Utils: the two placement checks *)

Module Utils.

Definition canPlaceOnTableau (card : Card) (targetCard : option Card) : bool :=
  match targetCard with
  | None => bool_decide (getValue card = 13)
  | Some targetCard =>
      let isDifferentColor := bool_decide (isRed card ≠ isRed targetCard) in
      let isOneLess := bool_decide (getValue card = getValue targetCard - 1) in
      isDifferentColor && isOneLess
  end.

Definition canPlaceOnFoundation (card : Card) (foundation : list Card)
  : bool :=
  if bool_decide (length foundation = 0%nat)
  then bool_decide (getValue card = 1)
  else
    match last foundation with
    | Some topCard =>
        let isSameSuit := bool_decide (suit card = suit topCard) in
        let isOneMore := bool_decide (getValue card = getValue topCard + 1) in
        isSameSuit && isOneMore
    | None => false (* not reached: the array is not empty *)
    end.

End Utils.

(** ** Deck *)

Module Deck.
(** [new Card(suit, rank)] for each datum in turn; the objects get the
    identities [base], [base + 1], ... *)
Definition makeCards (base : nat) (data : list (Suit * Rank)) : list Card :=
  imap (λ i d, mkCard (base + i) d.1 d.2) data.

(** The loop of [shuffle] that fills [this.cards] with
    [new Card(data.suit, data.rank)] for each datum in turn.  [base] is
    the identity of the first object created; a new card lies face down
    and belongs to no stack. *)
Definition createCards (base : nat) (data : list (Suit * Rank))
  : State (list Card) :=
  let deck := makeCards base data in
  forEach deck (λ card,
    modify (λ w, set_currentStack card None (set_faceUp card false w))) ;;
  mret deck.

(** The order of [createDeck] (and of the 'sorted' test pattern). *)
Definition sortedPattern : list (Suit * Rank) :=
  SUITS ≫= λ s, RANKS ≫= λ r, [(s, r)].

(** The order of the 'reverse' test pattern. *)
Definition reversePattern : list (Suit * Rank) :=
  reverse SUITS ≫= λ s, reverse RANKS ≫= λ r, [(s, r)].

Record DealResult := mkDeal {
  d_tableau : list (list Card);
  d_stock : list Card }.

(** The inner [for (row = 0; row <= col; row++)] loop; [deck] is
    [this.cards], from which [dealCard] pops the last card. *)
Fixpoint dealColumn (n row col : nat) (deck : list Card)
    (tableau : list (list Card)) : State (list Card * list (list Card)) :=
  match n with
  | O => mret (deck, tableau)
  | S n' =>
      match last deck with
      | Some card =>
          flip card (Some (bool_decide (row = col))) ;;
          dealColumn n' (S row) col (removelast deck)
            (alter (λ column, column ++ [card]) col tableau)
      | None => dealColumn n' (S row) col deck tableau
      end
  end.

(** The outer [for (col = 0; col < TABLEAU_COLUMNS; col++)] loop. *)
Fixpoint dealColumns (n col : nat) (deck : list Card)
    (tableau : list (list Card)) : State (list Card * list (list Card)) :=
  match n with
  | O => mret (deck, tableau)
  | S n' =>
      r ← dealColumn (S col) 0 col deck tableau;
      dealColumns n' (S col) r.1 r.2
  end.

(** [while (this.cards.length > 0)]: one card leaves the deck per turn, so
    [length deck] turns empty it. *)
Fixpoint dealStock (n : nat) (deck stockCards : list Card)
  : State (list Card) :=
  match n with
  | O => mret stockCards
  | S n' =>
      match last deck with
      | Some card =>
          flip card (Some false) ;;
          dealStock n' (removelast deck) (stockCards ++ [card])
      | None => mret stockCards
      end
  end.

Definition dealForSolitaire (deck : list Card) : State DealResult :=
  r ← dealColumns TABLEAU_COLUMNS 0 deck (replicate 7 []);
  stockCards ← dealStock (length r.1) r.1 [];
  mret (mkDeal r.2 stockCards).

(** The key of the [Set] in [validate]: suit, underscore, rank. *)
Definition cardKey (s : Suit) (r : Rank) : string :=
  Suit_to_string s +:+ "_" +:+ Rank_to_string r.

(** The first loop of [validate]: the key set built so far, or [None] when
    a key is met again. *)
Fixpoint collectKeys (l : list Card) (cardSet : gset string)
  : option (gset string) :=
  match l with
  | [] => Some cardSet
  | card :: l' =>
      let key := cardKey (suit card) (rank card) in
      if bool_decide (key ∈ cardSet) then None
      else collectKeys l' ({[key]} ∪ cardSet)
  end.

Definition validate (deck : list Card) : bool :=
  if bool_decide (Z.of_nat (length deck) ≠ TOTAL_CARDS) then false
  else
    match collectKeys deck ∅ with
    | None => false
    | Some cardSet =>
        forallb (λ s,
          forallb (λ r, bool_decide (cardKey s r ∈ cardSet)) RANKS) SUITS
    end.
End Deck.

(** ** GameController: the stacks, dealing a new game, undo *)

Module GameController.

Definition stockStack : CardStack := mkStack 0 stock 0.
Definition wasteStack : CardStack := mkStack 1 waste 0.
Definition foundationStacks : list CardStack :=
  imap (λ i _, mkStack (2 + i) foundation (Z.of_nat i))
       (replicate FOUNDATION_PILES ()).
Definition tableauStacks : list CardStack :=
  imap (λ i _, mkStack (6 + i) tableau (Z.of_nat i))
       (replicate TABLEAU_COLUMNS ()).

Definition getAllStacks : list CardStack :=
  [stockStack; wasteStack] ++ foundationStacks ++ tableauStacks.

(** The store right after the constructor: cards are created face down
    and outside any stack, every stack is empty. *)
Definition initialWorld : World :=
  mkWorld (λ _, false) (λ _, None) (λ _, []) GameState.new.

Definition dealCards (dealResult : Deck.DealResult) : State unit :=
  forEach (Deck.d_stock dealResult) (λ card,
    CardStack.addCard stockStack card) ;;
  forEach (imap (λ i col, (i, col)) (Deck.d_tableau dealResult))
    (λ '(columnIndex, columnCards),
      match tableauStacks !! columnIndex with
      | Some tableauStack =>
          forEach columnCards (λ card, CardStack.addCard tableauStack card)
      | None => mret ()
      end).

(** The loop of [clearGame] for one stack: the cards of a copy of the
    array are removed one by one and destroyed ([destroy] clears the back
    reference once more). *)
Definition clearStack (stack : CardStack) : State unit :=
  l ← gets (λ w, cards w stack);
  forEach l (λ card,
    CardStack.removeCard stack card ;;
    modify (set_currentStack card None)).

(** [clearGame]: every stack is emptied.  (The old deck is destroyed
    first: [dealCard] pops, so after a deal it holds no card; the deck
    object and the hint are outside the store.) *)
Definition clearGame : State unit :=
  forEach getAllStacks clearStack.

(** [newGame]: the board is cleared, the game state reset, a new deck
    built and shuffled, dealt and placed, and the game started.
    [new Deck()] builds 52 cards in sorted order, which [shuffle] destroys
    and replaces by one new card per datum of [shuffled], the outcome of
    [Utils.shuffle] and the only random step; [base] is the identity of
    the first of these objects.  (The saved state that is deleted and the
    block check scheduled for a second later are outside the model.) *)
Definition newGame (base : nat) (shuffled : list (Suit * Rank))
  : State unit :=
  clearGame ;;
  modify (λ w, set_gameState (GameState.reset (gameState w)) w) ;;
  deck ← Deck.createCards base shuffled;
  dealResult ← Deck.dealForSolitaire deck;
  dealCards dealResult ;;
  modify (λ w, set_gameState (GameState.startGame (gameState w)) w).

Definition undoLastMove : State bool :=
  can ← gets (λ w, GameState.canUndo (gameState w));
  if negb can then mret false
  else
    lastMove ← (λ w,
      let (m, g) := GameState.undoLastMove (gameState w) in
      (m, set_gameState g w));
    match lastMove with
    | Some m => GameLogic.undoMove m ;; mret true
    | None => mret false
    end.

End GameController.

(** * Vocabulary of the properties *)

(** The table of the specification, row by row. *)
Definition acceptance_table (d : CardStack) (c : Card) (w : World) : Prop :=
  match type d with
  | foundation =>
      (cards w d = [] ∧ getValue c = 1)
      ∨ (∃ top, last (cards w d) = Some top
                ∧ suit c = suit top ∧ getValue c = getValue top + 1)
  | tableau =>
      (cards w d = [] ∧ getValue c = 13)
      ∨ (∃ top, last (cards w d) = Some top
                ∧ faceUp w top = true
                ∧ isRed c ≠ isRed top ∧ getValue c = getValue top - 1)
  | waste => False
  | stock => False
  end.

(** A successive pair of a run: both cards face up, colours alternate, the
    rank goes down by exactly one. *)
Definition run_pair (w : World) (prev curr : Card) : Prop :=
  faceUp w prev = true ∧ faceUp w curr = true
  ∧ isRed prev ≠ isRed curr
  ∧ getValue prev = getValue curr + 1.

(** Every successive pair of [l] is a [run_pair]. *)
Fixpoint valid_run (w : World) (l : list Card) : Prop :=
  match l with
  | a :: (b :: _) as l' => run_pair w a b ∧ valid_run w l'
  | _ => True
  end.

(** The five kinds of move record the engine writes. *)
Definition recorded_kinds : list string :=
  ["card_move"; "multi_card_move"; "stock_to_waste"; "waste_to_stock";
   "card_flip"].

(** [allStacks.find(s => s.type === t)] *)
Definition first_of_type (t : StackType) (allStacks : list CardStack)
  : option CardStack :=
  List.find (λ s, bool_decide (type s = t)) allStacks.

(** The stack found for a type holds no card (a collection without such a
    stack has no card to offer either). *)
Definition none_or_empty (o : option CardStack) (w : World) : Prop :=
  match o with
  | Some s => cards w s = []
  | None => True
  end.

(** [l] has left the top of [src] in list order (leaving [rest]) and lies
    on top of [dst] in that order, each card with face state [b]; nothing
    else moved or turned. *)
Definition moved (src dst : CardStack) (l : list Card) (b : bool)
    (rest : list Card) (w w' : World) : Prop :=
  cards w' src = rest
  ∧ cards w' dst = cards w dst ++ l
  ∧ (∀ s, s ≠ src → s ≠ dst → cards w' s = cards w s)
  ∧ (∀ c, c ∈ l → faceUp w' c = b)
  ∧ (∀ c, c ∉ l → faceUp w' c = faceUp w c).

(** The caller's loop of the recycle round trip: draw while the stock
    holds a card.  At most [fuel] draws are made; the result tells whether
    the stock is empty at the end. *)
Fixpoint drawUntilEmpty (fuel : nat) (stockStack wasteStack : CardStack)
  : State bool :=
  match fuel with
  | O => gets (CardStack.isEmpty stockStack)
  | S fuel' =>
      empty ← gets (CardStack.isEmpty stockStack);
      if (empty : bool) then mret true
      else
        GameLogic.drawFromStock stockStack wasteStack ;;
        drawUntilEmpty fuel' stockStack wasteStack
  end.

(** [n] successive calls of [drawFromStock]; the lists they return. *)
Fixpoint successiveDraws (n : nat) (stockStack wasteStack : CardStack)
  : State (list (list Card)) :=
  match n with
  | O => mret []
  | S n' =>
      r ← GameLogic.drawFromStock stockStack wasteStack;
      rs ← successiveDraws n' stockStack wasteStack;
      mret (r :: rs)
  end.

(** What the moves of a sweep over the candidates [l] return, in turn
    (the source drops these booleans). *)
Fixpoint sweepResults (l : list Hint) (w : World) : list bool :=
  match l with
  | [] => []
  | h :: l' =>
      let r := GameLogic.moveCandidate h w in
      r.1 :: sweepResults l' r.2
  end.

(** A candidate of a sweep: the face-up top card of a stack of the
    collection that is not a foundation, and a foundation of the
    collection that accepts it. *)
Definition completable (allStacks : list CardStack) (w : World) (h : Hint)
  : Prop :=
  h_type h = None
  ∧ h_fromStack h ∈ allStacks
  ∧ type (h_fromStack h) ≠ foundation
  ∧ h_toStack h ∈ allStacks
  ∧ type (h_toStack h) = foundation
  ∧ CardStack.getTopCard (h_fromStack h) w = Some (h_card h)
  ∧ faceUp w (h_card h) = true
  ∧ CardStack.canPlaceOnFoundation (h_toStack h) (h_card h) w = true.

(** All cards on the board, stack after stack. *)
Definition allCards (w : World) : list Card :=
  GameController.getAllStacks ≫= cards w.

(** A foundation pile in order: ranks 1, 2, 3, ... from the bottom, all of
    the suit of the bottom card. *)
Definition foundation_ordered (l : list Card) : Prop :=
  ∀ (i : nat) c, l !! i = Some c →
    getValue c = Z.of_nat i + 1
    ∧ ∀ c0, head l = Some c0 → suit c = suit c0.

(** The game state a validated single-card move leaves behind. *)
Definition singleMoveState (card : Card) (fromStack toStack : CardStack)
    (g : GameState.t) : GameState.t :=
  let md :=
    MoveData.mk "card_move" (Some (toString card)) None None
      (Some (StackType_to_string (type fromStack)))
      (Some (StackType_to_string (type toStack)))
      (Some (index fromStack)) (Some (index toStack)) None None None in
  let after (g : GameState.t) :=
    GameState.recordMove md
      (if bool_decide (type fromStack = foundation)
       then GameState.removeFromFoundation g else g) in
  if bool_decide (type toStack = foundation) then
    if (GameState.addToFoundation g).1
    then (GameState.addToFoundation g).2
    else after (GameState.addToFoundation g).2
  else after g.

(** A hint that proposes a move: the face-up top card of one stack of the
    collection, and another stack of the collection, a foundation or a
    tableau column, that accepts it. *)
Definition move_hint (allStacks : list CardStack) (w : World) (h : Hint)
  : Prop :=
  h_type h = None
  ∧ h_fromStack h ∈ allStacks
  ∧ h_toStack h ∈ allStacks
  ∧ h_fromStack h ≠ h_toStack h
  ∧ type (h_fromStack h) ≠ foundation
  ∧ (type (h_toStack h) = foundation ∨ type (h_toStack h) = tableau)
  ∧ CardStack.getTopCard (h_fromStack h) w = Some (h_card h)
  ∧ faceUp w (h_card h) = true
  ∧ CardStack.canAcceptCard (h_toStack h) (h_card h) w = true.

(** A hint that proposes to turn a card: the face-down top card of a
    tableau column of the collection, with its owning stack as source and
    target. *)
Definition flip_hint (allStacks : list CardStack) (w : World) (h : Hint)
  : Prop :=
  h_type h = Some "flip"
  ∧ h_fromStack h = h_toStack h
  ∧ currentStack w (h_card h) = Some (h_fromStack h)
  ∧ faceUp w (h_card h) = false
  ∧ ∃ s, s ∈ allStacks ∧ type s = tableau
         ∧ CardStack.getTopCard s w = Some (h_card h).

(** [card.flip(b)] for each listed card in turn. *)
Definition flipAll (l : list (Card * bool)) (w : World) : World :=
  foldl (λ w p, set_faceUp p.1 p.2 w) w l.

(** The cards that column [k] (counted from 0) receives in a deal, when
    [order] lists the deck in the order of dealing: the [k + 1] cards after
    the first [k (k + 1) / 2]. *)
Definition dealtColumn (k : nat) (order : list Card) : list Card :=
  take (S k) (drop (k * S k / 2) order).

(** The faces a deal gives to the cards of column [col], from [row] on. *)
Definition columnFaces (row col : nat) (l : list Card) : list (Card * bool) :=
  imap (λ j c, (c, bool_decide (row + j = col)%nat)) l.

(** The faces a deal gives, card by card in the order of dealing: of each
    column only the last card is turned up, the stock stays face down. *)
Definition dealFaces (columns : list (list Card)) (stockCards : list Card)
  : list (Card * bool) :=
  mjoin (imap (λ k l, columnFaces 0 k l) columns)
  ++ ((λ c, (c, false)) <$> stockCards).

(** The suit and rank of each card of a list. *)
Definition cardData (l : list Card) : list (Suit * Rank) :=
  (λ c, (suit c, rank c)) <$> l.

(** The rules the Move Validator enforces on a single card: the game is
    being played, the card lies face up, and the target accepts it by the
    table (which no card satisfies for the waste or the stock). *)
Definition move_rules (card : Card) (toStack : CardStack) (w : World)
  : Prop :=
  GameState.isPlaying (gameState w) = true
  ∧ faceUp w card = true
  ∧ acceptance_table toStack card w.

(** The rules the Move Validator enforces on a list of cards: the source
    is a tableau column, the list is not empty and a valid run, and its
    first card satisfies [move_rules]. *)
Definition run_rules (l : list Card) (fromStack toStack : CardStack)
    (w : World) : Prop :=
  type fromStack = tableau
  ∧ valid_run w l
  ∧ ∃ c0 rest, l = c0 :: rest ∧ move_rules c0 toStack w.

(** A single-card move within the rules of the game: [move_rules], and the
    card is the top card of its source stack. *)
Definition legal_move (card : Card) (fromStack toStack : CardStack)
    (w : World) : Prop :=
  move_rules card toStack w
  ∧ CardStack.getTopCard fromStack w = Some card.

(** * Example states *)

(** A store given by the content of its stacks and the cards lying face
    up; a card's owner is the first listed stack that holds it. *)
Definition example_world (stacks : list (CardStack * list Card))
    (up : list Card) (g : GameState.t) : World :=
  mkWorld
    (λ c, bool_decide (c ∈ up))
    (λ c, fst <$> List.find (λ p, bool_decide (c ∈ p.2)) stacks)
    (λ s, from_option snd [] (List.find (λ p, bool_decide (p.1 = s)) stacks))
    g.

Definition playing : GameState.t := GameState.startGame GameState.new.

Definition paused : GameState.t :=
  GameState.mk true false true 0 0 0 0 [] GameState.defaultSettings.

Definition ex_T0 : CardStack := mkStack 6 tableau 0.
Definition ex_F0 : CardStack := mkStack 2 foundation 0.

Definition king_spades : Card := mkCard 51 spades RK.
Definition queen_hearts : Card := mkCard 11 hearts RQ.
Definition jack_hearts : Card := mkCard 10 hearts RJ.
Definition ace_hearts : Card := mkCard 0 hearts RA.
Definition two_hearts : Card := mkCard 1 hearts R2.
Definition three_hearts : Card := mkCard 2 hearts R3.
Definition four_hearts : Card := mkCard 3 hearts R4.
Definition five_hearts : Card := mkCard 4 hearts R5.

(** A tableau column K♠ Q♥ J♥, all face up: the run from the bottom ends
    before J♥, which has the colour of Q♥. *)
Definition ex_run : World :=
  example_world
    [(ex_T0, [king_spades; queen_hearts; jack_hearts])]
    [king_spades; queen_hearts; jack_hearts] playing.

(** A game state with undo switched off and one record in its history. *)
Definition ex_no_undo : GameState.t :=
  GameState.mk true false false 0 0 1 0 [MoveData.of_type "card_flip"]
    (mkSettings 3 false true true true).

(** One record in the history of a running game, undo allowed. *)
Definition ex_one_move : World :=
  example_world [(ex_T0, [king_spades])] [king_spades]
    (GameState.mk true false false 0 0 1 0 [MoveData.of_type "card_flip"]
       GameState.defaultSettings).

(** A running game: K♠ face up alone on a tableau column, a face-down Q♥
    on top of the waste, nothing in the stock. *)
Definition ex_waste_only : World :=
  example_world
    [(GameController.wasteStack, [queen_hearts]); (ex_T0, [king_spades])]
    [king_spades] playing.

(** A running game whose only card is a face-down Q♥ in the stock: no
    hint exists, but a draw is possible. *)
Definition ex_stock_only : World :=
  example_world [(GameController.stockStack, [queen_hearts])] [] playing.

(** A running game with draw count 3: A♥ 2♥ 3♥ 4♥ 5♥ (bottom to top)
    face down in the stock, every other stack empty. *)
Definition ex_five : World :=
  example_world
    [(GameController.stockStack,
      [ace_hearts; two_hearts; three_hearts; four_hearts; five_hearts])]
    [] playing.

(** A paused game with a face-up A♥ on the waste and nothing else. *)
Definition ex_paused_ace : World :=
  example_world [(GameController.wasteStack, [ace_hearts])] [ace_hearts]
    paused.

(** A running game: A♥ on the first foundation, 2♥ on the waste, 3♥ on a
    tableau column, all face up. *)
Definition ex_two_sweeps : World :=
  example_world
    [(ex_F0, [ace_hearts]); (GameController.wasteStack, [two_hearts]);
     (ex_T0, [three_hearts])]
    [ace_hearts; two_hearts; three_hearts] playing.

(** The game dealt from a deck in the order of the 'reverse' test
    pattern: the first card dealt, A♥, lies face up on the first tableau
    column. *)
Definition dealt_reverse : World :=
  (GameController.newGame 0 Deck.reversePattern
     GameController.initialWorld).2.

(** The A♥ object of that deck. *)
Definition dealt_ace : Card := mkCard 51 hearts RA.

(** A running game one card short of completion as far as the counter
    goes: A♥ on the first foundation, 2♥ face up on the waste. *)
Definition ex_last_card : World :=
  example_world
    [(ex_F0, [ace_hearts]); (GameController.wasteStack, [two_hearts])]
    [ace_hearts; two_hearts]
    (GameState.mk true false false 0 0 0 51 [] GameState.defaultSettings).

Definition jack_spades : Card := mkCard 49 spades RJ.
Definition ten_hearts : Card := mkCard 9 hearts R10.
Definition ex_T1 : CardStack := mkStack 7 tableau 1.

(** A running game: A♥ 2♥ on the first foundation, J♠ face up on the
    waste, K♠ Q♥ face up on the first tableau column, and on the second
    column a face-down 4♥ under a face-up 3♥ (stacks are listed bottom
    first). *)
Definition ex_board : World :=
  example_world
    [(ex_F0, [ace_hearts; two_hearts]);
     (GameController.wasteStack, [jack_spades]);
     (ex_T0, [king_spades; queen_hearts]);
     (ex_T1, [four_hearts; three_hearts])]
    [ace_hearts; two_hearts; jack_spades; king_spades; queen_hearts;
     three_hearts]
    playing.

(** A running game: K♠ face up alone on the first tableau column; on the
    second a face-down 4♥ under the face-up run Q♥ J♠. *)
Definition ex_two_columns : World :=
  example_world
    [(ex_T0, [king_spades]);
     (ex_T1, [four_hearts; queen_hearts; jack_spades])]
    [king_spades; queen_hearts; jack_spades]
    playing.

(** The thirteen cards of one suit, ace first. *)
Definition suit_pile (base : nat) (s : Suit) : list Card :=
  Deck.makeCards base ((λ r, (s, r)) <$> RANKS).

(** A game with every card on its foundation. *)
Definition ex_won : World :=
  example_world
    (zip GameController.foundationStacks
       [suit_pile 0 hearts; suit_pile 13 diamonds; suit_pile 26 clubs;
        suit_pile 39 spades])
    [] playing.

(** The board of [ex_board] with the two foundation cards counted. *)
Definition ex_counted : World :=
  set_gameState
    (GameState.mk true false false 0 0 0 2 [] GameState.defaultSettings)
    ex_board.

Definition ace_spades : Card := mkCard 39 spades RA.

(** A running game: K♠ under Q♥, both face up, on the first tableau
    column; the second column is empty. *)
Definition ex_buried : World :=
  example_world [(ex_T0, [king_spades; queen_hearts])]
    [king_spades; queen_hearts] playing.

(** A running game: A♥ on the first foundation, the face-up run 2♥ A♠
    on the first tableau column. *)
Definition ex_run_on_foundation : World :=
  example_world
    [(ex_F0, [ace_hearts]); (ex_T0, [two_hearts; ace_spades])]
    [ace_hearts; two_hearts; ace_spades] playing.

(** * Properties *)

(** ** Proof support *)

Ltac unfold_state :=
  unfold mbind, mret, State_bind, State_ret, gets, modify in *.

Lemma isEmpty_true (s : CardStack) (w : World) :
  CardStack.isEmpty s w = true ↔ cards w s = [].
Proof.
  unfold CardStack.isEmpty. rewrite bool_decide_eq_true.
  split; [apply nil_length_inv | intros ->; reflexivity].
Qed.

Lemma isEmpty_false (s : CardStack) (w : World) :
  CardStack.isEmpty s w = false ↔ cards w s ≠ [].
Proof.
  rewrite <- isEmpty_true. destruct (CardStack.isEmpty s w); split; congruence.
Qed.

Lemma last_nonempty (l : list Card) : l ≠ [] → ∃ c, last l = Some c.
Proof.
  intros H. destruct (last l) as [c|] eqn:E; [eauto|].
  apply last_None in E. contradiction.
Qed.

(** ** C2: acceptance rules *)

Lemma getValue_ace (c : Card) : getValue c = 1 ↔ rank c = RA.
Proof. unfold getValue. destruct (rank c); split; (discriminate || reflexivity). Qed.

Lemma getValue_king (c : Card) : getValue c = 13 ↔ rank c = RK.
Proof. unfold getValue. destruct (rank c); split; (discriminate || reflexivity). Qed.

Lemma getValue_range (c : Card) : 1 ≤ getValue c ≤ 13.
Proof. unfold getValue. destruct (rank c); lia. Qed.

Lemma canMoveToFoundation_eq (c : Card) (d : CardStack) (w : World) :
  GameLogic.canMoveToFoundation c d w = CardStack.canPlaceOnFoundation d c w.
Proof.
  unfold GameLogic.canMoveToFoundation, CardStack.canPlaceOnFoundation,
    CardStack.isEmpty, CardStack.getTopCard.
  destruct (bool_decide (length (cards w d) = 0%nat)); [reflexivity|].
  destruct (last (cards w d)); reflexivity.
Qed.

Lemma canMoveToTableau_eq (c : Card) (d : CardStack) (w : World) :
  GameLogic.canMoveToTableau c d w = CardStack.canPlaceOnTableau d c w.
Proof.
  unfold GameLogic.canMoveToTableau, CardStack.canPlaceOnTableau,
    CardStack.isEmpty, CardStack.getTopCard.
  destruct (bool_decide (length (cards w d) = 0%nat)); [reflexivity|].
  destruct (last (cards w d)); reflexivity.
Qed.

Lemma canPlaceOnFoundation_spec (d : CardStack) (c : Card) (w : World) :
  CardStack.canPlaceOnFoundation d c w = true ↔
  (cards w d = [] ∧ getValue c = 1)
  ∨ (∃ top, last (cards w d) = Some top
            ∧ suit c = suit top ∧ getValue c = getValue top + 1).
Proof.
  unfold CardStack.canPlaceOnFoundation, CardStack.getTopCard.
  destruct (CardStack.isEmpty d w) eqn:E.
  - apply isEmpty_true in E. rewrite bool_decide_eq_true. split.
    + intros H. left. split; assumption.
    + intros [[_ H]|(top & Hl & _)]; [assumption|].
      rewrite E in Hl. discriminate.
  - apply isEmpty_false in E.
    destruct (last_nonempty _ E) as [top Htop]. rewrite Htop.
    rewrite andb_true_iff, !bool_decide_eq_true. split.
    + intros [H1 H2]. right. exists top. repeat split; assumption.
    + intros [[H _]|(top' & Hl & H1 & H2)]; [contradiction|].
      injection Hl as <-. split; assumption.
Qed.

Lemma canPlaceOnTableau_spec (d : CardStack) (c : Card) (w : World) :
  CardStack.canPlaceOnTableau d c w = true ↔
  (cards w d = [] ∧ getValue c = 13)
  ∨ (∃ top, last (cards w d) = Some top
            ∧ faceUp w top = true
            ∧ isRed c ≠ isRed top ∧ getValue c = getValue top - 1).
Proof.
  unfold CardStack.canPlaceOnTableau, CardStack.getTopCard.
  destruct (CardStack.isEmpty d w) eqn:E.
  - apply isEmpty_true in E. rewrite bool_decide_eq_true. split.
    + intros H. left. split; assumption.
    + intros [[_ H]|(top & Hl & _)]; [assumption|].
      rewrite E in Hl. discriminate.
  - apply isEmpty_false in E.
    destruct (last_nonempty _ E) as [top Htop]. rewrite Htop.
    destruct (faceUp w top) eqn:Hup; simpl.
    + rewrite andb_true_iff, !bool_decide_eq_true. split.
      * intros [H1 H2]. right. exists top. repeat split; assumption.
      * intros [[H _]|(top' & Hl & _ & H1 & H2)]; [contradiction|].
        injection Hl as <-. split; assumption.
    + split; [discriminate|].
      intros [[H _]|(top' & Hl & Hf & _)]; [contradiction|].
      injection Hl as <-. congruence.
Qed.

(** C2.  The destination-acceptance check [canAcceptCard] is true exactly
    on the rows of the acceptance table: an empty foundation takes rank 1, a
    non-empty one the same suit and the top rank plus one; an empty tableau
    takes rank 13, a non-empty one needs a face-up top, the other colour and
    the top rank minus one; waste and stock take nothing.  The two checks
    [validateMove] dispatches to, [canMoveToFoundation] and
    [canMoveToTableau], compute the same booleans. *)
Theorem C2_acceptance_rules (d : CardStack) (c : Card) (w : World) :
  (CardStack.canAcceptCard d c w = true ↔ acceptance_table d c w)
  ∧ GameLogic.canMoveToFoundation c d w = CardStack.canPlaceOnFoundation d c w
  ∧ GameLogic.canMoveToTableau c d w = CardStack.canPlaceOnTableau d c w.
Proof.
  split; [|split; [apply canMoveToFoundation_eq | apply canMoveToTableau_eq]].
  unfold CardStack.canAcceptCard, acceptance_table.
  destruct (type d).
  - split; [discriminate | contradiction].
  - split; [discriminate | contradiction].
  - apply canPlaceOnFoundation_spec.
  - apply canPlaceOnTableau_spec.
Qed.

(** ** C4: run extraction *)

Lemma valid_run_lookup (w : World) (l : list Card) :
  valid_run w l ↔
  ∀ (i : nat) a b, l !! i = Some a → l !! S i = Some b → run_pair w a b.
Proof.
  induction l as [|a [|b l] IH].
  - split; [intros _ i a b H; destruct i; discriminate | reflexivity].
  - split; [|reflexivity]. intros _ [|i] x y H1 H2; discriminate.
  - change (valid_run w (a :: b :: l)) with
      (run_pair w a b ∧ valid_run w (b :: l)).
    rewrite IH. split.
    + intros [Hp Hr] [|i] x y H1 H2.
      * simpl in H1, H2. injection H1 as <-. injection H2 as <-. exact Hp.
      * apply (Hr i); assumption.
    + intros H. split.
      * apply (H 0%nat); reflexivity.
      * intros i x y H1 H2. apply (H (S i)); assumption.
Qed.

Lemma run_pair_guards (w : World) (prev curr : Card) :
  run_pair w prev curr ↔
  (negb (faceUp w prev) || negb (faceUp w curr) = false)
  ∧ bool_decide (isRed prev = isRed curr) = false
  ∧ bool_decide (getValue prev ≠ getValue curr + 1) = false.
Proof.
  unfold run_pair.
  rewrite orb_false_iff, !negb_false_iff, !bool_decide_eq_false.
  split.
  - intros (H1 & H2 & H3 & H4). repeat split; try assumption.
    intros H. apply H. exact H4.
  - intros ((H1 & H2) & H3 & H4). repeat split; try assumption.
    destruct (decide (getValue prev = getValue curr + 1)); [assumption|].
    contradiction.
Qed.

Lemma validLoop_spec (w : World) (rest : list Card) : ∀ prev,
  CardStack.validLoop w prev rest `prefix_of` rest
  ∧ valid_run w (prev :: CardStack.validLoop w prev rest)
  ∧ ∀ r', r' `prefix_of` rest → valid_run w (prev :: r') →
          (length r' ≤ length (CardStack.validLoop w prev rest))%nat.
Proof.
  induction rest as [|curr rest IH]; intros prev.
  - simpl. split; [reflexivity|]. split; [exact I|].
    intros r' Hp _. apply prefix_nil_inv in Hp. subst. reflexivity.
  - assert (Hstop : ¬ run_pair w prev curr →
      ∀ r', r' `prefix_of` curr :: rest → valid_run w (prev :: r') →
            (length r' ≤ 0)%nat).
    { intros Hno [|x r'] Hp Hv; [reflexivity|].
      pose proof (prefix_cons_inv_1 _ _ _ _ Hp) as ->.
      destruct Hv as [Hv _]. contradiction. }
    simpl.
    destruct (negb (faceUp w prev) || negb (faceUp w curr)) eqn:E1.
    { split; [apply prefix_nil|]. split; [exact I|].
      apply Hstop. rewrite run_pair_guards. intros [H _]. congruence. }
    destruct (bool_decide (isRed prev = isRed curr)) eqn:E2.
    { split; [apply prefix_nil|]. split; [exact I|].
      apply Hstop. rewrite run_pair_guards. intros (_ & H & _). congruence. }
    destruct (bool_decide (getValue prev ≠ getValue curr + 1)) eqn:E3.
    { split; [apply prefix_nil|]. split; [exact I|].
      apply Hstop. rewrite run_pair_guards. intros (_ & _ & H). congruence. }
    destruct (IH curr) as (Hp & Hv & Hmax).
    split; [apply prefix_cons; exact Hp|].
    split.
    + split; [|exact Hv]. apply run_pair_guards. auto.
    + intros [|x r'] Hp' Hv'; [simpl; lia|].
      pose proof (prefix_cons_inv_1 _ _ _ _ Hp') as ->.
      apply prefix_cons_inv_2 in Hp'.
      destruct Hv' as [_ Hv']. simpl.
      apply le_n_S. apply Hmax; assumption.
Qed.

Lemma getValidSequence_spec (w : World) (l : list Card) :
  CardStack.getValidSequence l w `prefix_of` l
  ∧ valid_run w (CardStack.getValidSequence l w)
  ∧ (l ≠ [] → CardStack.getValidSequence l w ≠ [])
  ∧ ∀ r', r' `prefix_of` l → valid_run w r' →
          (length r' ≤ length (CardStack.getValidSequence l w))%nat.
Proof.
  unfold CardStack.getValidSequence.
  destruct l as [|c0 rest].
  - simpl. split; [reflexivity|]. split; [exact I|]. split; [auto|].
    intros r' Hp _. apply prefix_nil_inv in Hp. subst. reflexivity.
  - destruct (validLoop_spec w rest c0) as (Hp & Hv & Hmax).
    assert (Hgoal :
      c0 :: CardStack.validLoop w c0 rest `prefix_of` c0 :: rest
      ∧ valid_run w (c0 :: CardStack.validLoop w c0 rest)
      ∧ (c0 :: rest ≠ [] → c0 :: CardStack.validLoop w c0 rest ≠ [])
      ∧ ∀ r', r' `prefix_of` c0 :: rest → valid_run w r' →
          (length r' ≤ length (c0 :: CardStack.validLoop w c0 rest))%nat).
    { split; [apply prefix_cons; exact Hp|]. split; [exact Hv|].
      split; [discriminate|].
      intros [|x r'] Hp' Hv'; [simpl; lia|].
      pose proof (prefix_cons_inv_1 _ _ _ _ Hp') as ->.
      apply prefix_cons_inv_2 in Hp'. simpl. apply le_n_S.
      apply Hmax; assumption. }
    destruct rest as [|c1 rest]; [exact Hgoal|].
    rewrite bool_decide_eq_false_2 by (simpl; lia). exact Hgoal.
Qed.

(** C4.  For a tableau stack [getCardsFromIndex] returns the longest prefix
    of the tail starting at the index in which every successive pair is
    face up, alternates colour and descends in rank by one: it is a prefix
    of the tail, it is a valid run, it holds the card at the index, and no
    valid run that is a prefix of the tail is longer (so it stops at the
    first pair that breaks the rule, a face-down card included).  For the
    other stack types it returns the tail unchanged.  Below zero the result
    is empty (as is the tail from an index past the end). *)
Theorem C4_run_extraction (s : CardStack) (i : Z) (w : World) :
  let tail := drop (Z.to_nat i) (cards w s) in
  let r := CardStack.getCardsFromIndex s i w in
  (i < 0 → r = [])
  ∧ (0 ≤ i → type s ≠ tableau → r = tail)
  ∧ (0 ≤ i → type s = tableau →
      r `prefix_of` tail
      ∧ valid_run w r
      ∧ (tail ≠ [] → r ≠ [])
      ∧ ∀ r', r' `prefix_of` tail → valid_run w r' →
              (length r' ≤ length r)%nat).
Proof.
  intros tail r. subst tail r. unfold CardStack.getCardsFromIndex.
  split; [|split].
  - intros Hi. rewrite bool_decide_eq_true_2 by exact Hi. reflexivity.
  - intros Hi Hty. rewrite (bool_decide_eq_false_2 (i < 0)) by lia. simpl.
    destruct (bool_decide (Z.of_nat (length (cards w s)) ≤ i)) eqn:E.
    + apply bool_decide_eq_true in E. rewrite drop_ge by lia. reflexivity.
    + rewrite bool_decide_eq_false_2 by exact Hty. reflexivity.
  - intros Hi Hty. rewrite (bool_decide_eq_false_2 (i < 0)) by lia. simpl.
    destruct (bool_decide (Z.of_nat (length (cards w s)) ≤ i)) eqn:E.
    + apply bool_decide_eq_true in E. rewrite drop_ge by lia.
      split; [reflexivity|]. split; [exact I|]. split; [auto|].
      intros r' Hp _. apply prefix_nil_inv in Hp. subst. reflexivity.
    + rewrite bool_decide_eq_true_2 by exact Hty.
      apply getValidSequence_spec.
Qed.

Lemma C4_run_extraction_witness :
  CardStack.getCardsFromIndex ex_T0 (-1) ex_run = []
  ∧ CardStack.getCardsFromIndex GameController.wasteStack 0 ex_run
    = drop (Z.to_nat 0) (cards ex_run GameController.wasteStack)
  ∧ CardStack.getCardsFromIndex ex_T0 0 ex_run
    `prefix_of` drop (Z.to_nat 0) (cards ex_run ex_T0).
Proof.
  split; [|split].
  - apply (C4_run_extraction ex_T0 (-1) ex_run). lia.
  - apply (C4_run_extraction GameController.wasteStack 0 ex_run);
      [lia | discriminate].
  - apply (C4_run_extraction ex_T0 0 ex_run); [lia | reflexivity].
Defined.

Example ex_run_from_bottom :
  CardStack.getCardsFromIndex ex_T0 0 ex_run = [king_spades; queen_hearts].
Proof. reflexivity. Qed.

(** ** C10: undo is gated by the allowUndo setting *)

Lemma history_nonempty (l : list MoveData.t) :
  bool_decide (length l = 0%nat) = false ↔ l ≠ [].
Proof.
  rewrite bool_decide_eq_false. split.
  - intros H ->. apply H. reflexivity.
  - intros H E. apply H. apply nil_length_inv. exact E.
Qed.

Lemma undoLastMove_some (g : GameState.t) :
  allowUndo (GameState.settings g) = true →
  GameState.moveHistory g ≠ [] →
  ∃ m h, GameState.moveHistory g = h ++ [m]
    ∧ GameState.undoLastMove g =
      (Some m,
       GameState.mk (GameState.isGameStarted g) (GameState.isGameCompleted g)
         (GameState.isPaused g) (GameState.currentTime g) (GameState.score g)
         (Z.max 0 (GameState.moves g - 1)) (GameState.foundationCards g) h
         (GameState.settings g)).
Proof.
  intros Ha Hh. unfold GameState.undoLastMove. rewrite Ha.
  rewrite (proj2 (history_nonempty _) Hh). simpl.
  destruct (GameState.moveHistory g) as [|x l] eqn:E using rev_ind;
    [contradiction|].
  exists x, l. split; [reflexivity|].
  rewrite last_snoc, removelast_last. reflexivity.
Qed.

Lemma undoLastMove_none (g : GameState.t) :
  allowUndo (GameState.settings g) = false ∨ GameState.moveHistory g = [] →
  GameState.undoLastMove g = (None, g).
Proof.
  intros [H|H]; unfold GameState.undoLastMove; rewrite H; simpl;
    [reflexivity|].
  rewrite orb_true_r. reflexivity.
Qed.

(** C10.  [GameState.undoLastMove] returns a move record exactly when the
    allowUndo setting is on and the history is not empty; with allowUndo
    off it returns none and leaves the game state, its history included,
    as it was, whatever the history holds and whether or not a game is in
    progress.  [canUndo] asks in addition for a started, not completed
    game. *)
Theorem C10_undo_gating (g : GameState.t) :
  ((∃ m, (GameState.undoLastMove g).1 = Some m) ↔
     allowUndo (GameState.settings g) = true ∧ GameState.moveHistory g ≠ [])
  ∧ (allowUndo (GameState.settings g) = false →
       GameState.undoLastMove g = (None, g))
  ∧ (GameState.canUndo g = true ↔
       allowUndo (GameState.settings g) = true
       ∧ GameState.moveHistory g ≠ []
       ∧ GameState.isGameStarted g = true
       ∧ GameState.isGameCompleted g = false).
Proof.
  split; [|split].
  - split.
    + intros [m Hm].
      destruct (allowUndo (GameState.settings g)) eqn:Ha.
      * split; [reflexivity|]. intros Hh.
        rewrite undoLastMove_none in Hm by (right; exact Hh). discriminate.
      * rewrite undoLastMove_none in Hm by (left; exact Ha). discriminate.
    + intros [Ha Hh].
      destruct (undoLastMove_some g Ha Hh) as (m & h & _ & E).
      exists m. rewrite E. reflexivity.
  - intros Ha. apply undoLastMove_none. left. exact Ha.
  - unfold GameState.canUndo.
    rewrite !andb_true_iff, negb_true_iff, bool_decide_eq_true.
    split.
    + intros [[[Ha Hl] Hs] Hc]. repeat split; try assumption.
      intros E. rewrite E in Hl. simpl in Hl. lia.
    + intros (Ha & Hh & Hs & Hc). repeat split; try assumption.
      destruct (GameState.moveHistory g); [contradiction | simpl; lia].
Qed.

Lemma C10_undo_gating_witness :
  GameState.undoLastMove ex_no_undo = (None, ex_no_undo)
  ∧ GameState.moveHistory ex_no_undo ≠ []
  ∧ GameState.isPlaying ex_no_undo = true.
Proof.
  split; [|split].
  - apply (C10_undo_gating ex_no_undo). reflexivity.
  - discriminate.
  - reflexivity.
Defined.

(** ** C9: undo changes the bookkeeping only *)

Lemma undoMove_recorded (m : MoveData.t) (w : World) :
  MoveData.type m ∈ recorded_kinds → GameLogic.undoMove m w = (true, w).
Proof.
  unfold recorded_kinds. rewrite !elem_of_cons, elem_of_nil.
  unfold GameLogic.undoMove.
  intros [H|[H|[H|[H|[H|[]]]]]]; rewrite H; reflexivity.
Qed.

Lemma undoMove_frame (m : MoveData.t) (w : World) :
  (GameLogic.undoMove m w).2 = w.
Proof.
  unfold GameLogic.undoMove.
  repeat (match goal with |- context [bool_decide ?P] =>
            destruct (bool_decide P) end); reflexivity.
Qed.

Lemma controller_undo_frame (w : World) :
  (GameController.undoLastMove w).2 = w
  ∨ ∃ m g', GameState.undoLastMove (gameState w) = (Some m, g')
      ∧ (GameController.undoLastMove w) = (true, set_gameState g' w).
Proof.
  unfold GameController.undoLastMove. unfold_state.
  destruct (GameState.canUndo (gameState w)); simpl; [|left; reflexivity].
  destruct (GameState.undoLastMove (gameState w)) as [[m|] g'] eqn:E.
  - right. exists m, g'. split; [reflexivity|].
    pose proof (undoMove_frame m (set_gameState g' w)) as Hf.
    destruct (GameLogic.undoMove m (set_gameState g' w)) as [b w'].
    simpl in Hf. subst w'. reflexivity.
  - left. simpl.
    destruct (allowUndo (GameState.settings (gameState w))) eqn:Ha.
    + destruct (decide (GameState.moveHistory (gameState w) = [])) as [Hh|Hh].
      * rewrite undoLastMove_none in E by (right; exact Hh).
        injection E as <-. destruct w; reflexivity.
      * destruct (undoLastMove_some _ Ha Hh) as (m & h & _ & E').
        rewrite E' in E. discriminate.
    + rewrite undoLastMove_none in E by (left; exact Ha).
      injection E as <-. destruct w; reflexivity.
Qed.

(** C9.  For a record of any of the five kinds [GameLogic.undoMove] returns
    true and leaves the whole store as it was: no stack's cards, no card's
    face state changes.  An undo driven by the controller changes nothing
    but the game state, and there [GameState.undoLastMove] pops the most
    recent record, hands it back, and lowers the move counter by one (not
    below zero); every other field keeps its value. *)
Theorem C9_undo_metadata_only (m : MoveData.t) (w : World) :
  (MoveData.type m ∈ recorded_kinds → GameLogic.undoMove m w = (true, w))
  ∧ (faceUp (GameController.undoLastMove w).2 = faceUp w
     ∧ currentStack (GameController.undoLastMove w).2 = currentStack w
     ∧ cards (GameController.undoLastMove w).2 = cards w)
  ∧ (∀ g', GameState.undoLastMove (gameState w) = (Some m, g') →
       GameState.moveHistory (gameState w) = GameState.moveHistory g' ++ [m]
       ∧ GameState.moves g' = Z.max 0 (GameState.moves (gameState w) - 1)
       ∧ GameState.isGameStarted g' = GameState.isGameStarted (gameState w)
       ∧ GameState.isGameCompleted g'
         = GameState.isGameCompleted (gameState w)
       ∧ GameState.isPaused g' = GameState.isPaused (gameState w)
       ∧ GameState.currentTime g' = GameState.currentTime (gameState w)
       ∧ GameState.score g' = GameState.score (gameState w)
       ∧ GameState.foundationCards g'
         = GameState.foundationCards (gameState w)
       ∧ GameState.settings g' = GameState.settings (gameState w)).
Proof.
  split; [apply undoMove_recorded|]. split.
  - destruct (controller_undo_frame w) as [E|(m' & g' & _ & E)];
      rewrite E; repeat split; reflexivity.
  - intros g' E.
    destruct (allowUndo (GameState.settings (gameState w))) eqn:Ha.
    + destruct (decide (GameState.moveHistory (gameState w) = [])) as [Hh|Hh].
      * rewrite undoLastMove_none in E by (right; exact Hh). discriminate.
      * destruct (undoLastMove_some _ Ha Hh) as (m' & h & Hm & E').
        rewrite E' in E. injection E as -> <-. simpl.
        repeat split; try reflexivity. exact Hm.
    + rewrite undoLastMove_none in E by (left; exact Ha). discriminate.
Qed.

Lemma C9_undo_metadata_only_witness :
  GameLogic.undoMove (MoveData.of_type "card_flip") ex_one_move
  = (true, ex_one_move)
  ∧ GameState.moveHistory (gameState ex_one_move)
    = GameState.moveHistory (GameState.undoLastMove (gameState ex_one_move)).2
      ++ [MoveData.of_type "card_flip"].
Proof.
  split.
  - apply (C9_undo_metadata_only (MoveData.of_type "card_flip") ex_one_move).
    vm_compute. repeat constructor.
  - apply (C9_undo_metadata_only (MoveData.of_type "card_flip") ex_one_move).
    reflexivity.
Defined.

(** ** C8: a failed operation changes nothing *)

Lemma validateMove_rejects (card : Card) (fromStack toStack : CardStack)
    (w : World) :
  GameState.isPlaying (gameState w) = false ∨ faceUp w card = false
  ∨ type toStack = waste ∨ type toStack = stock →
  GameLogic.validateMove card fromStack toStack w = false.
Proof.
  unfold GameLogic.validateMove.
  intros [H|[H|[H|H]]]; rewrite H; simpl; try reflexivity.
  - destruct (GameState.isPlaying (gameState w)); reflexivity.
  - destruct (GameState.isPlaying (gameState w)), (faceUp w card); reflexivity.
  - destruct (GameState.isPlaying (gameState w)), (faceUp w card); reflexivity.
Qed.

Lemma draw_both_empty (stockStack wasteStack : CardStack) (w : World) :
  cards w stockStack = [] → cards w wasteStack = [] →
  GameLogic.drawFromStock stockStack wasteStack w = ([], w).
Proof.
  intros Hs Hw.
  unfold GameLogic.drawFromStock, GameLogic.recycleWasteToStock.
  unfold_state.
  rewrite (proj2 (isEmpty_true stockStack w) Hs).
  rewrite (proj2 (isEmpty_true wasteStack w) Hw). reflexivity.
Qed.

(** ** C3: block detection *)

Lemma cannot_draw_iff (o : option CardStack) (w : World) :
  negb (match o with
        | Some s => negb (CardStack.isEmpty s w)
        | None => false
        end) = true ↔ none_or_empty o w.
Proof.
  destruct o as [s|]; simpl; [|split; auto].
  rewrite negb_involutive. apply isEmpty_true.
Qed.

(** C3.  [isGameBlocked] is true exactly when [findHints] returns the
    empty list and both the stock stack and the waste stack (the first
    stack of that type in the collection) are empty; so it is false as soon
    as either of them holds a card, whatever the hints.  On the thirteen
    stacks of the board these are the controller's stock and waste. *)
Theorem C3_block_detection (allStacks : list CardStack) (w : World) :
  (GameLogic.isGameBlocked allStacks w = true ↔
     GameLogic.findHints allStacks w = []
     ∧ none_or_empty (first_of_type stock allStacks) w
     ∧ none_or_empty (first_of_type waste allStacks) w)
  ∧ (∀ s, first_of_type stock allStacks = Some s
          ∨ first_of_type waste allStacks = Some s →
          cards w s ≠ [] →
          GameLogic.isGameBlocked allStacks w = false)
  ∧ (GameLogic.isGameBlocked GameController.getAllStacks w = true ↔
     GameLogic.findHints GameController.getAllStacks w = []
     ∧ cards w GameController.stockStack = []
     ∧ cards w GameController.wasteStack = []).
Proof.
  assert (Hiff : ∀ all,
    GameLogic.isGameBlocked all w = true ↔
     GameLogic.findHints all w = []
     ∧ none_or_empty (first_of_type stock all) w
     ∧ none_or_empty (first_of_type waste all) w).
  { intros all. unfold GameLogic.isGameBlocked, first_of_type.
    rewrite !andb_true_iff, !cannot_draw_iff, bool_decide_eq_true.
    split.
    - intros [[H1 H2] H3]. split; [apply nil_length_inv; exact H1 | auto].
    - intros (H1 & H2 & H3). rewrite H1. auto. }
  split; [apply Hiff|]. split.
  - intros s Hs Hne.
    destruct (GameLogic.isGameBlocked allStacks w) eqn:E; [|reflexivity].
    apply Hiff in E. destruct E as (_ & H2 & H3).
    destruct Hs as [Hs|Hs]; [rewrite Hs in H2 | rewrite Hs in H3];
      simpl in *; contradiction.
  - apply Hiff.
Qed.

Lemma C3_block_detection_witness :
  GameLogic.isGameBlocked GameController.getAllStacks ex_stock_only = false
  ∧ GameLogic.findHints GameController.getAllStacks ex_stock_only = [].
Proof.
  split.
  - apply (C3_block_detection GameController.getAllStacks ex_stock_only)
      with (s := GameController.stockStack).
    + left. reflexivity.
    + discriminate.
  - reflexivity.
Defined.

(** ** Moving the top card of a stack *)

Lemma bind_run {A B} (m : State A) (f : A → State B) (w : World) :
  (m ≫= f) w = f (m w).1 (m w).2.
Proof. unfold mbind, State_bind. destruct (m w). reflexivity. Qed.

Lemma indexOf_last (l : list Card) (c : Card) :
  c ∉ l → indexOf c (l ++ [c]) = Some (length l).
Proof.
  induction l as [|x l IH]; intros Hc; simpl.
  - destruct (decide (c = c)); [reflexivity | contradiction].
  - apply not_elem_of_cons in Hc as [Hne Hc].
    destruct (decide (x = c)); [congruence|].
    rewrite (IH Hc). reflexivity.
Qed.

Lemma splice1_last (l : list Card) (c : Card) :
  splice1 (length l) (l ++ [c]) = l.
Proof.
  unfold splice1. rewrite take_app_length.
  rewrite drop_ge by (rewrite length_app; simpl; lia).
  apply app_nil_r.
Qed.

Lemma move_top_spec (src dst : CardStack) (b : bool) (c : Card)
    (l : list Card) (w : World) :
  src ≠ dst → cards w src = l ++ [c] → c ∉ l →
  let w' := ((CardStack.removeCard src c ;;
              flip c (Some b) ;;
              CardStack.addCard dst c) w).2 in
  moved src dst [c] b l w w' ∧ gameState w' = gameState w.
Proof.
  intros Hne Hsrc Hc. cbv zeta.
  unfold CardStack.removeCard, flip, CardStack.addCard. unfold_state. simpl.
  rewrite Hsrc, (indexOf_last l c Hc), splice1_last. simpl.
  split; [|reflexivity]. unfold moved. simpl.
  rewrite (fn_lookup_insert_ne _ src dst) by exact Hne.
  split; [|split; [|split; [|split]]].
  - rewrite fn_lookup_insert_ne by congruence. apply fn_lookup_insert.
  - apply fn_lookup_insert.
  - intros s Hs Hd.
    rewrite !fn_lookup_insert_ne by congruence. reflexivity.
  - intros c' Hc'. apply list_elem_of_singleton in Hc' as ->.
    apply fn_lookup_insert.
  - intros c' Hc'. rewrite list_elem_of_singleton in Hc'.
    apply fn_lookup_insert_ne. congruence.
Qed.

Lemma moved_step (src dst : CardStack) (b : bool) (c : Card)
    (l2 l1 : list Card) (w w1 w2 : World) :
  c ∉ l2 →
  moved src dst [c] b (l1 ++ reverse l2) w w1 →
  moved src dst l2 b l1 w1 w2 →
  moved src dst (c :: l2) b l1 w w2.
Proof.
  intros Hc (A1 & A2 & A3 & A4 & A5) (B1 & B2 & B3 & B4 & B5).
  split; [exact B1|]. split; [|split; [|split]].
  - rewrite B2, A2, <- app_assoc. reflexivity.
  - intros s Hs Hd. rewrite B3, A3 by assumption. reflexivity.
  - intros c' Hc'. apply elem_of_cons in Hc' as [->|Hc'].
    + rewrite B5 by exact Hc. apply A4. apply list_elem_of_singleton.
      reflexivity.
    + apply B4. exact Hc'.
  - intros c' Hc'. apply not_elem_of_cons in Hc' as [Hne Hc'].
    rewrite B5 by exact Hc'. apply A5.
    rewrite list_elem_of_singleton. exact Hne.
Qed.

Lemma moved_nil (src dst : CardStack) (b : bool) (w : World) :
  moved src dst [] b (cards w src) w w.
Proof.
  split; [reflexivity|]. split; [symmetry; apply app_nil_r|].
  split; [reflexivity|]. split; [|reflexivity].
  intros c Hc. apply elem_of_nil in Hc. contradiction.
Qed.

Lemma moved_nil_empty (src dst : CardStack) (b : bool) (w : World) :
  cards w src = [] → moved src dst [] b [] w w.
Proof.
  intros H. pose proof (moved_nil src dst b w) as Hm.
  rewrite H in Hm. exact Hm.
Qed.

Lemma NoDup_reverse_2 (l : list Card) : NoDup l → NoDup (reverse l).
Proof. intros H. rewrite reverse_Permutation. exact H. Qed.

Lemma NoDup_snoc_inv (l : list Card) (c : Card) :
  NoDup (l ++ [c]) → (c ∉ l) ∧ NoDup l.
Proof.
  rewrite NoDup_app. intros (Hl & Hd & _). split; [|exact Hl].
  intros Hc. apply (Hd c Hc). apply list_elem_of_singleton. reflexivity.
Qed.

(** The cards to move are listed top first: the source stack ends in
    [reverse l2]. *)
Lemma top_split (l1 l2 : list Card) (c : Card) :
  NoDup (l1 ++ reverse (c :: l2)) →
  l1 ++ reverse (c :: l2) = (l1 ++ reverse l2) ++ [c]
  ∧ (c ∉ l1 ++ reverse l2) ∧ (c ∉ l2) ∧ NoDup (l1 ++ reverse l2).
Proof.
  rewrite reverse_cons, app_assoc. intros Hnd.
  apply NoDup_snoc_inv in Hnd as [Hc Hnd].
  split; [reflexivity|]. split; [exact Hc|]. split; [|exact Hnd].
  intros H. apply Hc. apply elem_of_app. right.
  apply elem_of_reverse. exact H.
Qed.

Lemma recycle_loop (stockStack wasteStack : CardStack) :
  stockStack ≠ wasteStack →
  ∀ (l2 l1 : list Card) (w : World),
    cards w wasteStack = l1 ++ reverse l2 →
    NoDup (l1 ++ reverse l2) →
    let w' :=
      (forEach l2 (GameLogic.recycleCard stockStack wasteStack) w).2 in
    moved wasteStack stockStack l2 false l1 w w'
    ∧ gameState w' = gameState w.
Proof.
  intros Hne. induction l2 as [|c l2 IH]; intros l1 w Hw Hnd; cbv zeta.
  - simpl. rewrite reverse_nil, app_nil_r in Hw. rewrite <- Hw.
    split; [apply moved_nil | reflexivity].
  - destruct (top_split l1 l2 c Hnd) as (E & Hc & Hc2 & Hnd').
    rewrite E in Hw.
    destruct (move_top_spec wasteStack stockStack false c _ w
                (not_eq_sym Hne) Hw Hc) as [Hm Hg].
    change ((CardStack.removeCard wasteStack c ;;
             flip c (Some false) ;;
             CardStack.addCard stockStack c) w)
      with (GameLogic.recycleCard stockStack wasteStack c w) in Hm, Hg.
    simpl forEach. rewrite bind_run.
    set (w1 := (GameLogic.recycleCard stockStack wasteStack c w).2) in *.
    destruct (IH l1 w1) as [Hm' Hg']; [apply Hm | exact Hnd' |].
    split; [|congruence].
    eapply moved_step; eassumption.
Qed.

Lemma drawCard_top (stockStack wasteStack : CardStack) (drawn : list Card)
    (w : World) (c : Card) :
  CardStack.getTopCard stockStack w = Some c →
  GameLogic.drawCard stockStack wasteStack drawn w =
  (drawn ++ [c],
   ((CardStack.removeCard stockStack c ;;
     flip c (Some true) ;;
     CardStack.addCard wasteStack c) w).2).
Proof.
  intros Htop. unfold GameLogic.drawCard. rewrite bind_run.
  unfold gets. cbn [fst snd]. rewrite Htop. reflexivity.
Qed.

Lemma draw_loop (stockStack wasteStack : CardStack) :
  stockStack ≠ wasteStack →
  ∀ (l2 l1 drawn : list Card) (w : World),
    cards w stockStack = l1 ++ reverse l2 →
    NoDup (l1 ++ reverse l2) →
    let r := repeatM (length l2)
               (GameLogic.drawCard stockStack wasteStack) drawn w in
    r.1 = drawn ++ l2
    ∧ moved stockStack wasteStack l2 true l1 w r.2
    ∧ gameState r.2 = gameState w.
Proof.
  intros Hne. induction l2 as [|c l2 IH]; intros l1 drawn w Hw Hnd; cbv zeta.
  - simpl. rewrite reverse_nil, app_nil_r in Hw. rewrite <- Hw.
    split; [symmetry; apply app_nil_r|].
    split; [apply moved_nil | reflexivity].
  - destruct (top_split l1 l2 c Hnd) as (E & Hc & Hc2 & Hnd').
    rewrite E in Hw.
    destruct (move_top_spec stockStack wasteStack true c _ w Hne Hw Hc)
      as [Hm Hg].
    simpl repeatM. rewrite bind_run.
    assert (Htop : CardStack.getTopCard stockStack w = Some c).
    { unfold CardStack.getTopCard. rewrite Hw. apply last_snoc. }
    pose proof (drawCard_top stockStack wasteStack drawn w c Htop) as Hbody.
    rewrite Hbody. cbn [fst snd].
    set (w1 := ((CardStack.removeCard stockStack c ;;
                 flip c (Some true) ;;
                 CardStack.addCard wasteStack c) w).2) in *.
    destruct (IH l1 (drawn ++ [c]) w1) as (Hr & Hm' & Hg');
      [apply Hm | exact Hnd' |].
    split; [rewrite Hr, <- app_assoc; reflexivity|].
    split; [|congruence].
    eapply moved_step; eassumption.
Qed.

Lemma moved_trans (src dst : CardStack) (b : bool)
    (a a' rest1 rest2 : list Card) (w w1 w2 : World) :
  moved src dst a b rest1 w w1 →
  moved src dst a' b rest2 w1 w2 →
  moved src dst (a ++ a') b rest2 w w2.
Proof.
  intros (A1 & A2 & A3 & A4 & A5) (B1 & B2 & B3 & B4 & B5).
  split; [exact B1|]. split; [|split; [|split]].
  - rewrite B2, A2, <- app_assoc. reflexivity.
  - intros s Hs Hd. rewrite B3, A3 by assumption. reflexivity.
  - intros c Hc. destruct (decide (c ∈ a')) as [Hin|Hout].
    + apply B4. exact Hin.
    + rewrite B5 by exact Hout. apply A4.
      apply elem_of_app in Hc as [Hc|Hc]; [exact Hc | contradiction].
  - intros c Hc. apply not_elem_of_app in Hc as [Hc Hc'].
    rewrite B5 by exact Hc'. apply A5. exact Hc.
Qed.

Lemma recordMove_settings (md : MoveData.t) (g : GameState.t) :
  GameState.settings (GameState.recordMove md g) = GameState.settings g.
Proof.
  unfold GameState.recordMove.
  destruct (negb (GameState.isGameStarted g)); reflexivity.
Qed.

(** [drawFromStock] unfolded on a stock that holds cards, and on an empty
    stock over a waste that holds cards. *)
Lemma drawFromStock_nonempty (stockStack wasteStack : CardStack) (w : World) :
  cards w stockStack ≠ [] →
  GameLogic.drawFromStock stockStack wasteStack w =
  let n := Z.min (drawCount (GameState.settings (gameState w)))
                 (Z.of_nat (length (cards w stockStack))) in
  let loop := repeatM (Z.to_nat n)
                (GameLogic.drawCard stockStack wasteStack) [] w in
  (loop.1,
   set_gameState
     (GameState.recordMove
        (MoveData.mk "stock_to_waste" None (Some (toString <$> loop.1))
           (Some (Z.of_nat (length loop.1)))
           None None None None None None None)
        (gameState loop.2))
     loop.2).
Proof.
  intros Hne. apply isEmpty_false in Hne.
  unfold GameLogic.drawFromStock, GameLogic.recordMove,
    CardStack.getCardCount.
  unfold_state. cbv beta iota zeta. rewrite Hne.
  destruct (repeatM _ _ _ _) as [drawn w']. reflexivity.
Qed.

Lemma drawFromStock_empty (stockStack wasteStack : CardStack) (w : World) :
  cards w stockStack = [] → cards w wasteStack ≠ [] →
  GameLogic.drawFromStock stockStack wasteStack w =
  let l := reverse (cards w wasteStack) in
  let loop := forEach l (GameLogic.recycleCard stockStack wasteStack) w in
  (l,
   set_gameState
     (GameState.recordMove
        (MoveData.mk "waste_to_stock" None None
           (Some (Z.of_nat (length l))) None None None None None None None)
        (gameState loop.2))
     loop.2).
Proof.
  intros Hs Hw. apply isEmpty_true in Hs. apply isEmpty_false in Hw.
  unfold GameLogic.drawFromStock, GameLogic.recycleWasteToStock,
    GameLogic.recordMove.
  unfold_state. cbv beta iota zeta. rewrite Hs, Hw.
  destruct (forEach _ _ _) as [u w']. reflexivity.
Qed.

(** A draw from a stock that holds cards: [k] of them, the draw count or
    what is left if that is less, go to the waste, top first, face up. *)
Lemma drawFromStock_draw (stockStack wasteStack : CardStack) (w : World)
    (l : list Card) :
  stockStack ≠ wasteStack →
  cards w stockStack = l → l ≠ [] → NoDup l →
  let k := Z.to_nat (Z.min (drawCount (GameState.settings (gameState w)))
                           (Z.of_nat (length l))) in
  let l1 := take (length l - k) l in
  let l2 := reverse (drop (length l - k) l) in
  let r := GameLogic.drawFromStock stockStack wasteStack w in
  r.1 = l2
  ∧ moved stockStack wasteStack l2 true l1 w r.2
  ∧ GameState.settings (gameState r.2) = GameState.settings (gameState w).
Proof.
  intros Hne Hl Hnil Hnd k l1 l2 r.
  assert (Hk : (k ≤ length l)%nat) by (subst k; lia).
  assert (Hlen : length l2 = k).
  { subst l2. rewrite length_reverse, length_drop. lia. }
  assert (Hsplit : l = l1 ++ reverse l2).
  { subst l1 l2. rewrite reverse_involutive, take_drop. reflexivity. }
  assert (Hw : cards w stockStack = l1 ++ reverse l2) by congruence.
  assert (Hnd' : NoDup (l1 ++ reverse l2)) by (rewrite <- Hsplit; exact Hnd).
  destruct (draw_loop stockStack wasteStack Hne l2 l1 [] w Hw Hnd')
    as (Hr & Hm & Hg).
  rewrite Hlen in Hr, Hm, Hg.
  subst r. rewrite drawFromStock_nonempty by congruence.
  cbv zeta. rewrite Hl. fold k. cbn [fst snd].
  split; [exact Hr|]. split.
  - exact Hm.
  - unfold set_gameState. cbn [gameState].
    rewrite recordMove_settings, Hg. reflexivity.
Qed.

(** A draw from an empty stock: the waste goes back, top first, face
    down. *)
Lemma drawFromStock_recycle (stockStack wasteStack : CardStack) (w : World)
    (l : list Card) :
  stockStack ≠ wasteStack →
  cards w stockStack = [] → cards w wasteStack = l → NoDup l →
  let r := GameLogic.drawFromStock stockStack wasteStack w in
  r.1 = reverse l
  ∧ moved wasteStack stockStack (reverse l) false [] w r.2
  ∧ GameState.settings (gameState r.2) = GameState.settings (gameState w).
Proof.
  intros Hne Hs Hl Hnd r. subst r.
  destruct (decide (l = [])) as [->|Hnil].
  - rewrite (draw_both_empty stockStack wasteStack w Hs Hl).
    cbn [fst snd]. rewrite reverse_nil.
    split; [reflexivity|]. split; [|reflexivity].
    apply moved_nil_empty. exact Hl.
  - rewrite drawFromStock_empty by congruence.
    rewrite Hl. cbv zeta. cbn [fst snd].
    assert (Hw : cards w wasteStack = [] ++ reverse (reverse l)).
    { rewrite reverse_involutive. exact Hl. }
    assert (Hnd' : NoDup ([] ++ reverse (reverse l))).
    { rewrite reverse_involutive. exact Hnd. }
    destruct (recycle_loop stockStack wasteStack Hne (reverse l) [] w Hw Hnd')
      as (Hm & Hg).
    split; [reflexivity|]. split.
    + exact Hm.
    + unfold set_gameState. cbn [gameState].
      rewrite recordMove_settings, Hg. reflexivity.
Qed.

(** ** C5: drawing the whole stock and recycling *)

Lemma drawUntilEmpty_S (fuel : nat) (stockStack wasteStack : CardStack)
    (w : World) :
  drawUntilEmpty (S fuel) stockStack wasteStack w =
  if CardStack.isEmpty stockStack w then (true, w)
  else drawUntilEmpty fuel stockStack wasteStack
         (GameLogic.drawFromStock stockStack wasteStack w).2.
Proof.
  simpl. rewrite bind_run. unfold gets. cbn [fst snd].
  destruct (CardStack.isEmpty stockStack w); [reflexivity|].
  rewrite bind_run. reflexivity.
Qed.

Lemma drawUntilEmpty_spec (stockStack wasteStack : CardStack) :
  stockStack ≠ wasteStack →
  ∀ (fuel : nat) (l : list Card) (w : World),
    (length l ≤ fuel)%nat →
    1 ≤ drawCount (GameState.settings (gameState w)) →
    cards w stockStack = l → NoDup l →
    let r := drawUntilEmpty fuel stockStack wasteStack w in
    r.1 = true
    ∧ moved stockStack wasteStack (reverse l) true [] w r.2
    ∧ GameState.settings (gameState r.2) = GameState.settings (gameState w).
Proof.
  intros Hne. induction fuel as [|fuel IH]; intros l w Hlen Hdc Hl Hnd;
    cbv zeta.
  - destruct l; [|simpl in Hlen; lia].
    simpl. unfold gets. cbn [fst snd].
    split; [apply isEmpty_true; exact Hl|].
    split; [|reflexivity].
    rewrite reverse_nil. apply moved_nil_empty. exact Hl.
  - rewrite drawUntilEmpty_S.
    destruct (decide (l = [])) as [->|Hnil].
    + rewrite (proj2 (isEmpty_true stockStack w) Hl).
      cbn [fst snd].
      split; [reflexivity|]. split; [|reflexivity].
      rewrite reverse_nil. apply moved_nil_empty. exact Hl.
    + rewrite (proj2 (isEmpty_false stockStack w)) by congruence.
      pose proof (drawFromStock_draw stockStack wasteStack w l
                    Hne Hl Hnil Hnd) as Hdraw.
      cbv zeta in Hdraw. destruct Hdraw as (_ & Hm & Hs).
      set (w1 := (GameLogic.drawFromStock stockStack wasteStack w).2) in *.
      set (k := Z.to_nat
                  (Z.min (drawCount (GameState.settings (gameState w)))
                         (Z.of_nat (length l)))) in *.
      assert (Hl0 : (0 < length l)%nat) by (destruct l; simpl; [congruence|lia]).
      assert (Hk : (1 ≤ k ≤ length l)%nat) by (subst k; lia).
      assert (Hnd1 : NoDup (take (length l - k) l)).
      { rewrite <- (take_drop (length l - k) l) in Hnd.
        apply NoDup_app in Hnd. apply Hnd. }
      destruct (IH (take (length l - k) l) w1) as (Hr & Hm' & Hs').
      * rewrite length_take. lia.
      * rewrite Hs. exact Hdc.
      * apply Hm.
      * exact Hnd1.
      * split; [exact Hr|]. split; [|congruence].
        rewrite <- (take_drop (length l - k) l) at 1.
        rewrite reverse_app.
        eapply moved_trans; eassumption.
Qed.

(** C5.  Let the stock hold the cards [l] (bottom to top, each once, in
    any face states) over an empty waste, with a draw count of at least
    one.  Drawing until the stock is empty ([length l] draws are enough
    and the loop does end on an empty stock) leaves the waste holding [l]
    reversed; the next draw call, on the empty stock, recycles: the waste
    is empty again, the stock holds exactly [l] in its order before the
    draws, every card of it face down, and no other stack has changed. *)
Theorem C5_recycle_round_trip (stockStack wasteStack : CardStack)
    (l : list Card) (w : World) :
  stockStack ≠ wasteStack →
  1 ≤ drawCount (GameState.settings (gameState w)) →
  NoDup l →
  cards w stockStack = l →
  cards w wasteStack = [] →
  let r1 := drawUntilEmpty (length l) stockStack wasteStack w in
  let r2 := GameLogic.drawFromStock stockStack wasteStack r1.2 in
  r1.1 = true
  ∧ cards r1.2 stockStack = []
  ∧ cards r1.2 wasteStack = reverse l
  ∧ cards r2.2 stockStack = l
  ∧ cards r2.2 wasteStack = []
  ∧ (∀ c, c ∈ l → faceUp r2.2 c = false)
  ∧ (∀ s, s ≠ stockStack → s ≠ wasteStack → cards r2.2 s = cards w s).
Proof.
  intros Hne Hdc Hnd Hl Hw r1 r2.
  destruct (drawUntilEmpty_spec stockStack wasteStack Hne (length l) l w
              (le_n _) Hdc Hl Hnd) as (Hr1 & Hm1 & Hs1).
  fold r1 in Hr1, Hm1, Hs1.
  destruct Hm1 as (A1 & A2 & A3 & A4 & A5).
  rewrite Hw in A2. simpl in A2.
  assert (Hnd' : NoDup (reverse l)).
  { apply NoDup_reverse_2. exact Hnd. }
  destruct (drawFromStock_recycle stockStack wasteStack r1.2 (reverse l)
              Hne A1 A2 Hnd') as (Hr2 & Hm2 & Hs2).
  fold r2 in Hr2, Hm2, Hs2. rewrite reverse_involutive in Hm2.
  destruct Hm2 as (B1 & B2 & B3 & B4 & B5).
  split; [exact Hr1|]. split; [exact A1|]. split; [exact A2|].
  split; [rewrite B2, A1; reflexivity|]. split; [exact B1|].
  split; [exact B4|].
  intros s Hs Hd. rewrite B3, A3 by congruence. reflexivity.
Qed.

Lemma C5_recycle_round_trip_witness :
  let l := [ace_hearts; two_hearts; three_hearts; four_hearts; five_hearts] in
  let r1 := drawUntilEmpty 5 GameController.stockStack
              GameController.wasteStack ex_five in
  let r2 := GameLogic.drawFromStock GameController.stockStack
              GameController.wasteStack r1.2 in
  r1.1 = true
  ∧ cards r1.2 GameController.stockStack = []
  ∧ cards r1.2 GameController.wasteStack = reverse l
  ∧ cards r2.2 GameController.stockStack = l
  ∧ cards r2.2 GameController.wasteStack = []
  ∧ (∀ c, c ∈ l → faceUp r2.2 c = false)
  ∧ (∀ s, s ≠ GameController.stockStack → s ≠ GameController.wasteStack →
          cards r2.2 s = cards ex_five s).
Proof.
  apply (C5_recycle_round_trip GameController.stockStack
           GameController.wasteStack
           [ace_hearts; two_hearts; three_hearts; four_hearts; five_hearts]
           ex_five).
  - discriminate.
  - vm_compute. discriminate.
  - apply (bool_decide_unpack _). vm_compute. exact I.
  - reflexivity.
  - reflexivity.
Defined.

(** ** C6: three draws from a stock of five with draw count three *)

Lemma successiveDraws_3 (stockStack wasteStack : CardStack) (w : World) :
  let r1 := GameLogic.drawFromStock stockStack wasteStack w in
  let r2 := GameLogic.drawFromStock stockStack wasteStack r1.2 in
  let r3 := GameLogic.drawFromStock stockStack wasteStack r2.2 in
  successiveDraws 3 stockStack wasteStack w = ([r1.1; r2.1; r3.1], r3.2).
Proof.
  cbv zeta. simpl successiveDraws. rewrite !bind_run. reflexivity.
Qed.

(** C6 (amended).  With a draw count of 3 and exactly five cards
    c1 .. c5 (bottom to top) in the stock, over a waste [W], three
    successive calls return 3, 2 and 5 + |W| cards.  The first two are
    draws: the cards leave the stock top first, are turned face up and go
    onto the waste in the order removed, so the last drawn is the waste's
    top.  The second call empties the stock without recycling; the third
    call, the next one after the stock became empty, is the recycle: it
    returns the whole waste, top first, which is then the stock, and the
    waste is empty. *)
Theorem C6_draw_counts (stockStack wasteStack : CardStack)
    (c1 c2 c3 c4 c5 : Card) (W : list Card) (w : World) :
  stockStack ≠ wasteStack →
  drawCount (GameState.settings (gameState w)) = 3 →
  cards w stockStack = [c1; c2; c3; c4; c5] →
  cards w wasteStack = W →
  NoDup (W ++ [c1; c2; c3; c4; c5]) →
  let r1 := GameLogic.drawFromStock stockStack wasteStack w in
  let r2 := GameLogic.drawFromStock stockStack wasteStack r1.2 in
  let r3 := GameLogic.drawFromStock stockStack wasteStack r2.2 in
  (successiveDraws 3 stockStack wasteStack w).1
  = [[c5; c4; c3]; [c2; c1]; [c1; c2; c3; c4; c5] ++ reverse W]
  ∧ (length <$> (successiveDraws 3 stockStack wasteStack w).1
     = [3; 2; 5 + length W])%nat
  ∧ (cards r1.2 stockStack = [c1; c2]
     ∧ cards r1.2 wasteStack = W ++ [c5; c4; c3]
     ∧ ∀ c, c ∈ [c5; c4; c3] → faceUp r1.2 c = true)
  ∧ (cards r2.2 stockStack = []
     ∧ cards r2.2 wasteStack = W ++ [c5; c4; c3; c2; c1]
     ∧ ∀ c, c ∈ [c2; c1] → faceUp r2.2 c = true)
  ∧ (cards r3.2 stockStack = [c1; c2; c3; c4; c5] ++ reverse W
     ∧ cards r3.2 wasteStack = []
     ∧ ∀ c, c ∈ [c1; c2; c3; c4; c5] ++ reverse W → faceUp r3.2 c = false).
Proof.
  intros Hne Hdc Hs Hw Hnd r1 r2 r3.
  assert (Hnd5 : NoDup [c1; c2; c3; c4; c5]).
  { apply NoDup_app in Hnd. apply Hnd. }
  (* first call *)
  pose proof (drawFromStock_draw stockStack wasteStack w _ Hne Hs
                ltac:(discriminate) Hnd5) as H1.
  cbv zeta in H1. rewrite Hdc in H1. fold r1 in H1.
  destruct H1 as (R1 & M1 & S1).
  change (r1.1 = [c5; c4; c3]) in R1.
  change (moved stockStack wasteStack [c5; c4; c3] true [c1; c2] w r1.2)
    in M1.
  destruct M1 as (A1 & A2 & A3 & A4 & A5).
  rewrite Hw in A2.
  (* second call *)
  assert (Hnd2 : NoDup [c1; c2]).
  { change [c1; c2; c3; c4; c5] with ([c1; c2] ++ [c3; c4; c5]) in Hnd5.
    apply NoDup_app in Hnd5. apply Hnd5. }
  pose proof (drawFromStock_draw stockStack wasteStack r1.2 _ Hne A1
                ltac:(discriminate) Hnd2) as H2.
  cbv zeta in H2. rewrite S1, Hdc in H2. fold r2 in H2.
  destruct H2 as (R2 & M2 & S2).
  change (r2.1 = [c2; c1]) in R2.
  change (moved stockStack wasteStack [c2; c1] true [] r1.2 r2.2) in M2.
  destruct M2 as (B1 & B2 & B3 & B4 & B5).
  rewrite A2, <- app_assoc in B2. simpl in B2.
  (* third call: the recycle *)
  assert (Hnd3 : NoDup (W ++ [c5; c4; c3; c2; c1])).
  { change [c5; c4; c3; c2; c1] with (reverse [c1; c2; c3; c4; c5]).
    rewrite reverse_Permutation. exact Hnd. }
  pose proof (drawFromStock_recycle stockStack wasteStack r2.2 _ Hne B1 B2
                Hnd3) as H3.
  cbv zeta in H3. fold r3 in H3.
  rewrite reverse_app in H3.
  change (reverse [c5; c4; c3; c2; c1]) with [c1; c2; c3; c4; c5] in H3.
  destruct H3 as (R3 & (C1 & C2 & C3 & C4 & C5) & S3).
  rewrite B1 in C2. simpl in C2.
  pose proof (successiveDraws_3 stockStack wasteStack w) as E.
  cbv zeta in E. fold r1 r2 r3 in E. rewrite E, R1, R2, R3. cbn [fst snd].
  split; [reflexivity|]. split.
  { simpl. rewrite length_reverse. reflexivity. }
  split; [split; [exact A1 | split; [exact A2 | exact A4]]|].
  split; [split; [exact B1 | split; [exact B2 | exact B4]]|].
  split; [exact C2 | split; [exact C1 | exact C4]].
Qed.

Lemma C6_draw_counts_witness :
  (length <$> (successiveDraws 3 GameController.stockStack
                 GameController.wasteStack ex_five).1
   = [3; 2; 5 + length (@nil Card)])%nat.
Proof.
  apply (C6_draw_counts GameController.stockStack GameController.wasteStack
           ace_hearts two_hearts three_hearts four_hearts five_hearts []
           ex_five).
  - discriminate.
  - reflexivity.
  - reflexivity.
  - reflexivity.
  - apply (bool_decide_unpack _). vm_compute. exact I.
Defined.

(** The claim as stated fails: the third of three successive draws from a
    stock of five with draw count 3 is the recycle and moves five cards,
    not none. *)
Lemma C6_counterexample :
  (length <$> (successiveDraws 3 GameController.stockStack
                 GameController.wasteStack ex_five).1)
  = [3; 2; 5]%nat
  ∧ (length <$> (successiveDraws 3 GameController.stockStack
                   GameController.wasteStack ex_five).1)
    ≠ [3; 2; 0]%nat.
Proof. split; [vm_compute; reflexivity | vm_compute; discriminate]. Qed.

(** ** C7: auto-complete *)

Lemma findAutoCompletableCards_spec (allStacks : list CardStack) (w : World)
    (h : Hint) :
  h ∈ GameLogic.findAutoCompletableCards allStacks w ↔
  completable allStacks w h.
Proof.
  unfold GameLogic.findAutoCompletableCards, completable.
  rewrite list_elem_of_bind. split.
  - intros (s & Hh & Hs).
    destruct (bool_decide (type s = foundation)) eqn:Ety;
      [apply elem_of_nil in Hh; contradiction|].
    apply bool_decide_eq_false in Ety.
    destruct (CardStack.getTopCard s w) as [top|] eqn:Etop;
      [|apply elem_of_nil in Hh; contradiction].
    destruct (faceUp w top) eqn:Eup; simpl in Hh;
      [|apply elem_of_nil in Hh; contradiction].
    apply list_elem_of_bind in Hh as (f & Hh & Hf).
    apply list_elem_of_filter in Hf as [Hfty Hf].
    destruct (GameLogic.canMoveToFoundation top f w) eqn:Ecan;
      [|apply elem_of_nil in Hh; contradiction].
    apply list_elem_of_singleton in Hh. subst h. simpl.
    rewrite canMoveToFoundation_eq in Ecan.
    repeat split; assumption.
  - destruct h as [c s f ty]. simpl.
    intros (-> & Hs & Hsty & Hf & Hfty & Htop & Hup & Hcan).
    exists s. split; [|exact Hs].
    rewrite bool_decide_eq_false_2 by exact Hsty.
    rewrite Htop, Hup. simpl.
    apply list_elem_of_bind. exists f. split.
    + rewrite canMoveToFoundation_eq, Hcan.
      apply list_elem_of_singleton. reflexivity.
    + apply list_elem_of_filter. split; assumption.
Qed.

Lemma executeSingleCardMove_valid (card : Card) (fromStack toStack : CardStack)
    (w : World) :
  GameLogic.validateMove card fromStack toStack w = true →
  (GameLogic.executeSingleCardMove card fromStack toStack w).1 = true.
Proof.
  intros Hv. unfold GameLogic.executeSingleCardMove.
  rewrite bind_run. unfold gets at 1. cbn [fst snd]. rewrite Hv.
  cbn [negb]. rewrite !bind_run.
  match goal with
  | |- context [if ?b then mret true else _] => destruct b
  end.
  - reflexivity.
  - rewrite !bind_run. reflexivity.
Qed.

Lemma candidate_is_valid (allStacks : list CardStack) (w : World) (h : Hint) :
  GameState.isPlaying (gameState w) = true →
  completable allStacks w h →
  GameLogic.validateMove (h_card h) (h_fromStack h) (h_toStack h) w = true.
Proof.
  intros Hp (_ & _ & _ & _ & Hfty & _ & Hup & Hcan).
  unfold GameLogic.validateMove. rewrite Hp, Hup, Hfty. simpl.
  rewrite canMoveToFoundation_eq. exact Hcan.
Qed.

Lemma executeAutoComplete_unfold (allStacks : list CardStack) (w : World) :
  GameLogic.executeAutoComplete allStacks w =
  let cands := GameLogic.findAutoCompletableCards allStacks w in
  if bool_decide (cands = []) then (false, w)
  else (true, (forEach cands GameLogic.moveCandidate w).2).
Proof.
  unfold GameLogic.executeAutoComplete.
  rewrite bind_run. unfold gets. cbn [fst snd]. cbv zeta.
  destruct (GameLogic.findAutoCompletableCards allStacks w) as [|h l].
  - reflexivity.
  - rewrite bool_decide_eq_false_2 by (simpl; lia).
    rewrite bool_decide_eq_false_2 by discriminate.
    rewrite bind_run. reflexivity.
Qed.

(** C7 (amended).  One call of [executeAutoComplete] is one sweep: it
    finds the candidates once, every pair of a face-up top card of a
    non-foundation stack and a foundation accepting it in the state at the
    start, then attempts the move of each candidate in turn through
    [executeSingleCardMove], and returns true exactly when the candidate
    list was not empty; without candidates the store is unchanged.  While
    the game is in the playing state the move of the first candidate is
    always made, so there the result is true exactly when at least one
    move was made.  There is no second sweep: a card that became playable
    through the sweep stays where it is. *)
Theorem C7_autocomplete_one_sweep :
  (∀ (allStacks : list CardStack) (w : World),
     let cands := GameLogic.findAutoCompletableCards allStacks w in
     (∀ h, h ∈ cands ↔ completable allStacks w h)
     ∧ GameLogic.executeAutoComplete allStacks w
       = (negb (bool_decide (cands = [])),
          (forEach cands GameLogic.moveCandidate w).2)
     ∧ ((GameLogic.executeAutoComplete allStacks w).1 = true ↔ cands ≠ [])
     ∧ (cands = [] → GameLogic.executeAutoComplete allStacks w = (false, w))
     ∧ (GameState.isPlaying (gameState w) = true →
        ((GameLogic.executeAutoComplete allStacks w).1 = true ↔
         true ∈ sweepResults cands w)))
  ∧ GameLogic.findAutoCompletableCards GameController.getAllStacks
      (GameLogic.executeAutoComplete GameController.getAllStacks
         ex_two_sweeps).2 ≠ [].
Proof.
  split; [|vm_compute; discriminate].
  intros allStacks w cands.
  pose proof (executeAutoComplete_unfold allStacks w) as E.
  cbv zeta in E. fold cands in E.
  split; [intros h; apply findAutoCompletableCards_spec|].
  split; [|split; [|split]].
  - rewrite E. destruct (bool_decide (cands = [])) eqn:Ec; [|reflexivity].
    apply bool_decide_eq_true in Ec. rewrite Ec. reflexivity.
  - rewrite E. destruct (bool_decide (cands = [])) eqn:Ec; cbn [fst].
    + apply bool_decide_eq_true in Ec. split; [discriminate | congruence].
    + apply bool_decide_eq_false in Ec. split; [intros _; exact Ec | reflexivity].
  - intros Ec. rewrite E, Ec. reflexivity.
  - intros Hp. rewrite E.
    destruct cands as [|h l] eqn:Ec.
    + simpl. split; [discriminate|].
      intros H. apply elem_of_nil in H. contradiction.
    + rewrite bool_decide_eq_false_2 by discriminate. cbn [fst].
      split; [|reflexivity]. intros _.
      simpl. apply elem_of_cons. left. symmetry.
      apply executeSingleCardMove_valid.
      apply (candidate_is_valid allStacks w h Hp).
      apply findAutoCompletableCards_spec. fold cands. rewrite Ec.
      apply elem_of_cons. left. reflexivity.
Qed.

Lemma C7_autocomplete_one_sweep_witness :
  (GameLogic.executeAutoComplete GameController.getAllStacks ex_two_sweeps).1
  = true
  ∧ GameLogic.executeAutoComplete GameController.getAllStacks ex_run
    = (false, ex_run).
Proof.
  split.
  - apply (proj1 C7_autocomplete_one_sweep GameController.getAllStacks
             ex_two_sweeps).
    + reflexivity.
    + vm_compute. apply elem_of_cons. left. reflexivity.
  - apply (proj1 C7_autocomplete_one_sweep GameController.getAllStacks
             ex_run).
    reflexivity.
Defined.

(** The claim as stated fails: on a paused game with an ace on the waste
    [executeAutoComplete] returns true, yet each of the four attempted
    moves is refused and no stack changes. *)
Lemma C7_counterexample :
  let w := ex_paused_ace in
  let r := GameLogic.executeAutoComplete GameController.getAllStacks w in
  r.1 = true
  ∧ sweepResults
      (GameLogic.findAutoCompletableCards GameController.getAllStacks w) w
    = [false; false; false; false]
  ∧ ∀ s, cards r.2 s = cards w s.
Proof.
  split; [reflexivity|]. split; [reflexivity|].
  intros s. reflexivity.
Qed.

(** ** C1: card conservation *)

Lemma indexOf_None (c : Card) (l : list Card) :
  indexOf c l = None ↔ c ∉ l.
Proof.
  induction l as [|x l IH]; simpl.
  - split; [intros _; apply not_elem_of_nil | reflexivity].
  - rewrite not_elem_of_cons.
    destruct (decide (x = c)) as [->|Hne].
    + split; [discriminate | intros [H _]; congruence].
    + destruct (indexOf c l); split; try discriminate; try reflexivity.
      * intros [_ H]. apply IH in H. discriminate.
      * intros _. split; [congruence | apply IH; reflexivity].
Qed.

Lemma indexOf_Some (c : Card) (l : list Card) (i : nat) :
  indexOf c l = Some i → c :: splice1 i l ≡ₚ l.
Proof.
  revert i. induction l as [|x l IH]; intros i; simpl; [discriminate|].
  destruct (decide (x = c)) as [->|Hne].
  - intros [= <-]. unfold splice1. simpl. rewrite drop_0. reflexivity.
  - destruct (indexOf c l) as [j|]; [|discriminate].
    intros [= <-]. unfold splice1 in *. simpl.
    rewrite Permutation_swap. f_equiv. apply IH. reflexivity.
Qed.

(** [removeCard] followed by [addCard], the core of a single-card move,
    on a card that is in the source stack: the two stacks together hold
    the same cards as before, and no other stack changes. *)
Lemma remove_add_conserves (fromStack toStack : CardStack) (c : Card)
    (w : World) :
  fromStack ≠ toStack → c ∈ cards w fromStack →
  let w' := ((CardStack.removeCard fromStack c ;;
              CardStack.addCard toStack c) w).2 in
  cards w' fromStack ++ cards w' toStack
    ≡ₚ cards w fromStack ++ cards w toStack
  ∧ ∀ s, s ≠ fromStack → s ≠ toStack → cards w' s = cards w s.
Proof.
  intros Hne Hin. cbv zeta.
  unfold CardStack.removeCard, CardStack.addCard. unfold_state. simpl.
  destruct (indexOf c (cards w fromStack)) as [i|] eqn:E.
  - simpl. apply indexOf_Some in E.
    rewrite (fn_lookup_insert_ne _ fromStack toStack) by exact Hne.
    rewrite fn_lookup_insert.
    rewrite fn_lookup_insert_ne by congruence. rewrite fn_lookup_insert.
    split.
    + rewrite <- E at 2. rewrite (Permutation_app_comm (cards w toStack) [c]).
      simpl. rewrite Permutation_middle. reflexivity.
    + intros s Hs Hd. rewrite !fn_lookup_insert_ne by congruence.
      reflexivity.
  - apply indexOf_None in E. contradiction.
Qed.

(** The same two calls on a card that is not in the source stack: nothing
    is removed, and the target stack receives the card all the same. *)
Lemma remove_add_duplicates (fromStack toStack : CardStack) (c : Card)
    (w : World) :
  c ∉ cards w fromStack →
  let w' := ((CardStack.removeCard fromStack c ;;
              CardStack.addCard toStack c) w).2 in
  cards w' toStack = cards w toStack ++ [c]
  ∧ ∀ s, s ≠ toStack → cards w' s = cards w s.
Proof.
  intros Hout. cbv zeta.
  unfold CardStack.removeCard, CardStack.addCard. unfold_state. simpl.
  rewrite (proj2 (indexOf_None c _) Hout). simpl.
  split; [apply fn_lookup_insert|].
  intros s Hs. apply fn_lookup_insert_ne. congruence.
Qed.

(** C1 (the code breaks it).  Deal the deck of the 'reverse' test pattern:
    the game is running and the board holds each of the 52 cards exactly
    once.  One call of [executeAutoComplete] then leaves the A♥ object in
    the [cards] array of all four foundations: the four candidates
    (A♥, column 0, foundation i) were listed before the first move, each
    is still valid when its turn comes, [removeCard] does nothing for a
    card that is no longer in the source stack, and [addCard] pushes it
    again.  The board then lists 55 cards, with repetition. *)
Theorem C1_autocomplete_duplicates_card :
  let w0 := dealt_reverse in
  let w1 := (GameLogic.executeAutoComplete GameController.getAllStacks w0).2 in
  Deck.reversePattern = reverse Deck.sortedPattern
  ∧ GameState.isPlaying (gameState w0) = true
  ∧ NoDup (allCards w0)
  ∧ length (allCards w0) = 52%nat
  ∧ Forall (λ c, c ∈ allCards w0) (Deck.makeCards 0 Deck.reversePattern)
  ∧ cards w0 ex_T0 = [dealt_ace]
  ∧ Forall (λ f, cards w1 f = [dealt_ace]) GameController.foundationStacks
  ∧ length (allCards w1) = 55%nat
  ∧ ¬ NoDup (allCards w1).
Proof.
  cbv zeta.
  split; [reflexivity|]. split; [reflexivity|].
  split; [apply (bool_decide_unpack _); vm_compute; exact I|].
  split; [vm_compute; reflexivity|].
  split; [apply (bool_decide_unpack _); vm_compute; exact I|].
  split; [vm_compute; reflexivity|].
  split; [apply (bool_decide_unpack _); vm_compute; exact I|].
  split; [vm_compute; reflexivity|].
  intros H. apply (bool_decide_pack _) in H. vm_compute in H. exact H.
Qed.

(** ** C8: which moves are refused, and what a refusal leaves behind *)

Lemma sequentialLoop_valid_run (w : World) (rest : list Card) : ∀ prev,
  GameLogic.sequentialLoop w prev rest = true ↔ valid_run w (prev :: rest).
Proof.
  induction rest as [|curr rest IH]; intros prev.
  - simpl. split; auto.
  - change (valid_run w (prev :: curr :: rest))
      with (run_pair w prev curr ∧ valid_run w (curr :: rest)).
    rewrite run_pair_guards, <- IH. simpl.
    destruct (negb (faceUp w prev) || negb (faceUp w curr));
      [split; [discriminate | intros [[H _] _]; discriminate]|].
    destruct (bool_decide (isRed prev = isRed curr));
      [split; [discriminate | intros [(_ & H & _) _]; discriminate]|].
    destruct (bool_decide (getValue prev ≠ getValue curr + 1));
      [split; [discriminate | intros [(_ & _ & H) _]; discriminate]|].
    split; [auto | intros [_ H]; exact H].
Qed.

Lemma areCardsSequential_valid_run (l : list Card) (w : World) :
  GameLogic.areCardsSequential l w = true ↔ valid_run w l.
Proof.
  unfold GameLogic.areCardsSequential.
  destruct l as [|c0 [|c1 rest]].
  - simpl. split; auto.
  - simpl. split; auto.
  - rewrite bool_decide_eq_false_2 by (simpl; lia).
    apply sequentialLoop_valid_run.
Qed.

(** [validateMove] decides [move_rules]; the source stack plays no part. *)
Lemma validateMove_iff (card : Card) (fromStack toStack : CardStack)
    (w : World) :
  GameLogic.validateMove card fromStack toStack w = true
  ↔ move_rules card toStack w.
Proof.
  unfold GameLogic.validateMove, move_rules, acceptance_table.
  destruct (GameState.isPlaying (gameState w));
    [|split; [discriminate | intros (H & _); discriminate]].
  destruct (faceUp w card);
    [|split; [discriminate | intros (_ & H & _); discriminate]].
  cbn [negb].
  destruct (type toStack).
  - split; [discriminate | intros (_ & _ & H); contradiction].
  - split; [discriminate | intros (_ & _ & H); contradiction].
  - rewrite canMoveToFoundation_eq, canPlaceOnFoundation_spec. tauto.
  - rewrite canMoveToTableau_eq, canPlaceOnTableau_spec. tauto.
Qed.

Lemma validateMultiCardMove_iff (l : list Card)
    (fromStack toStack : CardStack) (w : World) :
  GameLogic.validateMultiCardMove l fromStack toStack w = true
  ↔ run_rules l fromStack toStack w.
Proof.
  unfold GameLogic.validateMultiCardMove, run_rules.
  destruct l as [|c0 rest].
  - split; [discriminate | intros (_ & _ & c & r & E & _); discriminate].
  - destruct (bool_decide (type fromStack ≠ tableau)) eqn:Et.
    + apply bool_decide_eq_true in Et.
      split; [discriminate | intros (H & _); contradiction].
    + apply bool_decide_eq_false in Et.
      assert (Hty : type fromStack = tableau)
        by (destruct (type fromStack); try reflexivity;
            exfalso; apply Et; discriminate).
      destruct (GameLogic.areCardsSequential (c0 :: rest) w) eqn:Es;
        cbn [negb].
      * apply areCardsSequential_valid_run in Es.
        rewrite (validateMove_iff c0 fromStack toStack w). split.
        -- intros H. split; [exact Hty|]. split; [exact Es|].
           exists c0, rest. auto.
        -- intros (_ & _ & c & r & [= <- <-] & H). exact H.
      * split; [discriminate|]. intros (_ & Hr & _).
        apply areCardsSequential_valid_run in Hr. congruence.
Qed.

Lemma executeSingleCardMove_refused (card : Card)
    (fromStack toStack : CardStack) (w : World) :
  GameLogic.validateMove card fromStack toStack w = false →
  GameLogic.executeSingleCardMove card fromStack toStack w = (false, w).
Proof.
  intros Hv. unfold GameLogic.executeSingleCardMove. rewrite bind_run.
  unfold gets. cbn [fst snd]. rewrite Hv. reflexivity.
Qed.

Lemma executeMultiCardMove_refused (l : list Card)
    (fromStack toStack : CardStack) (w : World) :
  GameLogic.validateMultiCardMove l fromStack toStack w = false →
  GameLogic.executeMultiCardMove l fromStack toStack w = (false, w).
Proof.
  intros Hv. unfold GameLogic.executeMultiCardMove. rewrite bind_run.
  unfold gets. cbn [fst snd]. rewrite Hv. reflexivity.
Qed.

Lemma executeMultiCardMove_valid (l : list Card)
    (fromStack toStack : CardStack) (w : World) :
  GameLogic.validateMultiCardMove l fromStack toStack w = true →
  (GameLogic.executeMultiCardMove l fromStack toStack w).1 = true.
Proof.
  intros Hv. unfold GameLogic.executeMultiCardMove. rewrite bind_run.
  unfold gets. cbn [fst snd]. rewrite Hv. cbn [negb].
  rewrite !bind_run. reflexivity.
Qed.

(** C8 (amended).  A single-card move returns false exactly when it
    breaks a rule of the Move Validator: the game is not being played, the
    card lies face down, or the target does not accept the card by the
    table (the waste and the stock accept nothing).  A multi-card move
    returns false exactly when its source is not a tableau column, its
    list is empty or not a valid run, or its first card breaks one of
    those rules.  A move that returns false hands back the store it was
    given: every stack's cards, every card's face, the move count and the
    history are untouched.  A move within the rules of the game (the card
    is the top of its source and satisfies the rules above) returns true.
    A draw with stock and waste both empty returns the empty list and
    changes nothing.  (The operations are total functions: there is no
    exceptional outcome.) *)
Theorem C8_failure_is_noop (card : Card) (l : list Card)
    (fromStack toStack stockStack wasteStack : CardStack) (w : World) :
  ((GameLogic.executeSingleCardMove card fromStack toStack w).1 = false
   ↔ ¬ move_rules card toStack w)
  ∧ (¬ move_rules card toStack w →
     GameLogic.executeSingleCardMove card fromStack toStack w = (false, w))
  ∧ ((GameLogic.executeMultiCardMove l fromStack toStack w).1 = false
     ↔ ¬ run_rules l fromStack toStack w)
  ∧ (¬ run_rules l fromStack toStack w →
     GameLogic.executeMultiCardMove l fromStack toStack w = (false, w))
  ∧ (GameState.isPlaying (gameState w) = false ∨ faceUp w card = false
     ∨ type toStack = waste ∨ type toStack = stock
     ∨ ¬ acceptance_table toStack card w →
     ¬ move_rules card toStack w
     ∧ ¬ run_rules (card :: l) fromStack toStack w)
  ∧ (legal_move card fromStack toStack w →
     (GameLogic.executeSingleCardMove card fromStack toStack w).1 = true)
  ∧ (cards w stockStack = [] → cards w wasteStack = [] →
     GameLogic.drawFromStock stockStack wasteStack w = ([], w)).
Proof.
  assert (Hsingle : ¬ move_rules card toStack w →
            GameLogic.executeSingleCardMove card fromStack toStack w
            = (false, w)).
  { intros Hn. apply executeSingleCardMove_refused.
    destruct (GameLogic.validateMove card fromStack toStack w) eqn:Hv;
      [|reflexivity].
    apply validateMove_iff in Hv. contradiction. }
  assert (Hmulti : ¬ run_rules l fromStack toStack w →
            GameLogic.executeMultiCardMove l fromStack toStack w
            = (false, w)).
  { intros Hn. apply executeMultiCardMove_refused.
    destruct (GameLogic.validateMultiCardMove l fromStack toStack w) eqn:Hv;
      [|reflexivity].
    apply validateMultiCardMove_iff in Hv. contradiction. }
  split; [|split; [exact Hsingle|split; [|split; [exact Hmulti|]]]].
  - split.
    + intros Hr Hm. apply (validateMove_iff card fromStack) in Hm.
      rewrite (executeSingleCardMove_valid _ _ _ _ Hm) in Hr. discriminate.
    + intros Hn. rewrite (Hsingle Hn). reflexivity.
  - split.
    + intros Hr Hm. apply validateMultiCardMove_iff in Hm.
      rewrite (executeMultiCardMove_valid _ _ _ _ Hm) in Hr. discriminate.
    + intros Hn. rewrite (Hmulti Hn). reflexivity.
  - split; [|split; [|apply draw_both_empty]].
    2:{ intros [Hm _]. apply (validateMove_iff card fromStack) in Hm.
        rewrite (executeSingleCardMove_valid _ _ _ _ Hm). reflexivity. }
    intros H.
    assert (Hn : ¬ move_rules card toStack w).
    { intros (Hp & Hup & Hacc).
      destruct H as [H|[H|[H|[H|H]]]].
      - congruence.
      - congruence.
      - unfold acceptance_table in Hacc. rewrite H in Hacc. exact Hacc.
      - unfold acceptance_table in Hacc. rewrite H in Hacc. exact Hacc.
      - apply H. exact Hacc. }
    split; [exact Hn|].
    intros (_ & _ & c0 & rest & [= <- <-] & Hm). contradiction.
Qed.

Lemma C8_failure_is_noop_witness :
  GameLogic.executeSingleCardMove jack_spades GameController.wasteStack ex_T1
    ex_board = (false, ex_board)
  ∧ GameLogic.executeMultiCardMove [king_spades; queen_hearts] ex_T0 ex_T1
      ex_board = (false, ex_board)
  ∧ GameLogic.executeSingleCardMove queen_hearts GameController.wasteStack
      ex_T0 ex_waste_only = (false, ex_waste_only)
  ∧ (GameLogic.executeSingleCardMove jack_spades GameController.wasteStack
       ex_T0 ex_board).1 = true
  ∧ GameLogic.drawFromStock GameController.stockStack
      GameController.wasteStack ex_run = ([], ex_run).
Proof.
  assert (Hacc : ¬ acceptance_table ex_T1 jack_spades ex_board).
  { intros [[H _]|(top & Hl & _ & _ & Hv)].
    - vm_compute in H. discriminate.
    - vm_compute in Hl. injection Hl as <-. vm_compute in Hv. discriminate. }
  assert (Hking : ¬ acceptance_table ex_T1 king_spades ex_board).
  { intros [[H _]|(top & Hl & _ & _ & Hv)].
    - vm_compute in H. discriminate.
    - vm_compute in Hl. injection Hl as <-. vm_compute in Hv. discriminate. }
  destruct (C8_failure_is_noop jack_spades [] GameController.wasteStack
              ex_T1 GameController.stockStack GameController.wasteStack
              ex_board) as (_ & S1 & _ & _ & R1 & _).
  destruct (C8_failure_is_noop king_spades [queen_hearts] ex_T0 ex_T1
              GameController.stockStack GameController.wasteStack ex_board)
    as (_ & _ & _ & _ & R2 & _).
  destruct (C8_failure_is_noop king_spades [king_spades; queen_hearts]
              ex_T0 ex_T1 GameController.stockStack GameController.wasteStack
              ex_board) as (_ & _ & _ & M2 & _).
  destruct (C8_failure_is_noop queen_hearts [] GameController.wasteStack
              ex_T0 GameController.stockStack GameController.wasteStack
              ex_waste_only) as (_ & S3 & _ & _ & R3 & _).
  destruct (C8_failure_is_noop jack_spades [] GameController.wasteStack
              ex_T0 GameController.stockStack GameController.wasteStack
              ex_board) as (_ & _ & _ & _ & _ & L4 & _).
  destruct (C8_failure_is_noop king_spades [] ex_T0 ex_T0
              GameController.stockStack GameController.wasteStack ex_run)
    as (_ & _ & _ & _ & _ & _ & D5).
  split; [|split; [|split; [|split]]].
  - apply S1. apply R1. do 4 right. exact Hacc.
  - apply M2. apply R2. do 4 right. exact Hking.
  - apply S3. apply R3. right. left. reflexivity.
  - apply L4. split.
    + split; [reflexivity|]. split; [reflexivity|].
      right. exists queen_hearts. repeat split; try reflexivity.
      vm_compute. discriminate.
    + reflexivity.
  - apply D5; reflexivity.
Defined.

(** The claim as stated fails: not every move outside the rules of the
    game is refused.  The source stack is never consulted, so the K♠ that
    lies under the Q♥ is moved alone to the empty column: the move returns
    true, takes the king out from under the queen and is counted.  And a
    run is accepted on a foundation when its first card fits: 2♥ A♠ goes
    onto A♥, which leaves the A♠ on top of the hearts. *)
Lemma C8_counterexample :
  let w := ex_buried in
  let r := GameLogic.executeSingleCardMove king_spades ex_T0 ex_T1 w in
  let w' := ex_run_on_foundation in
  let r' := GameLogic.executeMultiCardMove [two_hearts; ace_spades]
              ex_T0 ex_F0 w' in
  ¬ legal_move king_spades ex_T0 ex_T1 w
  ∧ r.1 = true
  ∧ cards r.2 ex_T0 = [queen_hearts]
  ∧ cards r.2 ex_T1 = [king_spades]
  ∧ GameState.moves (gameState r.2) = GameState.moves (gameState w) + 1
  ∧ r'.1 = true
  ∧ cards r'.2 ex_T0 = []
  ∧ cards r'.2 ex_F0 = [ace_hearts; two_hearts; ace_spades]
  ∧ ¬ acceptance_table ex_F0 ace_spades
        (GameLogic.executeSingleCardMove two_hearts ex_T0 ex_F0 w').2.
Proof.
  cbv zeta.
  split.
  { intros (_ & Htop). vm_compute in Htop. discriminate. }
  do 7 (split; [vm_compute; reflexivity|]).
  intros [[H _]|(top & Hl & Hs & _)].
  - vm_compute in H. discriminate.
  - vm_compute in Hl. injection Hl as <-. vm_compute in Hs. discriminate.
Qed.

(** * Further properties of the modelled code *)

(** ** GameState: the move history *)

Lemma recordMove_moves (md : MoveData.t) (g : GameState.t) :
  GameState.isGameStarted g = true →
  GameState.moves (GameState.recordMove md g) = GameState.moves g + 1.
Proof.
  intros Hs. unfold GameState.recordMove. rewrite Hs. reflexivity.
Qed.

Lemma recordMove_history (md : MoveData.t) (g : GameState.t) :
  GameState.isGameStarted g = true →
  (length (GameState.moveHistory g) < 100)%nat →
  GameState.moveHistory (GameState.recordMove md g)
  = GameState.moveHistory g ++ [GameState.stamp md (GameState.moves g + 1)].
Proof.
  intros Hs Hl. unfold GameState.recordMove, GameState.maxHistorySize.
  rewrite Hs. cbn [negb GameState.moveHistory].
  rewrite bool_decide_eq_false_2; [reflexivity|].
  rewrite length_app. simpl. lia.
Qed.

(** X1.  [recordMove] does nothing before the game is started.  On a
    started game it raises the move count by one and appends the record,
    numbered with the new count, as the newest entry; below the cap of 100
    records nothing else changes in the history, and at the cap the oldest
    record is dropped, so a history within the cap stays within it. *)
Theorem recordMove_bounded_history (md : MoveData.t) (g : GameState.t) :
  let g' := GameState.recordMove md g in
  let r := GameState.stamp md (GameState.moves g + 1) in
  (GameState.isGameStarted g = false → g' = g)
  ∧ (GameState.isGameStarted g = true →
       GameState.moves g' = GameState.moves g + 1
       ∧ last (GameState.moveHistory g') = Some r
       ∧ ((length (GameState.moveHistory g) < 100)%nat →
            GameState.moveHistory g' = GameState.moveHistory g ++ [r])
       ∧ ((100 ≤ length (GameState.moveHistory g))%nat →
            GameState.moveHistory g' = tail (GameState.moveHistory g) ++ [r])
       ∧ ((length (GameState.moveHistory g) ≤ 100)%nat →
            (length (GameState.moveHistory g') ≤ 100)%nat)).
Proof.
  cbv zeta. unfold GameState.recordMove, GameState.maxHistorySize.
  split; [intros ->; reflexivity|]. intros ->. cbn [negb].
  set (r := GameState.stamp md (GameState.moves g + 1)).
  set (h := GameState.moveHistory g).
  assert (Hlen : length (h ++ [r]) = S (length h)).
  { rewrite length_app. simpl. lia. }
  destruct (bool_decide (100 < Z.of_nat (length (h ++ [r])))) eqn:E; cbn.
  - apply bool_decide_eq_true in E. rewrite Hlen in E.
    destruct h as [|x h']; [simpl in E; lia|]. simpl in *.
    split; [reflexivity|]. split; [apply last_snoc|].
    split; [lia|]. split; [reflexivity|].
    rewrite length_app. simpl. lia.
  - apply bool_decide_eq_false in E. rewrite Hlen in E.
    split; [reflexivity|]. split; [apply last_snoc|].
    split; [reflexivity|]. split; [lia|].
    rewrite Hlen. lia.
Qed.

Lemma recordMove_bounded_history_witness :
  GameState.recordMove (MoveData.of_type "card_flip") GameState.new
  = GameState.new
  ∧ GameState.moves
      (GameState.recordMove (MoveData.of_type "card_flip") ex_no_undo)
    = GameState.moves ex_no_undo + 1.
Proof.
  split.
  - apply (recordMove_bounded_history (MoveData.of_type "card_flip")
             GameState.new). reflexivity.
  - apply (recordMove_bounded_history (MoveData.of_type "card_flip")
             ex_no_undo). reflexivity.
Defined.

(** X2.  Recording a move and undoing it is a round trip: on a started
    game with undo allowed, a move count that is not negative and a
    history below the cap, [undoLastMove] after [recordMove] hands back
    the record just written and restores the game state exactly. *)
Theorem record_then_undo (md : MoveData.t) (g : GameState.t) :
  GameState.isGameStarted g = true →
  allowUndo (GameState.settings g) = true →
  0 ≤ GameState.moves g →
  (length (GameState.moveHistory g) < 100)%nat →
  GameState.undoLastMove (GameState.recordMove md g)
  = (Some (GameState.stamp md (GameState.moves g + 1)), g).
Proof.
  intros Hs Ha Hm Hl.
  pose proof (recordMove_moves md g Hs) as Hmoves.
  pose proof (recordMove_history md g Hs Hl) as Hhist.
  set (g' := GameState.recordMove md g) in *.
  assert (Hset : GameState.settings g' = GameState.settings g)
    by apply recordMove_settings.
  assert (Hrest : GameState.isGameStarted g' = GameState.isGameStarted g
                  ∧ GameState.isGameCompleted g' = GameState.isGameCompleted g
                  ∧ GameState.isPaused g' = GameState.isPaused g
                  ∧ GameState.currentTime g' = GameState.currentTime g
                  ∧ GameState.score g' = GameState.score g
                  ∧ GameState.foundationCards g'
                    = GameState.foundationCards g).
  { subst g'. unfold GameState.recordMove. rewrite Hs. cbn.
    repeat split; reflexivity. }
  destruct Hrest as (R1 & R2 & R3 & R4 & R5 & R6).
  assert (Ha' : allowUndo (GameState.settings g') = true) by congruence.
  assert (Hne : GameState.moveHistory g' ≠ []).
  { rewrite Hhist. intros E. apply app_eq_nil in E as [_ E]. discriminate. }
  destruct (undoLastMove_some g' Ha' Hne) as (m & h & Hh & E).
  rewrite E. rewrite Hhist in Hh. apply app_inj_tail in Hh as [<- <-].
  rewrite R1, R2, R3, R4, R5, R6, Hset, Hmoves.
  replace (Z.max 0 (GameState.moves g + 1 - 1)) with (GameState.moves g)
    by lia.
  destruct g. reflexivity.
Qed.

Lemma record_then_undo_witness :
  GameState.undoLastMove
    (GameState.recordMove (MoveData.of_type "card_move") playing)
  = (Some (GameState.stamp (MoveData.of_type "card_move") 1), playing).
Proof.
  apply (record_then_undo (MoveData.of_type "card_move") playing).
  - reflexivity.
  - reflexivity.
  - vm_compute. discriminate.
  - vm_compute. lia.
Defined.

(** ** Utils.calculateScore *)

(** X3.  The score is never negative; it does not fall when more cards
    lie on the foundations and does not rise with more moves or more
    elapsed time; for a non-negative time and move count it is at most ten
    points per foundation card plus the time bonus of 500. *)
Theorem calculateScore_bounds (moves time foundationCards : Z) :
  0 ≤ calculateScore moves time foundationCards
  ∧ (∀ fc', foundationCards ≤ fc' →
        calculateScore moves time foundationCards
        ≤ calculateScore moves time fc')
  ∧ (∀ moves', moves ≤ moves' →
        calculateScore moves' time foundationCards
        ≤ calculateScore moves time foundationCards)
  ∧ (∀ time', time ≤ time' →
        calculateScore moves time' foundationCards
        ≤ calculateScore moves time foundationCards)
  ∧ (0 ≤ moves → 0 ≤ time → 0 ≤ foundationCards →
        calculateScore moves time foundationCards
        ≤ foundationCards * 10 + 500).
Proof.
  unfold calculateScore. cbv zeta.
  split; [lia|]. split; [intros fc' H; lia|].
  split.
  { intros m' H. pose proof (Z.div_le_mono moves m' 2 ltac:(lia) H). lia. }
  split.
  { intros t' H. pose proof (Z.div_le_mono time t' 10 ltac:(lia) H). lia. }
  intros Hm Ht Hf.
  pose proof (Z.div_pos moves 2 Hm ltac:(lia)).
  pose proof (Z.div_pos time 10 Ht ltac:(lia)). lia.
Qed.

Lemma calculateScore_bounds_witness :
  calculateScore 10 100 3 ≤ calculateScore 10 100 5
  ∧ calculateScore 10 100 3 ≤ 3 * 10 + 500.
Proof.
  destruct (calculateScore_bounds 10 100 3) as (_ & Hfc & _ & _ & Hmax).
  split.
  - apply Hfc. lia.
  - apply Hmax; lia.
Defined.

(** ** GameLogic: what a validated single-card move does *)

Lemma bind_run_seq {A B C} (m1 : State A) (m2 : State B)
    (k : B → State C) (w : World) :
  (m1 ;; (m2 ≫= k)) w = k ((m1 ;; m2) w).1 ((m1 ;; m2) w).2.
Proof.
  unfold mbind, State_bind. destruct (m1 w) as [a w1].
  destruct (m2 w1). reflexivity.
Qed.

Lemma remove_add_target (fromStack toStack : CardStack) (c : Card)
    (w : World) :
  fromStack ≠ toStack →
  let w' := ((CardStack.removeCard fromStack c ;;
              CardStack.addCard toStack c) w).2 in
  cards w' toStack = cards w toStack ++ [c]
  ∧ (∀ s, s ≠ fromStack → s ≠ toStack → cards w' s = cards w s)
  ∧ faceUp w' = faceUp w
  ∧ gameState w' = gameState w
  ∧ currentStack w' c = Some toStack.
Proof.
  intros Hne. cbv zeta.
  unfold CardStack.removeCard, CardStack.addCard. unfold_state. simpl.
  destruct (indexOf c (cards w fromStack)) as [i|]; simpl.
  - rewrite (fn_lookup_insert_ne _ fromStack toStack) by exact Hne.
    rewrite !fn_lookup_insert.
    repeat split; try reflexivity.
    intros s Hs Hd. rewrite !fn_lookup_insert_ne by congruence. reflexivity.
  - rewrite !fn_lookup_insert.
    repeat split; try reflexivity.
    intros s Hs Hd. rewrite !fn_lookup_insert_ne by congruence. reflexivity.
Qed.

Lemma remove_top_source (fromStack toStack : CardStack) (c : Card)
    (rest : list Card) (w : World) :
  fromStack ≠ toStack → cards w fromStack = rest ++ [c] → c ∉ rest →
  cards ((CardStack.removeCard fromStack c ;;
          CardStack.addCard toStack c) w).2 fromStack = rest.
Proof.
  intros Hne Hc Hout.
  unfold CardStack.removeCard, CardStack.addCard. unfold_state. simpl.
  rewrite Hc, (indexOf_last rest c Hout), splice1_last. simpl.
  rewrite fn_lookup_insert_ne by congruence. apply fn_lookup_insert.
Qed.

Lemma updateScore_frame (g : GameState.t) :
  GameState.isGameStarted (GameState.updateScore g)
  = GameState.isGameStarted g
  ∧ GameState.moves (GameState.updateScore g) = GameState.moves g
  ∧ GameState.moveHistory (GameState.updateScore g)
    = GameState.moveHistory g
  ∧ GameState.isGameCompleted (GameState.updateScore g)
    = GameState.isGameCompleted g
  ∧ GameState.isPaused (GameState.updateScore g) = GameState.isPaused g
  ∧ GameState.foundationCards (GameState.updateScore g)
    = GameState.foundationCards g
  ∧ GameState.settings (GameState.updateScore g) = GameState.settings g.
Proof.
  unfold GameState.updateScore.
  destruct (GameState.isGameStarted g) eqn:E; cbn; rewrite ?E;
    repeat split; reflexivity.
Qed.

Lemma removeFromFoundation_frame (g : GameState.t) :
  GameState.isGameStarted (GameState.removeFromFoundation g)
  = GameState.isGameStarted g
  ∧ GameState.moves (GameState.removeFromFoundation g) = GameState.moves g
  ∧ GameState.moveHistory (GameState.removeFromFoundation g)
    = GameState.moveHistory g
  ∧ GameState.foundationCards (GameState.removeFromFoundation g)
    = Z.max 0 (GameState.foundationCards g - 1).
Proof.
  unfold GameState.removeFromFoundation.
  match goal with |- context [GameState.updateScore ?x] =>
    destruct (updateScore_frame x) as (H1 & H2 & H3 & _ & _ & H6 & _) end.
  rewrite H1, H2, H3, H6. repeat split; reflexivity.
Qed.

Lemma addToFoundation_continue (g : GameState.t) :
  GameState.foundationCards g + 1 ≠ TOTAL_CARDS →
  (GameState.addToFoundation g).1 = false
  ∧ GameState.isGameStarted (GameState.addToFoundation g).2
    = GameState.isGameStarted g
  ∧ GameState.moves (GameState.addToFoundation g).2 = GameState.moves g
  ∧ GameState.moveHistory (GameState.addToFoundation g).2
    = GameState.moveHistory g
  ∧ GameState.foundationCards (GameState.addToFoundation g).2
    = GameState.foundationCards g + 1
  ∧ GameState.isGameCompleted (GameState.addToFoundation g).2
    = GameState.isGameCompleted g.
Proof.
  intros Hne. unfold GameState.addToFoundation. cbn [GameState.foundationCards].
  rewrite bool_decide_eq_false_2 by exact Hne. cbn [fst snd].
  match goal with |- context [GameState.updateScore ?x] =>
    destruct (updateScore_frame x) as (H1 & H2 & H3 & H4 & _ & H6 & _) end.
  rewrite H1, H2, H3, H4, H6. repeat split; reflexivity.
Qed.

Lemma addToFoundation_complete (g : GameState.t) :
  GameState.foundationCards g + 1 = TOTAL_CARDS →
  GameState.isGameCompleted g = false →
  (GameState.addToFoundation g).1 = true
  ∧ GameState.isGameStarted (GameState.addToFoundation g).2 = false
  ∧ GameState.isGameCompleted (GameState.addToFoundation g).2 = true
  ∧ GameState.moves (GameState.addToFoundation g).2 = GameState.moves g
  ∧ GameState.moveHistory (GameState.addToFoundation g).2
    = GameState.moveHistory g
  ∧ GameState.foundationCards (GameState.addToFoundation g).2 = TOTAL_CARDS.
Proof.
  intros He Hc. unfold GameState.addToFoundation.
  cbn [GameState.foundationCards].
  rewrite bool_decide_eq_true_2 by exact He. cbn [fst snd].
  unfold GameState.completeGame. cbn. rewrite Hc. cbn.
  repeat split; try reflexivity. exact He.
Qed.

Lemma executeSingleCardMove_unfold (card : Card)
    (fromStack toStack : CardStack) (w : World) :
  GameLogic.validateMove card fromStack toStack w = true →
  GameLogic.executeSingleCardMove card fromStack toStack w =
  (true,
   set_gameState (singleMoveState card fromStack toStack (gameState w))
     ((CardStack.removeCard fromStack card ;;
       CardStack.addCard toStack card) w).2).
Proof.
  intros Hv.
  assert (Hg : gameState ((CardStack.removeCard fromStack card ;;
                           CardStack.addCard toStack card) w).2
               = gameState w).
  { unfold CardStack.removeCard, CardStack.addCard. unfold_state. simpl.
    destruct (indexOf card (cards w fromStack)); reflexivity. }
  unfold GameLogic.executeSingleCardMove, singleMoveState,
    GameLogic.recordMove.
  rewrite bind_run. unfold gets. cbn [fst snd]. rewrite Hv. cbn [negb].
  rewrite <- Hg.
  rewrite bind_run_seq.
  set (w2 := ((CardStack.removeCard fromStack card ;;
               CardStack.addCard toStack card) w).2).
  unfold_state. unfold set_gameState.
  destruct (bool_decide (type toStack = foundation)).
  - destruct (GameState.addToFoundation (gameState w2)) as [[|] g1];
      cbn [fst snd]; [reflexivity|].
    destruct (bool_decide (type fromStack = foundation)); reflexivity.
  - destruct (bool_decide (type fromStack = foundation)); reflexivity.
Qed.

Lemma validateMove_true (card : Card) (fromStack toStack : CardStack)
    (w : World) :
  GameLogic.validateMove card fromStack toStack w = true →
  GameState.isPlaying (gameState w) = true
  ∧ faceUp w card = true
  ∧ CardStack.canAcceptCard toStack card w = true.
Proof.
  unfold GameLogic.validateMove, CardStack.canAcceptCard.
  destruct (GameState.isPlaying (gameState w)); [|discriminate].
  destruct (faceUp w card); [|discriminate]. simpl.
  rewrite canMoveToFoundation_eq, canMoveToTableau_eq.
  destruct (type toStack); auto.
Qed.

(** X4.  A validated move of the top card of a stack onto another stack:
    the card leaves the source, becomes the top card of the target and
    takes the target as its owner; no other stack and no face state
    changes.  Onto a non-empty tableau column the old top card and the
    card form a pair of a run.  Unless the move completes the game, it is
    counted: the move count grows by one. *)
Theorem single_move_effect (card : Card) (fromStack toStack : CardStack)
    (rest : list Card) (w : World) :
  GameLogic.validateMove card fromStack toStack w = true →
  fromStack ≠ toStack →
  cards w fromStack = rest ++ [card] →
  card ∉ rest →
  let r := GameLogic.executeSingleCardMove card fromStack toStack w in
  r.1 = true
  ∧ cards r.2 fromStack = rest
  ∧ cards r.2 toStack = cards w toStack ++ [card]
  ∧ (∀ s, s ≠ fromStack → s ≠ toStack → cards r.2 s = cards w s)
  ∧ faceUp r.2 = faceUp w
  ∧ currentStack r.2 card = Some toStack
  ∧ (type toStack = tableau → ∀ top, last (cards w toStack) = Some top →
       run_pair r.2 top card)
  ∧ (¬ (type toStack = foundation
        ∧ GameState.foundationCards (gameState w) + 1 = TOTAL_CARDS) →
       GameState.moves (gameState r.2) = GameState.moves (gameState w) + 1).
Proof.
  intros Hv Hne Hc Hout r. subst r.
  rewrite (executeSingleCardMove_unfold _ _ _ _ Hv). cbn [fst snd].
  destruct (remove_add_target fromStack toStack card w Hne)
    as (T1 & T2 & T3 & T4 & T5).
  pose proof (remove_top_source fromStack toStack card rest w Hne Hc Hout)
    as S1.
  set (w1 := ((CardStack.removeCard fromStack card ;;
               CardStack.addCard toStack card) w).2) in *.
  destruct (validateMove_true _ _ _ _ Hv) as (Hp & Hup & Hacc).
  split; [reflexivity|]. split; [exact S1|]. split; [exact T1|].
  split; [exact T2|]. split; [exact T3|]. split; [exact T5|]. split.
  - intros Hty top Htop. unfold run_pair. cbn [set_gameState faceUp].
    rewrite T3.
    unfold CardStack.canAcceptCard in Hacc. rewrite Hty in Hacc.
    apply canPlaceOnTableau_spec in Hacc
      as [[He _]|(top' & Hl & Hf & Hcol & Hval)].
    + rewrite He in Htop. discriminate.
    + rewrite Htop in Hl. injection Hl as <-.
      repeat split; try assumption; [congruence | lia].
  - intros Hnot. cbn [set_gameState gameState]. unfold singleMoveState.
    assert (Hst : GameState.isGameStarted (gameState w) = true).
    { unfold GameState.isPlaying in Hp.
      apply andb_true_iff in Hp as [Hp _].
      apply andb_true_iff in Hp as [Hp _]. exact Hp. }
    assert (Hrec : ∀ md g, GameState.isGameStarted g = true →
              GameState.moves (GameState.recordMove md g)
              = GameState.moves g + 1).
    { intros md g Hg. apply recordMove_moves. exact Hg. }
    destruct (removeFromFoundation_frame (gameState w)) as (F1 & F2 & _).
    destruct (bool_decide (type toStack = foundation)) eqn:Ef.
    + apply bool_decide_eq_true in Ef.
      destruct (addToFoundation_continue (gameState w)) as (A1 & A2 & A3 & _).
      { intros E. apply Hnot. auto. }
      rewrite A1.
      destruct (removeFromFoundation_frame
                  (GameState.addToFoundation (gameState w)).2)
        as (G1 & G2 & _).
      destruct (bool_decide (type fromStack = foundation)).
      * rewrite Hrec by congruence. congruence.
      * rewrite Hrec by congruence. congruence.
    + destruct (bool_decide (type fromStack = foundation)).
      * rewrite Hrec by congruence. congruence.
      * rewrite Hrec by exact Hst. reflexivity.
Qed.

Lemma single_move_effect_witness :
  cards (GameLogic.executeSingleCardMove jack_spades
           GameController.wasteStack ex_T0 ex_board).2 ex_T0
  = cards ex_board ex_T0 ++ [jack_spades]
  ∧ GameState.moves
      (gameState (GameLogic.executeSingleCardMove jack_spades
                    GameController.wasteStack ex_T0 ex_board).2)
    = GameState.moves (gameState ex_board) + 1.
Proof.
  pose proof (single_move_effect jack_spades GameController.wasteStack ex_T0
                [] ex_board) as H.
  cbv zeta in H.
  destruct H as (_ & _ & H3 & _ & _ & _ & _ & H8).
  - reflexivity.
  - discriminate.
  - reflexivity.
  - apply not_elem_of_nil.
  - split; [exact H3|]. apply H8. intros [E _]. discriminate.
Defined.

(** X5.  The validated move that brings the foundation counter to 52
    completes the game inside the engine: it returns true but is neither
    counted nor written to the history, the game state is completed and no
    longer playing, and every later single-card or multi-card move is
    refused without any change. *)
Theorem winning_move_ends_game (card : Card) (fromStack toStack : CardStack)
    (w : World) :
  GameLogic.validateMove card fromStack toStack w = true →
  type toStack = foundation →
  GameState.foundationCards (gameState w) + 1 = TOTAL_CARDS →
  let r := GameLogic.executeSingleCardMove card fromStack toStack w in
  r.1 = true
  ∧ GameState.isGameCompleted (gameState r.2) = true
  ∧ GameState.isPlaying (gameState r.2) = false
  ∧ GameState.moves (gameState r.2) = GameState.moves (gameState w)
  ∧ GameState.moveHistory (gameState r.2)
    = GameState.moveHistory (gameState w)
  ∧ (∀ c f t, GameLogic.executeSingleCardMove c f t r.2 = (false, r.2))
  ∧ (∀ l f t, GameLogic.executeMultiCardMove l f t r.2 = (false, r.2)).
Proof.
  intros Hv Hty Hfc r. subst r.
  rewrite (executeSingleCardMove_unfold _ _ _ _ Hv). cbn [fst snd].
  destruct (validateMove_true _ _ _ _ Hv) as (Hp & _ & _).
  assert (Hc : GameState.isGameCompleted (gameState w) = false).
  { unfold GameState.isPlaying in Hp.
    apply andb_true_iff in Hp as [_ Hp]. apply negb_true_iff in Hp.
    exact Hp. }
  destruct (addToFoundation_complete (gameState w) Hfc Hc)
    as (A1 & A2 & A3 & A4 & A5 & A6).
  assert (Hs : singleMoveState card fromStack toStack (gameState w)
               = (GameState.addToFoundation (gameState w)).2).
  { unfold singleMoveState. rewrite bool_decide_eq_true_2 by exact Hty.
    rewrite A1. reflexivity. }
  rewrite Hs.
  set (w' := set_gameState (GameState.addToFoundation (gameState w)).2 _).
  assert (Hnp : GameState.isPlaying (gameState w') = false).
  { subst w'. cbn [set_gameState gameState]. unfold GameState.isPlaying.
    rewrite A2. reflexivity. }
  assert (Hno : ∀ c f t, GameLogic.validateMove c f t w' = false).
  { intros c f t. apply validateMove_rejects. left. exact Hnp. }
  split; [reflexivity|]. split; [exact A3|]. split; [exact Hnp|].
  split; [exact A4|]. split; [exact A5|]. split.
  - intros c f t. unfold GameLogic.executeSingleCardMove. unfold_state.
    rewrite Hno. reflexivity.
  - intros l f t. unfold GameLogic.executeMultiCardMove. unfold_state.
    assert (E : GameLogic.validateMultiCardMove l f t w' = false).
    { unfold GameLogic.validateMultiCardMove. destruct l; [reflexivity|].
      rewrite Hno.
      destruct (bool_decide (type f ≠ tableau)); [reflexivity|].
      destruct (negb _); reflexivity. }
    rewrite E. reflexivity.
Qed.

Lemma winning_move_ends_game_witness :
  GameState.isGameCompleted
    (gameState (GameLogic.executeSingleCardMove two_hearts
                  GameController.wasteStack ex_F0 ex_last_card).2) = true.
Proof.
  apply (winning_move_ends_game two_hearts GameController.wasteStack ex_F0
           ex_last_card); reflexivity.
Defined.

(** ** GameLogic: foundations stay in order *)

Lemma foundation_ordered_snoc (l : list Card) (c : Card) :
  foundation_ordered l →
  (l = [] ∧ getValue c = 1)
  ∨ (∃ top, last l = Some top
            ∧ suit c = suit top ∧ getValue c = getValue top + 1) →
  foundation_ordered (l ++ [c]).
Proof.
  intros Hord [[-> Hv]|(top & Htop & Hs & Hv)].
  - intros [|i] c' Hc'; simpl in Hc'; [|destruct i; discriminate].
    injection Hc' as <-. split; [simpl; lia|].
    intros c0 [= <-]. reflexivity.
  - assert (Hne : l ≠ []) by (intros ->; discriminate).
    assert (Hlast : l !! (length l - 1)%nat = Some top).
    { rewrite last_lookup in Htop.
      replace (length l - 1)%nat with (Init.Nat.pred (length l)) by lia.
      exact Htop. }
    destruct (Hord _ _ Hlast) as [Htv Hts].
    assert (Hlen : (0 < length l)%nat)
      by (destruct l; [congruence | simpl; lia]).
    assert (Hhead : head (l ++ [c]) = head l)
      by (destruct l; [congruence | reflexivity]).
    intros i c' Hc'. rewrite Hhead.
    destruct (decide (i < length l)%nat) as [Hi|Hi].
    + rewrite lookup_app_l in Hc' by exact Hi. apply Hord. exact Hc'.
    + rewrite lookup_app_r in Hc' by lia.
      destruct (i - length l)%nat as [|k] eqn:Ek; simpl in Hc';
        [|destruct k; discriminate].
      injection Hc' as <-. split; [lia|].
      intros c0 Hc0. rewrite Hs. apply Hts. exact Hc0.
Qed.

Lemma remove_add_others (fromStack toStack : CardStack) (c : Card)
    (w : World) (s : CardStack) :
  s ≠ fromStack → s ≠ toStack →
  cards ((CardStack.removeCard fromStack c ;;
          CardStack.addCard toStack c) w).2 s = cards w s.
Proof.
  intros Hs Hd.
  unfold CardStack.removeCard, CardStack.addCard. unfold_state. simpl.
  destruct (indexOf c (cards w fromStack)); simpl;
    rewrite !fn_lookup_insert_ne by congruence; reflexivity.
Qed.

Lemma single_move_keeps_foundations (card : Card)
    (fromStack toStack : CardStack) (w : World) :
  type fromStack ≠ foundation →
  (∀ s, type s = foundation → foundation_ordered (cards w s)) →
  ∀ s, type s = foundation →
    foundation_ordered
      (cards (GameLogic.executeSingleCardMove card fromStack toStack w).2 s).
Proof.
  intros Hfrom Hord s Hs.
  destruct (GameLogic.validateMove card fromStack toStack w) eqn:Hv.
  - rewrite (executeSingleCardMove_unfold _ _ _ _ Hv).
    cbn [fst snd set_gameState cards].
    assert (Hsf : s ≠ fromStack) by congruence.
    destruct (decide (s = toStack)) as [->|Hst].
    + destruct (remove_add_target fromStack toStack card w
                  ltac:(congruence)) as (T1 & _).
      rewrite T1. apply foundation_ordered_snoc; [apply Hord; exact Hs|].
      destruct (validateMove_true _ _ _ _ Hv) as (_ & _ & Hacc).
      unfold CardStack.canAcceptCard in Hacc. rewrite Hs in Hacc.
      apply canPlaceOnFoundation_spec. exact Hacc.
    + rewrite remove_add_others by assumption. apply Hord. exact Hs.
  - assert (E : GameLogic.executeSingleCardMove card fromStack toStack w
                = (false, w)).
    { unfold GameLogic.executeSingleCardMove. unfold_state. rewrite Hv.
      reflexivity. }
    rewrite E. apply Hord. exact Hs.
Qed.

(** X6.  Auto-complete keeps every foundation in order: if each
    foundation holds the ranks 1, 2, 3, ... of one suit from the bottom
    up before [executeAutoComplete], it does so afterwards, whatever the
    candidates and however many of their moves go through. *)
Theorem autocomplete_keeps_foundations_ordered (allStacks : list CardStack)
    (w : World) :
  (∀ s, type s = foundation → foundation_ordered (cards w s)) →
  ∀ s, type s = foundation →
    foundation_ordered
      (cards (GameLogic.executeAutoComplete allStacks w).2 s).
Proof.
  intros Hord.
  rewrite executeAutoComplete_unfold. cbv zeta.
  destruct (bool_decide (GameLogic.findAutoCompletableCards allStacks w = []));
    [exact Hord|].
  cbn [snd].
  assert (Hsrc : ∀ h, h ∈ GameLogic.findAutoCompletableCards allStacks w →
                      type (h_fromStack h) ≠ foundation).
  { intros h Hh. apply findAutoCompletableCards_spec in Hh. apply Hh. }
  revert Hsrc Hord.
  generalize (GameLogic.findAutoCompletableCards allStacks w) as l.
  intros l. revert w.
  induction l as [|h l IH]; intros w Hsrc Hord; [exact Hord|].
  simpl forEach. rewrite bind_run. apply IH.
  - intros h' Hh'. apply Hsrc. apply elem_of_cons. right. exact Hh'.
  - unfold GameLogic.moveCandidate.
    apply single_move_keeps_foundations; [|exact Hord].
    apply Hsrc. apply elem_of_cons. left. reflexivity.
Qed.

Lemma autocomplete_keeps_foundations_ordered_witness :
  foundation_ordered
    (cards (GameLogic.executeAutoComplete GameController.getAllStacks
              ex_two_sweeps).2 ex_F0).
Proof.
  apply (autocomplete_keeps_foundations_ordered GameController.getAllStacks
           ex_two_sweeps); [|reflexivity].
  intros s Hs. unfold ex_two_sweeps, example_world. cbn [cards].
  simpl List.find.
  destruct (bool_decide (ex_F0 = s)) eqn:E0.
  - simpl. intros [|[|i]] c H; simpl in H; try discriminate.
    injection H as <-. split; [reflexivity|]. intros c0 [= <-]. reflexivity.
  - destruct (bool_decide (GameController.wasteStack = s)) eqn:E1.
    + apply bool_decide_eq_true in E1. subst s. discriminate Hs.
    + destruct (bool_decide (ex_T0 = s)) eqn:E2.
      * apply bool_decide_eq_true in E2. subst s. discriminate Hs.
      * simpl. intros i c H. rewrite lookup_nil in H. discriminate.
Defined.

(** ** CardStack: adding, removing and moving cards *)

Lemma removeCard_absent (s : CardStack) (c : Card) (w : World) :
  c ∉ cards w s → CardStack.removeCard s c w = ((), w).
Proof.
  intros H. unfold CardStack.removeCard, modify.
  rewrite (proj2 (indexOf_None c _) H). reflexivity.
Qed.

(** X7.  [addCard] makes the card the top card of the stack and the
    stack its owner.  [removeCard] leaves the store untouched when the
    card is not in the stack, and after [addCard] of a card the stack did
    not hold it undoes the push: every stack has its former cards and the
    card has no owner. *)
Theorem addCard_removeCard (s : CardStack) (c : Card) (w : World) :
  let w1 := (CardStack.addCard s c w).2 in
  let w2 := (CardStack.removeCard s c w1).2 in
  CardStack.getTopCard s w1 = Some c
  ∧ CardStack.getCardCount s w1 = CardStack.getCardCount s w + 1
  ∧ currentStack w1 c = Some s
  ∧ (c ∉ cards w s →
       CardStack.removeCard s c w = ((), w)
       ∧ (∀ s', cards w2 s' = cards w s')
       ∧ currentStack w2 c = None
       ∧ faceUp w2 = faceUp w
       ∧ gameState w2 = gameState w).
Proof.
  cbv zeta. unfold CardStack.getTopCard, CardStack.getCardCount.
  unfold CardStack.addCard at 1 2 3. unfold modify. cbn [snd].
  cbn [set_currentStack set_cards cards currentStack].
  rewrite !fn_lookup_insert.
  split; [apply last_snoc|].
  split; [rewrite length_app; simpl; lia|].
  split; [reflexivity|].
  intros Hout. split; [apply removeCard_absent; exact Hout|].
  unfold CardStack.removeCard, CardStack.addCard, modify. cbn [snd].
  cbn [set_currentStack set_cards cards currentStack].
  rewrite fn_lookup_insert, (indexOf_last _ c Hout), splice1_last.
  cbn [set_currentStack set_cards cards currentStack faceUp gameState].
  rewrite fn_lookup_insert.
  split; [|auto].
  intros s'. destruct (decide (s = s')) as [->|Hne].
  - rewrite fn_lookup_insert. reflexivity.
  - rewrite !fn_lookup_insert_ne by exact Hne. reflexivity.
Qed.

Lemma addCard_removeCard_witness :
  cards (CardStack.removeCard ex_T0 jack_spades
           (CardStack.addCard ex_T0 jack_spades ex_run).2).2 ex_T0
  = cards ex_run ex_T0
  ∧ currentStack (CardStack.removeCard ex_T0 jack_spades
                    (CardStack.addCard ex_T0 jack_spades ex_run).2).2
      jack_spades
    = None.
Proof.
  assert (Hout : jack_spades ∉ cards ex_run ex_T0).
  { apply (bool_decide_unpack _). vm_compute. exact I. }
  pose proof (addCard_removeCard ex_T0 jack_spades ex_run) as H.
  cbv zeta in H. destruct H as (_ & _ & _ & H).
  destruct (H Hout) as (_ & Hc & Ho & _).
  split; [apply Hc | exact Ho].
Defined.

(** X8.  The multi-card check agrees with run extraction:
    [areCardsSequential] holds exactly for the lists in which every
    successive pair is face up, alternates colour and descends by one, so
    every list [getCardsFromIndex] returns for a tableau column passes it,
    and [validateMultiCardMove] of such a list out of that column is
    decided by [validateMove] of its first card alone. *)
Theorem extracted_run_is_sequential (s : CardStack) (i : Z) (w : World) :
  (∀ l, GameLogic.areCardsSequential l w = true ↔ valid_run w l)
  ∧ (type s = tableau →
     GameLogic.areCardsSequential (CardStack.getCardsFromIndex s i w) w = true
     ∧ ∀ c0 rest t, CardStack.getCardsFromIndex s i w = c0 :: rest →
         GameLogic.validateMultiCardMove (c0 :: rest) s t w
         = GameLogic.validateMove c0 s t w).
Proof.
  split; [intros l; apply areCardsSequential_valid_run|].
  intros Hty.
  assert (Hseq : GameLogic.areCardsSequential
                   (CardStack.getCardsFromIndex s i w) w = true).
  { apply areCardsSequential_valid_run.
    unfold CardStack.getCardsFromIndex.
    destruct (_ || _); [exact I|].
    rewrite bool_decide_eq_true_2 by exact Hty.
    apply getValidSequence_spec. }
  split; [exact Hseq|].
  intros c0 rest t E. rewrite E in Hseq.
  unfold GameLogic.validateMultiCardMove.
  rewrite bool_decide_eq_false_2 by (intros H; apply H; exact Hty).
  rewrite Hseq. reflexivity.
Qed.

Lemma extracted_run_is_sequential_witness :
  GameLogic.areCardsSequential (CardStack.getCardsFromIndex ex_T0 0 ex_run)
    ex_run = true.
Proof.
  apply (extracted_run_is_sequential ex_T0 0 ex_run). reflexivity.
Defined.

Lemma indexOf_middle (rest l : list Card) (c : Card) :
  c ∉ rest → indexOf c (rest ++ c :: l) = Some (length rest).
Proof.
  induction rest as [|x rest IH]; intros Hc; simpl.
  - destruct (decide (c = c)); [reflexivity | contradiction].
  - apply not_elem_of_cons in Hc as [Hne Hc].
    destruct (decide (x = c)); [congruence|].
    rewrite (IH Hc). reflexivity.
Qed.

Lemma splice1_middle (rest l : list Card) (c : Card) :
  splice1 (length rest) (rest ++ c :: l) = rest ++ l.
Proof.
  unfold splice1. rewrite take_app_length.
  rewrite drop_app_ge by lia.
  replace (S (length rest) - length rest)%nat with 1%nat by lia.
  reflexivity.
Qed.

Lemma forEach_removeCard (s : CardStack) (rest : list Card) :
  ∀ (l : list Card) (w : World),
    cards w s = rest ++ l → NoDup (rest ++ l) →
    let w' := (forEach l (λ card, CardStack.removeCard s card) w).2 in
    cards w' s = rest
    ∧ (∀ s', s' ≠ s → cards w' s' = cards w s')
    ∧ faceUp w' = faceUp w
    ∧ gameState w' = gameState w.
Proof.
  induction l as [|c l IH]; intros w Hc Hnd; cbv zeta.
  - simpl. rewrite app_nil_r in Hc. auto.
  - simpl forEach. rewrite bind_run.
    assert (Hout : c ∉ rest).
    { apply NoDup_app in Hnd as (_ & Hd & _). intros Hin.
      apply (Hd c Hin). apply elem_of_cons. left. reflexivity. }
    assert (Hnd' : NoDup (rest ++ l)).
    { apply NoDup_app in Hnd as (H1 & H2 & H3).
      apply NoDup_cons in H3 as [_ H3]. apply NoDup_app.
      split; [exact H1|]. split; [|exact H3].
      intros x Hx Hx'. apply (H2 x Hx). apply elem_of_cons. right. exact Hx'. }
    set (w1 := (CardStack.removeCard s c w).2).
    assert (H1 : cards w1 s = rest ++ l
                 ∧ (∀ s', s' ≠ s → cards w1 s' = cards w s')
                 ∧ faceUp w1 = faceUp w ∧ gameState w1 = gameState w).
    { subst w1. unfold CardStack.removeCard, modify. cbn [snd].
      rewrite Hc, (indexOf_middle rest l c Hout), splice1_middle.
      cbn [set_currentStack set_cards cards faceUp gameState].
      rewrite fn_lookup_insert. repeat split; try reflexivity.
      intros s' Hs'. apply fn_lookup_insert_ne. congruence. }
    destruct H1 as (A1 & A2 & A3 & A4).
    destruct (IH w1 A1 Hnd') as (B1 & B2 & B3 & B4).
    split; [exact B1|]. split; [|split; congruence].
    intros s' Hs'. rewrite B2, A2 by exact Hs'. reflexivity.
Qed.

Lemma forEach_addCard (t : CardStack) :
  ∀ (l : list Card) (w : World),
    let w' := (forEach l (λ card, CardStack.addCard t card) w).2 in
    cards w' t = cards w t ++ l
    ∧ (∀ s', s' ≠ t → cards w' s' = cards w s')
    ∧ faceUp w' = faceUp w
    ∧ gameState w' = gameState w.
Proof.
  induction l as [|c l IH]; intros w; cbv zeta.
  - simpl. rewrite app_nil_r. auto.
  - simpl forEach. rewrite bind_run.
    set (w1 := (CardStack.addCard t c w).2).
    assert (H1 : cards w1 t = cards w t ++ [c]
                 ∧ (∀ s', s' ≠ t → cards w1 s' = cards w s')
                 ∧ faceUp w1 = faceUp w ∧ gameState w1 = gameState w).
    { subst w1. unfold CardStack.addCard, modify. cbn [snd].
      cbn [set_currentStack set_cards cards faceUp gameState].
      rewrite fn_lookup_insert. repeat split; try reflexivity.
      intros s' Hs'. apply fn_lookup_insert_ne. congruence. }
    destruct H1 as (A1 & A2 & A3 & A4).
    destruct (IH w1) as (B1 & B2 & B3 & B4).
    split; [rewrite B1, A1, <- app_assoc; reflexivity|].
    split; [|split; congruence].
    intros s' Hs'. rewrite B2, A2 by exact Hs'. reflexivity.
Qed.

Lemma moveCards_accepts (s t : CardStack) (c0 : Card) (l' : list Card)
    (w : World) :
  CardStack.canAcceptCard t c0 w = true →
  CardStack.moveCards s (c0 :: l') t w =
  (true,
   (forEach (c0 :: l') (λ card, CardStack.addCard t card)
      (forEach (c0 :: l') (λ card, CardStack.removeCard s card) w).2).2).
Proof.
  intros Hacc. unfold CardStack.moveCards.
  rewrite bind_run. unfold gets. cbn [fst snd]. rewrite Hacc. cbn [negb].
  rewrite !bind_run. reflexivity.
Qed.

(** X9.  [moveCards] refuses an empty list and a list whose first card
    the target does not accept, returning false with the store untouched.
    Otherwise it moves: when the list is the top part of this stack (each
    card there once) and the target is another stack, the cards leave this
    stack and lie on the target in the same order; no other stack, no
    face state and nothing of the game state changes (the game state and
    the card faces are not consulted, and no move is recorded). *)
Theorem moveCards_effect (s t : CardStack) (l rest : list Card) (w : World) :
  (l = [] ∨ (∃ c0 l', l = c0 :: l' ∧ CardStack.canAcceptCard t c0 w = false) →
     CardStack.moveCards s l t w = (false, w))
  ∧ (∀ c0 l', l = c0 :: l' → CardStack.canAcceptCard t c0 w = true →
       s ≠ t → cards w s = rest ++ l → NoDup (rest ++ l) →
       let r := CardStack.moveCards s l t w in
       r.1 = true
       ∧ cards r.2 s = rest
       ∧ cards r.2 t = cards w t ++ l
       ∧ (∀ s', s' ≠ s → s' ≠ t → cards r.2 s' = cards w s')
       ∧ faceUp r.2 = faceUp w
       ∧ gameState r.2 = gameState w).
Proof.
  split.
  - intros [->|(c0 & l' & -> & Hacc)]; [reflexivity|].
    unfold CardStack.moveCards. rewrite bind_run. unfold gets.
    cbn [fst snd]. rewrite Hacc. reflexivity.
  - intros c0 l' -> Hacc Hne Hc Hnd r. subst r.
    rewrite (moveCards_accepts s t c0 l' w Hacc). cbn [fst snd].
    destruct (forEach_removeCard s rest _ w Hc Hnd) as (A1 & A2 & A3 & A4).
    set (w1 := (forEach (c0 :: l')
                  (λ card, CardStack.removeCard s card) w).2) in *.
    destruct (forEach_addCard t (c0 :: l') w1) as (B1 & B2 & B3 & B4).
    set (w2 := (forEach (c0 :: l')
                  (λ card, CardStack.addCard t card) w1).2) in *.
    split; [reflexivity|].
    split; [rewrite B2, A1 by exact Hne; reflexivity|].
    split; [rewrite B1, A2 by congruence; reflexivity|].
    split; [|split; congruence].
    intros s' Hs Ht. rewrite B2, A2 by assumption. reflexivity.
Qed.

Lemma moveCards_effect_witness :
  CardStack.moveCards ex_T0 [] ex_T1 ex_board = (false, ex_board)
  ∧ cards (CardStack.moveCards GameController.wasteStack [jack_spades] ex_T0
             ex_board).2 ex_T0
    = cards ex_board ex_T0 ++ [jack_spades].
Proof.
  split.
  - apply (moveCards_effect ex_T0 ex_T1 [] [] ex_board). left. reflexivity.
  - pose proof (proj2 (moveCards_effect GameController.wasteStack ex_T0
                         [jack_spades] [] ex_board) jack_spades []) as H.
    cbv zeta in H. apply H.
    + reflexivity.
    + reflexivity.
    + discriminate.
    + reflexivity.
    + apply (bool_decide_unpack _). vm_compute. exact I.
Defined.

(** ** Utils: the placement checks against those of CardStack *)

(** X10.  [Utils.canPlaceOnFoundation] on a stack's cards gives the
    answer of the stack's own foundation check.  [Utils.canPlaceOnTableau]
    on the top card does not look at the face of that card: the stack's
    tableau check is true exactly when the Utils check is true and the
    top card, if there is one, lies face up. *)
Theorem utils_checks_agree (s : CardStack) (c : Card) (w : World) :
  Utils.canPlaceOnFoundation c (cards w s)
  = CardStack.canPlaceOnFoundation s c w
  ∧ (CardStack.canPlaceOnTableau s c w = true ↔
     Utils.canPlaceOnTableau c (CardStack.getTopCard s w) = true
     ∧ ∀ top, CardStack.getTopCard s w = Some top → faceUp w top = true).
Proof.
  split.
  - unfold Utils.canPlaceOnFoundation, CardStack.canPlaceOnFoundation,
      CardStack.isEmpty, CardStack.getTopCard.
    destruct (bool_decide (length (cards w s) = 0%nat)); [reflexivity|].
    destruct (last (cards w s)); reflexivity.
  - unfold Utils.canPlaceOnTableau, CardStack.canPlaceOnTableau,
      CardStack.getTopCard.
    destruct (CardStack.isEmpty s w) eqn:E.
    + apply isEmpty_true in E. rewrite E. simpl.
      split; [intros H; split; [exact H | discriminate] | intros [H _]; exact H].
    + apply isEmpty_false in E.
      destruct (last_nonempty _ E) as [top Htop]. rewrite Htop.
      destruct (faceUp w top) eqn:Hup; simpl.
      * split; [intros H; split; [exact H|] | intros [H _]; exact H].
        intros top' [= <-]. exact Hup.
      * split; [discriminate|]. intros [_ H].
        specialize (H top eq_refl). congruence.
Qed.

Lemma utils_checks_agree_witness :
  CardStack.canPlaceOnTableau ex_T0 jack_spades ex_board = true.
Proof.
  apply (utils_checks_agree ex_T0 jack_spades ex_board). split.
  - reflexivity.
  - intros top H. vm_compute in H. injection H as <-. reflexivity.
Defined.

(** ** GameLogic: what a validated multi-card move does *)

Lemma remove_add_middle (fromStack toStack : CardStack) (c : Card)
    (rest l : list Card) (w : World) :
  fromStack ≠ toStack → cards w fromStack = rest ++ c :: l → c ∉ rest →
  cards ((CardStack.removeCard fromStack c ;;
          CardStack.addCard toStack c) w).2 fromStack = rest ++ l.
Proof.
  intros Hne Hc Hout.
  unfold CardStack.removeCard, CardStack.addCard. unfold_state. simpl.
  rewrite Hc, (indexOf_middle rest l c Hout), splice1_middle. simpl.
  rewrite fn_lookup_insert_ne by congruence. apply fn_lookup_insert.
Qed.

Lemma forEach_move_run (fromStack toStack : CardStack) :
  fromStack ≠ toStack →
  ∀ (l rest : list Card) (w : World),
    cards w fromStack = rest ++ l → NoDup (rest ++ l) →
    let w' := (forEach l (λ card,
                 CardStack.removeCard fromStack card ;;
                 CardStack.addCard toStack card) w).2 in
    cards w' fromStack = rest
    ∧ cards w' toStack = cards w toStack ++ l
    ∧ (∀ s, s ≠ fromStack → s ≠ toStack → cards w' s = cards w s)
    ∧ faceUp w' = faceUp w
    ∧ gameState w' = gameState w.
Proof.
  intros Hne. induction l as [|c l IH]; intros rest w Hc Hnd; cbv zeta.
  - simpl. rewrite app_nil_r in *. auto.
  - simpl forEach. rewrite bind_run.
    assert (Hout : c ∉ rest).
    { apply NoDup_app in Hnd as (_ & Hd & _). intros Hin.
      apply (Hd c Hin). apply elem_of_cons. left. reflexivity. }
    assert (Hnd' : NoDup (rest ++ l)).
    { apply NoDup_app in Hnd as (H1 & H2 & H3).
      apply NoDup_cons in H3 as [_ H3]. apply NoDup_app.
      split; [exact H1|]. split; [|exact H3].
      intros x Hx Hx'. apply (H2 x Hx). apply elem_of_cons. right. exact Hx'. }
    destruct (remove_add_target fromStack toStack c w Hne)
      as (T1 & T2 & T3 & T4 & _).
    pose proof (remove_add_middle fromStack toStack c rest l w Hne Hc Hout)
      as S1.
    set (w1 := ((CardStack.removeCard fromStack c ;;
                 CardStack.addCard toStack c) w).2) in *.
    destruct (IH rest w1 S1 Hnd') as (B1 & B2 & B3 & B4 & B5).
    split; [exact B1|].
    split; [rewrite B2, T1, <- app_assoc; reflexivity|].
    split; [|split; congruence].
    intros s Hs Ht. rewrite B3, T2 by assumption. reflexivity.
Qed.

Lemma executeMultiCardMove_unfold (l : list Card)
    (fromStack toStack : CardStack) (w : World) :
  GameLogic.validateMultiCardMove l fromStack toStack w = true →
  GameLogic.executeMultiCardMove l fromStack toStack w =
  let w1 := (forEach l (λ card,
               CardStack.removeCard fromStack card ;;
               CardStack.addCard toStack card) w).2 in
  (true,
   set_gameState
     (GameState.recordMove
        (MoveData.mk "multi_card_move" None (Some (toString <$> l))
           (Some (Z.of_nat (length l)))
           (Some (StackType_to_string (type fromStack)))
           (Some (StackType_to_string (type toStack)))
           (Some (index fromStack)) (Some (index toStack))
           None None None)
        (gameState w1))
     w1).
Proof.
  intros Hv. unfold GameLogic.executeMultiCardMove, GameLogic.recordMove.
  rewrite bind_run. unfold gets. cbn [fst snd]. rewrite Hv. cbn [negb].
  rewrite !bind_run. reflexivity.
Qed.

(** X11.  A validated multi-card move of the top part [l] of a column
    onto another stack: [l] is a valid run, it leaves the source and lies
    on the target in the same order, no other stack and no face changes,
    the move count grows by one, and the foundation counter is not
    touched whatever the target is.  On a non-empty tableau target the
    old top card followed by [l] is a valid run again. *)
Theorem multi_move_effect (l rest : list Card)
    (fromStack toStack : CardStack) (w : World) :
  GameLogic.validateMultiCardMove l fromStack toStack w = true →
  fromStack ≠ toStack →
  cards w fromStack = rest ++ l →
  NoDup (rest ++ l) →
  let r := GameLogic.executeMultiCardMove l fromStack toStack w in
  r.1 = true
  ∧ valid_run w l
  ∧ cards r.2 fromStack = rest
  ∧ cards r.2 toStack = cards w toStack ++ l
  ∧ (∀ s, s ≠ fromStack → s ≠ toStack → cards r.2 s = cards w s)
  ∧ faceUp r.2 = faceUp w
  ∧ GameState.moves (gameState r.2) = GameState.moves (gameState w) + 1
  ∧ GameState.foundationCards (gameState r.2)
    = GameState.foundationCards (gameState w)
  ∧ (type toStack = tableau → ∀ top, last (cards w toStack) = Some top →
       valid_run r.2 (top :: l)).
Proof.
  intros Hv Hne Hc Hnd r. subst r.
  rewrite (executeMultiCardMove_unfold _ _ _ _ Hv). cbv zeta. cbn [fst snd].
  destruct (forEach_move_run fromStack toStack Hne l rest w Hc Hnd)
    as (A1 & A2 & A3 & A4 & A5).
  set (w1 := (forEach l _ w).2) in *.
  assert (Hparts : ∃ c0 l', l = c0 :: l'
            ∧ GameLogic.areCardsSequential l w = true
            ∧ GameLogic.validateMove c0 fromStack toStack w = true).
  { unfold GameLogic.validateMultiCardMove in Hv.
    destruct l as [|c0 l']; [discriminate|]. exists c0, l'.
    destruct (bool_decide (type fromStack ≠ tableau)); [discriminate|].
    destruct (GameLogic.areCardsSequential (c0 :: l') w); [|discriminate].
    auto. }
  destruct Hparts as (c0 & l' & El & Hseq & Hv0).
  apply areCardsSequential_valid_run in Hseq.
  destruct (validateMove_true _ _ _ _ Hv0) as (Hp & Hup & Hacc).
  assert (Hst : GameState.isGameStarted (gameState w) = true).
  { unfold GameState.isPlaying in Hp.
    apply andb_true_iff in Hp as [Hp _].
    apply andb_true_iff in Hp as [Hp _]. exact Hp. }
  cbn [set_gameState cards faceUp gameState]. rewrite A5.
  split; [reflexivity|]. split; [exact Hseq|]. split; [exact A1|].
  split; [exact A2|]. split; [exact A3|]. split; [exact A4|].
  split.
  { apply recordMove_moves. exact Hst. }
  split.
  { unfold GameState.recordMove. rewrite Hst. reflexivity. }
  intros Hty top Htop.
  unfold CardStack.canAcceptCard in Hacc. rewrite Hty in Hacc.
  apply canPlaceOnTableau_spec in Hacc
    as [[He _]|(top' & Hl & Hf & Hcol & Hval)].
  { rewrite He in Htop. discriminate. }
  rewrite Htop in Hl. injection Hl as <-.
  assert (Hrun : valid_run w (top :: l)).
  { rewrite El. split.
    - repeat split; try assumption; [congruence | lia].
    - rewrite <- El. exact Hseq. }
  clear -Hrun A4.
  revert Hrun. generalize (top :: l). intros k.
  induction k as [|a [|b k] IH]; [auto | auto |].
  intros [Hp Hr]. split; [|apply IH; exact Hr].
  unfold run_pair in *. cbn [set_gameState faceUp]. rewrite A4. exact Hp.
Qed.

Lemma multi_move_effect_witness :
  cards (GameLogic.executeMultiCardMove [queen_hearts; jack_spades]
           ex_T1 ex_T0 ex_two_columns).2 ex_T0
  = [king_spades; queen_hearts; jack_spades]
  ∧ cards (GameLogic.executeMultiCardMove [queen_hearts; jack_spades]
             ex_T1 ex_T0 ex_two_columns).2 ex_T1
    = [four_hearts].
Proof.
  assert (Hv : GameLogic.validateMultiCardMove [queen_hearts; jack_spades]
                 ex_T1 ex_T0 ex_two_columns = true) by reflexivity.
  assert (Hne : ex_T1 ≠ ex_T0) by discriminate.
  assert (Hc : cards ex_two_columns ex_T1
               = [four_hearts] ++ [queen_hearts; jack_spades])
    by reflexivity.
  assert (Hnd : NoDup ([four_hearts] ++ [queen_hearts; jack_spades])).
  { apply (bool_decide_unpack _). vm_compute. exact I. }
  pose proof (multi_move_effect [queen_hearts; jack_spades] [four_hearts]
                ex_T1 ex_T0 ex_two_columns Hv Hne Hc Hnd) as H.
  cbv zeta in H. destruct H as (_ & _ & H1 & H2 & _).
  split; [exact H2 | exact H1].
Defined.

(** ** GameLogic: turning the covered top cards *)

Lemma executeCardFlip_up (card : Card) (w : World) :
  faceUp w card = true → GameLogic.executeCardFlip card w = (false, w).
Proof.
  intros Hup. unfold GameLogic.executeCardFlip. rewrite bind_run.
  unfold gets. cbn [fst snd]. rewrite Hup. reflexivity.
Qed.

Lemma executeCardFlip_down (card : Card) (w : World) :
  faceUp w card = false →
  ∃ md, GameLogic.executeCardFlip card w =
        (true,
         set_gameState (GameState.recordMove md (gameState w))
           (set_faceUp card true w)).
Proof.
  intros Hup. unfold GameLogic.executeCardFlip. rewrite bind_run.
  unfold gets. cbn [fst snd]. rewrite Hup.
  eexists. reflexivity.
Qed.

Lemma flipLoop_spec (l : list Card) :
  ∀ (n : Z) (w : World),
    let r := GameLogic.flipLoop l n w in
    cards r.2 = cards w
    ∧ currentStack r.2 = currentStack w
    ∧ (∀ c, faceUp r.2 c = faceUp w c || bool_decide (c ∈ l))
    ∧ n ≤ r.1 ≤ n + Z.of_nat (length l)
    ∧ ((∃ c, c ∈ l ∧ faceUp w c = false) → n < r.1)
    ∧ (NoDup l → (∀ c, c ∈ l → faceUp w c = false) →
         r.1 = n + Z.of_nat (length l)).
Proof.
  induction l as [|card l IH]; intros n w; cbv zeta.
  - simpl. repeat split; try lia.
    + intros c. rewrite orb_false_r. reflexivity.
    + intros (c & Hc & _). apply not_elem_of_nil in Hc. contradiction.
  - simpl GameLogic.flipLoop. rewrite bind_run.
    destruct (faceUp w card) eqn:Hup.
    + rewrite (executeCardFlip_up card w Hup). cbn [fst snd].
      destruct (IH n w) as (I1 & I2 & I3 & I4 & I5 & I6).
      split; [exact I1|]. split; [exact I2|].
      split.
      { intros c. rewrite I3.
        destruct (decide (c = card)) as [->|Hne].
        - rewrite Hup. reflexivity.
        - f_equal. apply bool_decide_ext. rewrite elem_of_cons. tauto. }
      split; [rewrite length_cons; lia|].
      split.
      { intros (c & Hc & Hf). apply I5. exists c. split; [|exact Hf].
        apply elem_of_cons in Hc as [->|Hc]; [congruence | exact Hc]. }
      intros _ Hall. rewrite (Hall card) in Hup; [discriminate|].
      apply elem_of_cons. left. reflexivity.
    + destruct (executeCardFlip_down card w Hup) as (md & ->). cbn [fst snd].
      set (w1 := set_gameState _ (set_faceUp card true w)).
      destruct (IH (n + 1) w1) as (I1 & I2 & I3 & I4 & I5 & I6).
      split; [exact I1|]. split; [exact I2|].
      split.
      { intros c. rewrite I3. subst w1. cbn [set_gameState set_faceUp faceUp].
        destruct (decide (c = card)) as [->|Hne].
        - rewrite fn_lookup_insert, Hup.
          rewrite (bool_decide_eq_true_2 (card ∈ card :: l));
            [reflexivity | apply elem_of_cons; left; reflexivity].
        - rewrite fn_lookup_insert_ne by congruence.
          f_equal. apply bool_decide_ext. rewrite elem_of_cons. tauto. }
      split; [rewrite length_cons; lia|].
      split; [intros _; lia|].
      intros Hnd Hall. apply NoDup_cons in Hnd as [Hout Hnd].
      rewrite I6; [rewrite length_cons; lia | exact Hnd |].
      intros c Hc. subst w1. cbn [set_gameState set_faceUp faceUp].
      rewrite fn_lookup_insert_ne.
      * apply Hall. apply elem_of_cons. right. exact Hc.
      * intros ->. contradiction.
Qed.

Lemma findCardsToFlip_elem (ts : list CardStack) (w : World) (c : Card) :
  c ∈ GameLogic.findCardsToFlip ts w ↔
  ∃ s, s ∈ ts ∧ CardStack.getTopCard s w = Some c ∧ faceUp w c = false.
Proof.
  unfold GameLogic.findCardsToFlip. rewrite list_elem_of_bind.
  split.
  - intros (s & Hc & Hs). exists s. split; [exact Hs|].
    destruct (CardStack.getTopCard s w) as [t|];
      [|apply not_elem_of_nil in Hc; contradiction].
    destruct (faceUp w t) eqn:Hup; cbn [negb] in Hc;
      [apply not_elem_of_nil in Hc; contradiction|].
    apply list_elem_of_singleton in Hc as ->. auto.
  - intros (s & Hs & Ht & Hup). exists s. split; [|exact Hs].
    rewrite Ht, Hup. cbn [negb]. apply list_elem_of_singleton. reflexivity.
Qed.

Lemma nil_iff_no_elem {A} (l : list A) : l = [] ↔ ∀ x, x ∉ l.
Proof.
  split.
  - intros -> x. apply not_elem_of_nil.
  - intros H. destruct l as [|a l]; [reflexivity|].
    exfalso. apply (H a). apply elem_of_cons. left. reflexivity.
Qed.

Lemma executeAllCardFlips_unfold (ts : list CardStack) (w : World) :
  GameLogic.executeAllCardFlips ts w
  = GameLogic.flipLoop (GameLogic.findCardsToFlip ts w) 0 w.
Proof. reflexivity. Qed.

Lemma flips_frame (ts : list CardStack) (w : World) :
  cards (GameLogic.executeAllCardFlips ts w).2 = cards w.
Proof.
  rewrite executeAllCardFlips_unfold.
  apply (flipLoop_spec (GameLogic.findCardsToFlip ts w) 0 w).
Qed.

(** X12.  [executeAllCardFlips] turns exactly the face-down top cards of
    the given stacks and leaves every stack as it was.  Afterwards none of
    these stacks has a face-down top card, so a second call turns nothing.
    The count it returns is zero exactly when there was nothing to turn,
    and never more than the number of cards found. *)
Theorem flips_leave_nothing_to_flip (ts : list CardStack) (w : World) :
  let r := GameLogic.executeAllCardFlips ts w in
  cards r.2 = cards w
  ∧ (∀ c, faceUp r.2 c
          = faceUp w c || bool_decide (c ∈ GameLogic.findCardsToFlip ts w))
  ∧ GameLogic.findCardsToFlip ts r.2 = []
  ∧ GameLogic.executeAllCardFlips ts r.2 = (0, r.2)
  ∧ 0 ≤ r.1 ≤ Z.of_nat (length (GameLogic.findCardsToFlip ts w))
  ∧ (r.1 = 0 ↔ GameLogic.findCardsToFlip ts w = []).
Proof.
  cbv zeta. rewrite !executeAllCardFlips_unfold.
  destruct (flipLoop_spec (GameLogic.findCardsToFlip ts w) 0 w)
    as (I1 & I2 & I3 & I4 & I5 & _).
  set (r := GameLogic.flipLoop (GameLogic.findCardsToFlip ts w) 0 w) in *.
  assert (Hnone : GameLogic.findCardsToFlip ts r.2 = []).
  { apply nil_iff_no_elem. intros c Hc.
    apply findCardsToFlip_elem in Hc as (s & Hs & Ht & Hup).
    rewrite I3 in Hup. apply orb_false_iff in Hup as [Hup Hnot].
    apply bool_decide_eq_false in Hnot. apply Hnot.
    apply findCardsToFlip_elem. exists s.
    unfold CardStack.getTopCard in *. rewrite I1 in Ht. auto. }
  split; [exact I1|]. split; [exact I3|]. split; [exact Hnone|].
  split.
  { rewrite Hnone. reflexivity. }
  split; [lia|].
  split.
  - intros H0. apply nil_iff_no_elem. intros c Hc.
    assert (0 < r.1); [|lia]. apply I5. exists c. split; [exact Hc|].
    apply findCardsToFlip_elem in Hc as (s & _ & _ & Hup). exact Hup.
  - intros E. rewrite E in I4. simpl in I4. lia.
Qed.

(** ** GameLogic: the suggested move *)

Lemma spreadFirst_picks (ty : string) (l hints : list Hint) :
  (0 < length l)%nat → (∀ h, h ∈ l → h ∈ hints) →
  ∃ h, head l = Some h ∧ h ∈ hints
       ∧ GameLogic.spreadFirst ty l
         = GameLogic.mkBestMove (default ty (h_type h)) (Some (h_card h))
             (Some (h_fromStack h)) (Some (h_toStack h)).
Proof.
  intros Hlen Hsub. destruct l as [|h l]; [simpl in Hlen; lia|].
  exists h. split; [reflexivity|]. split; [|reflexivity].
  apply Hsub. apply elem_of_cons. left. reflexivity.
Qed.

Lemma filter_nonempty {A} (P : A → Prop) `{∀ x, Decision (P x)}
    (l : list A) :
  (0 < length (filter P l))%nat ↔ ∃ x, x ∈ l ∧ P x.
Proof.
  split.
  - intros Hlen. destruct (filter P l) as [|x l'] eqn:E; [simpl in Hlen; lia|].
    assert (Hin : x ∈ filter P l)
      by (rewrite E; apply elem_of_cons; left; reflexivity).
    apply list_elem_of_filter in Hin as [HP Hx]. exists x. auto.
  - intros (x & Hx & HP).
    assert (Hin : x ∈ filter P l) by (apply list_elem_of_filter; auto).
    destruct (filter P l); [apply not_elem_of_nil in Hin; contradiction|].
    simpl. lia.
Qed.

Lemma head_filter {A} (P : A → Prop) `{∀ x, Decision (P x)}
    (l : list A) (x : A) :
  head (filter P l) = Some x → x ∈ l ∧ P x.
Proof.
  intros Hh.
  assert (Hin : x ∈ filter P l).
  { destruct (filter P l) as [|y l']; [discriminate|].
    injection Hh as ->. apply elem_of_cons. left. reflexivity. }
  apply list_elem_of_filter in Hin as [HP Hx]. auto.
Qed.

Lemma find_type_elem (t : StackType) (allStacks : list CardStack)
    (s : CardStack) :
  List.find (λ s, bool_decide (type s = t)) allStacks = Some s →
  s ∈ allStacks ∧ type s = t.
Proof.
  intros Hf. apply List.find_some in Hf as [Hin Hty].
  apply list_elem_of_In in Hin. apply bool_decide_eq_true in Hty. auto.
Qed.

Lemma findHints_elem (allStacks : list CardStack) (w : World) (h : Hint) :
  h ∈ GameLogic.findHints allStacks w →
  move_hint allStacks w h ∨ flip_hint allStacks w h.
Proof.
  unfold GameLogic.findHints. cbv zeta. intros Hh.
  apply elem_of_app in Hh as [Hh|Hh];
    [|apply elem_of_app in Hh as [Hh|Hh];
      [|apply elem_of_app in Hh as [Hh|Hh]]].
  - left. apply findAutoCompletableCards_spec in Hh.
    destruct Hh as (H1 & H2 & H3 & H4 & H5 & H6 & H7 & H8).
    unfold move_hint, CardStack.canAcceptCard. rewrite H5.
    repeat split; auto. intros E. apply H3. rewrite E. exact H5.
  - left.
    destruct (List.find (λ s, bool_decide (type s = waste)) allStacks)
      as [ws|] eqn:Ef; [|apply not_elem_of_nil in Hh; contradiction].
    apply find_type_elem in Ef as [Hws Hwty].
    destruct (negb (CardStack.isEmpty ws w));
      [|apply not_elem_of_nil in Hh; contradiction].
    destruct (CardStack.getTopCard ws w) as [c|] eqn:Etop;
      [|apply not_elem_of_nil in Hh; contradiction].
    destruct (faceUp w c) eqn:Eup;
      [|apply not_elem_of_nil in Hh; contradiction].
    apply list_elem_of_bind in Hh as (t & Hh & Ht).
    apply list_elem_of_filter in Ht as [Htty Ht].
    destruct (GameLogic.canMoveToTableau c t w) eqn:Ecan;
      [|apply not_elem_of_nil in Hh; contradiction].
    apply list_elem_of_singleton in Hh as ->.
    rewrite canMoveToTableau_eq in Ecan.
    unfold move_hint, CardStack.canAcceptCard.
    cbn [h_type h_fromStack h_toStack h_card]. rewrite Htty.
    repeat split; auto; congruence.
  - left. apply list_elem_of_bind in Hh as (s & Hh & Hs).
    apply list_elem_of_filter in Hs as [Hsty Hs].
    destruct (CardStack.getTopCard s w) as [c|] eqn:Etop;
      [|apply not_elem_of_nil in Hh; contradiction].
    destruct (faceUp w c) eqn:Eup; cbn [negb] in Hh;
      [|apply not_elem_of_nil in Hh; contradiction].
    apply list_elem_of_bind in Hh as (t & Hh & Ht).
    apply list_elem_of_filter in Ht as [Htty Ht].
    destruct (bool_decide (s = t)) eqn:Est;
      [apply not_elem_of_nil in Hh; contradiction|].
    apply bool_decide_eq_false in Est.
    destruct (GameLogic.canMoveToTableau c t w) eqn:Ecan;
      [|apply not_elem_of_nil in Hh; contradiction].
    apply list_elem_of_singleton in Hh as ->.
    rewrite canMoveToTableau_eq in Ecan.
    unfold move_hint, CardStack.canAcceptCard.
    cbn [h_type h_fromStack h_toStack h_card]. rewrite Htty.
    repeat split; auto; congruence.
  - right. apply list_elem_of_bind in Hh as (c & Hh & Hc).
    apply findCardsToFlip_elem in Hc as (s & Hs & Htop & Hup).
    apply list_elem_of_filter in Hs as [Hsty Hs].
    destruct (currentStack w c) as [cs|] eqn:Ecs;
      [|apply not_elem_of_nil in Hh; contradiction].
    apply list_elem_of_singleton in Hh as ->.
    unfold flip_hint. cbn [h_type h_fromStack h_toStack h_card].
    repeat split; auto. exists s. auto.
Qed.

(** X13.  [suggestBestMove] has nothing to suggest exactly when
    [isGameBlocked] reports a block.  With no hint left it suggests a draw
    from the stock while the stock holds a card, and a recycling of the
    waste only when the stock is empty (or missing) and the waste holds a
    card. *)
Theorem no_suggestion_iff_blocked (allStacks : list CardStack) (w : World) :
  (GameLogic.suggestBestMove allStacks w = None
   ↔ GameLogic.isGameBlocked allStacks w = true)
  ∧ (∀ bm, GameLogic.suggestBestMove allStacks w = Some bm →
       GameLogic.bm_type bm = "draw_stock" →
       GameLogic.findHints allStacks w = []
       ∧ ∃ s, first_of_type stock allStacks = Some s ∧ cards w s ≠ []
              ∧ GameLogic.bm_fromStack bm = Some s
              ∧ GameLogic.bm_toStack bm = first_of_type waste allStacks)
  ∧ (∀ bm, GameLogic.suggestBestMove allStacks w = Some bm →
       GameLogic.bm_type bm = "recycle_waste" →
       GameLogic.findHints allStacks w = []
       ∧ none_or_empty (first_of_type stock allStacks) w
       ∧ ∃ s, first_of_type waste allStacks = Some s ∧ cards w s ≠ []
              ∧ GameLogic.bm_fromStack bm = Some s
              ∧ GameLogic.bm_toStack bm = first_of_type stock allStacks).
Proof.
  unfold GameLogic.suggestBestMove, GameLogic.isGameBlocked, first_of_type.
  cbv zeta.
  set (hints := GameLogic.findHints allStacks w).
  set (st := List.find (λ s, bool_decide (type s = stock)) allStacks).
  set (wa := List.find (λ s, bool_decide (type s = waste)) allStacks).
  destruct (bool_decide (length hints = 0%nat)) eqn:Eh.
  - apply bool_decide_eq_true in Eh. apply length_zero_iff_nil in Eh.
    assert (Hst : ∀ s, st = Some s →
              CardStack.isEmpty s w = false → cards w s ≠ [])
      by (intros s _ He; apply isEmpty_false; exact He).
    destruct st as [s|], wa as [ws|]; cbn [negb andb none_or_empty];
      try destruct (CardStack.isEmpty s w) eqn:Es;
      try destruct (CardStack.isEmpty ws w) eqn:Ews;
      cbn [negb andb];
      (split; [split; [intros; congruence | intros; congruence]|]);
      (split; intros bm Hbm; try discriminate;
       injection Hbm as <-; cbn [GameLogic.bm_type GameLogic.bm_fromStack
                                  GameLogic.bm_toStack];
       intros Hty; try discriminate; (split; [exact Eh|])).
    all: try (eexists; repeat split; try reflexivity;
              apply isEmpty_false; assumption).
    all: try (apply isEmpty_true in Es; split; [exact Es|]).
    all: try (split; [exact I|]).
    all: eexists; repeat split; try reflexivity;
         apply isEmpty_false; assumption.
  - cbn [andb]. split; [split; intros; congruence|].
    assert (Hne : hints ≠ []).
    { apply bool_decide_eq_false in Eh. intros E. apply Eh.
      rewrite E. reflexivity. }
    assert (Hty : ∀ bm, Some (GameLogic.getSmartMovePriority hints allStacks w)
                        = Some bm →
                  GameLogic.bm_type bm = "card_move"
                  ∨ GameLogic.bm_type bm = "flip").
    { intros bm Hbm. injection Hbm as <-.
      assert (Hall : ∀ h, h ∈ hints → h_type h = None ∨ h_type h = Some "flip").
      { intros h Hh. subst hints.
        destruct (findHints_elem allStacks w h Hh) as [Hm|Hf].
        - left. apply Hm.
        - right. apply Hf. }
      assert (Hpick : ∀ ty l, (ty = "card_move" ∨ ty = "flip") →
                (∀ h, h ∈ l → h ∈ hints) →
                GameLogic.bm_type (GameLogic.spreadFirst ty l) = "card_move"
                ∨ GameLogic.bm_type (GameLogic.spreadFirst ty l) = "flip").
      { intros ty l Hty Hsub. unfold GameLogic.spreadFirst.
        destruct l as [|h l]; [exact Hty|]. cbn [head GameLogic.bm_type].
        destruct (Hall h) as [-> | ->];
          [apply Hsub; apply elem_of_cons; left; reflexivity
          | exact Hty | right; reflexivity]. }
      unfold GameLogic.getSmartMovePriority, GameLogic.findUnblockingMoves.
      cbv zeta.
      repeat match goal with
             | |- context [if bool_decide ?P then _ else _] =>
                 destruct (bool_decide P)
             end;
        apply Hpick; auto;
        intros h Hh; repeat (apply list_elem_of_filter in Hh as [_ Hh]);
        exact Hh. }
    split; intros bm Hbm Hbt; destruct (Hty bm Hbm) as [E|E];
      rewrite E in Hbt; discriminate.
Qed.

Lemma no_suggestion_iff_blocked_witness :
  GameLogic.findHints GameController.getAllStacks ex_stock_only = []
  ∧ ∃ s, first_of_type stock GameController.getAllStacks = Some s
         ∧ cards ex_stock_only s ≠ [].
Proof.
  destruct (no_suggestion_iff_blocked GameController.getAllStacks
              ex_stock_only) as (_ & Hdraw & _).
  destruct (Hdraw (GameLogic.mkBestMove "draw_stock" None
                     (Some GameController.stockStack)
                     (Some GameController.wasteStack)))
    as (Hh & s & Hs & Hc & _); [reflexivity | reflexivity |].
  split; [exact Hh|]. exists s. split; [exact Hs | exact Hc].
Defined.

Lemma filter_empty_not {A} (P : A → Prop) `{∀ x, Decision (P x)}
    (l : list A) (x : A) :
  bool_decide (0 < length (filter P l))%nat = false → x ∈ l → ¬ P x.
Proof.
  intros E Hx HP. apply bool_decide_eq_false in E. apply E.
  apply filter_nonempty. exists x. auto.
Qed.

(** X14.  With at least one hint, [suggestBestMove] suggests one of the
    hints (a flip hint keeps its type, any other is a card move), chosen
    by rank: a move onto a foundation before anything else, and among
    those an ace or a two first; otherwise the turning of a card; otherwise
    a move onto an empty tableau column if there is one; otherwise a move
    that [wouldUnblockCards] marks, if there is one. *)
Theorem suggestion_follows_priorities (allStacks : list CardStack)
    (w : World) :
  GameLogic.findHints allStacks w ≠ [] →
  ∃ h, h ∈ GameLogic.findHints allStacks w
    ∧ GameLogic.suggestBestMove allStacks w
      = Some (GameLogic.mkBestMove (default "card_move" (h_type h))
                (Some (h_card h)) (Some (h_fromStack h))
                (Some (h_toStack h)))
    ∧ (∀ h', h' ∈ GameLogic.findHints allStacks w →
         type (h_toStack h') = foundation →
         type (h_toStack h) = foundation
         ∧ (getValue (h_card h') ≤ 2 → getValue (h_card h) ≤ 2))
    ∧ (∀ h', h' ∈ GameLogic.findHints allStacks w →
         h_type h' = Some "flip" →
         type (h_toStack h) = foundation ∨ h_type h = Some "flip")
    ∧ (∀ h', h' ∈ GameLogic.findHints allStacks w →
         type (h_toStack h') = tableau → cards w (h_toStack h') = [] →
         type (h_toStack h) = foundation ∨ h_type h = Some "flip"
         ∨ (type (h_toStack h) = tableau ∧ cards w (h_toStack h) = []))
    ∧ (∀ h', h' ∈ GameLogic.findHints allStacks w →
         type (h_toStack h') = tableau →
         GameLogic.wouldUnblockCards (h_fromStack h') (h_toStack h')
           (h_card h') w = true →
         type (h_toStack h) = foundation ∨ h_type h = Some "flip"
         ∨ (type (h_toStack h) = tableau
            ∧ (cards w (h_toStack h) = []
               ∨ GameLogic.wouldUnblockCards (h_fromStack h) (h_toStack h)
                   (h_card h) w = true))).
Proof.
  intros Hne. unfold GameLogic.suggestBestMove. cbv zeta.
  set (hints := GameLogic.findHints allStacks w) in *.
  rewrite bool_decide_eq_false_2
    by (intros E; apply length_zero_iff_nil in E; contradiction).
  unfold GameLogic.getSmartMovePriority, GameLogic.findUnblockingMoves.
  cbv zeta.
  set (fm := filter (λ h, type (h_toStack h) = foundation) hints).
  set (fl := filter (λ h, h_type h = Some "flip") hints).
  set (tm := filter (λ h, type (h_toStack h) = tableau) hints).
  destruct (bool_decide (0 < length fm)%nat) eqn:Efm.
  { apply bool_decide_eq_true in Efm.
    match goal with
    | |- context [if bool_decide ?P then _ else _] =>
        destruct (bool_decide P) eqn:Eat
    end.
    - apply bool_decide_eq_true in Eat.
      destruct (spreadFirst_picks "card_move" _ hints Eat)
        as (h & Hhd & Hin & ->).
      { intros h Hh. apply list_elem_of_filter in Hh as [_ Hh].
        apply list_elem_of_filter in Hh as [_ Hh]. exact Hh. }
      apply head_filter in Hhd as [Hhf Hval].
      apply list_elem_of_filter in Hhf as [Hty _].
      exists h. split; [exact Hin|]. split; [reflexivity|]. auto.
    - destruct (spreadFirst_picks "card_move" fm hints Efm)
        as (h & Hhd & Hin & ->).
      { intros h Hh. apply list_elem_of_filter in Hh as [_ Hh]. exact Hh. }
      apply head_filter in Hhd as [_ Hty].
      exists h. split; [exact Hin|]. split; [reflexivity|].
      split; [|auto]. intros h' Hh' Hty'. split; [exact Hty|].
      intros Hval. exfalso.
      apply (filter_empty_not _ fm h' Eat); [|exact Hval].
      apply list_elem_of_filter. auto. }
  destruct (bool_decide (0 < length fl)%nat) eqn:Efl.
  { apply bool_decide_eq_true in Efl.
    destruct (spreadFirst_picks "flip" fl hints Efl) as (h & Hhd & Hin & ->).
    { intros h Hh. apply list_elem_of_filter in Hh as [_ Hh]. exact Hh. }
    apply head_filter in Hhd as [_ Hty].
    exists h. split; [exact Hin|]. rewrite Hty.
    split; [reflexivity|]. split; [|auto].
    intros h' Hh' Hty'. exfalso.
    apply (filter_empty_not _ hints h' Efm Hh' Hty'). }
  assert (Hnf : ∀ h', h' ∈ hints → type (h_toStack h') ≠ foundation)
    by (intros h' Hh'; apply (filter_empty_not _ hints h' Efm Hh')).
  assert (Hnl : ∀ h', h' ∈ hints → h_type h' ≠ Some "flip")
    by (intros h' Hh'; apply (filter_empty_not _ hints h' Efl Hh')).
  destruct (bool_decide (0 < length tm)%nat) eqn:Etm.
  - apply bool_decide_eq_true in Etm.
    match goal with
    | |- context [if bool_decide ?P then _ else _] =>
        destruct (bool_decide P) eqn:Eem
    end.
    + apply bool_decide_eq_true in Eem.
      destruct (spreadFirst_picks "card_move" _ hints Eem)
        as (h & Hhd & Hin & ->).
      { intros h Hh. apply list_elem_of_filter in Hh as [_ Hh].
        apply list_elem_of_filter in Hh as [_ Hh]. exact Hh. }
      apply head_filter in Hhd as [Hht Hemp].
      apply list_elem_of_filter in Hht as [Hty _].
      apply length_zero_iff_nil in Hemp.
      exists h. split; [exact Hin|]. split; [reflexivity|].
      split; [intros h' Hh' Hty'; destruct (Hnf h' Hh' Hty')|].
      split; [intros h' Hh' Hty'; destruct (Hnl h' Hh' Hty')|].
      split; [auto|]. intros h' _ _ _. right. right. auto.
    + assert (Hnone : ∀ h', h' ∈ hints → type (h_toStack h') = tableau →
                cards w (h_toStack h') = [] → False).
      { intros h' Hh' Hty' Hemp.
        apply (filter_empty_not _ tm h' Eem).
        - apply list_elem_of_filter. auto.
        - rewrite Hemp. reflexivity. }
      match goal with
      | |- context [if bool_decide ?P then _ else _] =>
          destruct (bool_decide P) eqn:Eub
      end.
      * apply bool_decide_eq_true in Eub.
        destruct (spreadFirst_picks "card_move" _ hints Eub)
          as (h & Hhd & Hin & ->).
        { intros h Hh. apply list_elem_of_filter in Hh as [_ Hh].
          apply list_elem_of_filter in Hh as [_ Hh]. exact Hh. }
        apply head_filter in Hhd as [Hht Hub].
        apply list_elem_of_filter in Hht as [Hty _].
        exists h. split; [exact Hin|]. split; [reflexivity|].
        split; [intros h' Hh' Hty'; destruct (Hnf h' Hh' Hty')|].
        split; [intros h' Hh' Hty'; destruct (Hnl h' Hh' Hty')|].
        split; [intros h' Hh' Hty' Hemp; destruct (Hnone h' Hh' Hty' Hemp)|].
        intros h' _ _ _. right. right. auto.
      * destruct (spreadFirst_picks "card_move" tm hints Etm)
          as (h & Hhd & Hin & ->).
        { intros h Hh. apply list_elem_of_filter in Hh as [_ Hh]. exact Hh. }
        exists h. split; [exact Hin|]. split; [reflexivity|].
        split; [intros h' Hh' Hty'; destruct (Hnf h' Hh' Hty')|].
        split; [intros h' Hh' Hty'; destruct (Hnl h' Hh' Hty')|].
        split; [intros h' Hh' Hty' Hemp; destruct (Hnone h' Hh' Hty' Hemp)|].
        intros h' Hh' Hty' Hub. exfalso.
        apply (filter_empty_not _ tm h' Eub); [|exact Hub].
        apply list_elem_of_filter. auto.
  - assert (Hlen : (0 < length hints)%nat)
      by (destruct hints; [contradiction | simpl; lia]).
    destruct (spreadFirst_picks "card_move" hints hints Hlen)
      as (h & Hhd & Hin & ->); [auto|].
    exists h. split; [exact Hin|]. split; [reflexivity|].
    split; [intros h' Hh' Hty'; destruct (Hnf h' Hh' Hty')|].
    split; [intros h' Hh' Hty'; destruct (Hnl h' Hh' Hty')|].
    split; intros h' Hh' Hty' _; exfalso;
      apply (filter_empty_not _ hints h' Etm Hh' Hty').
Qed.

Lemma suggestion_follows_priorities_witness :
  ∃ h, h ∈ GameLogic.findHints GameController.getAllStacks ex_board
       ∧ type (h_toStack h) = foundation.
Proof.
  destruct (suggestion_follows_priorities GameController.getAllStacks
              ex_board) as (h & Hin & _ & Hfound & _).
  { intros E. vm_compute in E. discriminate. }
  exists h. split; [exact Hin|].
  apply (Hfound (mkHint three_hearts ex_T1 ex_F0 None)); [|reflexivity].
  apply list_elem_of_In. vm_compute. left. reflexivity.
Defined.

(** ** GameLogic: hints can be played *)

Lemma move_hint_valid (allStacks : list CardStack) (w : World) (h : Hint) :
  GameState.isPlaying (gameState w) = true →
  move_hint allStacks w h →
  GameLogic.validateMove (h_card h) (h_fromStack h) (h_toStack h) w = true.
Proof.
  intros Hp (_ & _ & _ & _ & _ & Hty & _ & Hup & Hacc).
  unfold GameLogic.validateMove. rewrite Hp, Hup. cbn [negb].
  unfold CardStack.canAcceptCard in Hacc.
  rewrite canMoveToFoundation_eq, canMoveToTableau_eq.
  destruct Hty as [E|E]; rewrite E in *; exact Hacc.
Qed.

(** X15.  Every hint of [findHints] is of one of two kinds.  A move hint
    names the face-up top card of a stack other than a foundation and a
    different stack, foundation or tableau column, that accepts it; while
    the game is being played, [executeSingleCardMove] carries it out.  A
    flip hint names the face-down top card of a tableau column;
    [executeCardFlip] turns it, and it is refused as a move. *)
Theorem hints_can_be_played (allStacks : list CardStack) (w : World)
    (h : Hint) :
  h ∈ GameLogic.findHints allStacks w →
  (move_hint allStacks w h
   ∧ (GameState.isPlaying (gameState w) = true →
      (GameLogic.executeSingleCardMove
         (h_card h) (h_fromStack h) (h_toStack h) w).1 = true))
  ∨ (flip_hint allStacks w h
     ∧ (GameLogic.executeCardFlip (h_card h) w).1 = true
     ∧ GameLogic.executeSingleCardMove
         (h_card h) (h_fromStack h) (h_toStack h) w = (false, w)).
Proof.
  intros Hh. destruct (findHints_elem allStacks w h Hh) as [Hm|Hf].
  - left. split; [exact Hm|]. intros Hp.
    apply executeSingleCardMove_valid.
    apply (move_hint_valid allStacks); assumption.
  - right. split; [exact Hf|].
    destruct Hf as (_ & _ & _ & Hup & _). split.
    + destruct (executeCardFlip_down (h_card h) w Hup) as (md & ->).
      reflexivity.
    + unfold GameLogic.executeSingleCardMove. rewrite bind_run.
      unfold gets. cbn [fst snd].
      rewrite (validateMove_rejects (h_card h) (h_fromStack h)
                 (h_toStack h) w) by (right; left; exact Hup).
      reflexivity.
Qed.

Lemma hints_can_be_played_witness :
  (GameLogic.executeSingleCardMove three_hearts ex_T1 ex_F0 ex_board).1
  = true.
Proof.
  destruct (hints_can_be_played GameController.getAllStacks ex_board
              (mkHint three_hearts ex_T1 ex_F0 None)) as [[_ H]|[Hf _]].
  - apply list_elem_of_In. vm_compute. left. reflexivity.
  - apply H. reflexivity.
  - destruct Hf as (Hty & _). discriminate Hty.
Defined.

(** ** GameLogic: completion and the analysis counters *)

Lemma foldl_card_count (w : World) (l : list CardStack) (acc : Z) :
  foldl (λ sum stack, sum + CardStack.getCardCount stack w) acc l
  = acc + Z.of_nat (length (l ≫= cards w)).
Proof.
  revert acc. induction l as [|s l IH]; intros acc.
  - simpl. lia.
  - cbn [foldl]. rewrite IH, bind_cons, length_app.
    unfold CardStack.getCardCount. lia.
Qed.

Lemma foundation_ordered_top (l : list Card) :
  foundation_ordered l →
  (length l ≤ 13)%nat
  ∧ ((length l = 13)%nat → ∃ k, last l = Some k ∧ rank k = RK).
Proof.
  intros Ho. destruct (last l) as [k|] eqn:El.
  - pose proof El as Hk. rewrite last_lookup in Hk.
    destruct (Ho _ _ Hk) as [Hv _]. pose proof (getValue_range k).
    assert (length l ≠ 0)%nat by (destruct l; [discriminate | simpl; lia]).
    split; [lia|]. intros E. exists k. split; [reflexivity|].
    apply getValue_king. lia.
  - apply last_None in El as ->. simpl. split; [lia | intros; lia].
Qed.

(** X16.  [isGameComplete] counts the cards lying on the given stacks and
    compares with 52.  For four foundations that are each in order this
    holds exactly when every one of them carries thirteen cards with a
    king on top. *)
Theorem complete_iff_foundations_full (foundationStacks : list CardStack)
    (w : World) :
  (GameLogic.isGameComplete foundationStacks w = true
   ↔ length (foundationStacks ≫= cards w) = 52%nat)
  ∧ (length foundationStacks = 4%nat →
     (∀ s, s ∈ foundationStacks → foundation_ordered (cards w s)) →
     (GameLogic.isGameComplete foundationStacks w = true
      ↔ ∀ s, s ∈ foundationStacks →
          length (cards w s) = 13%nat
          ∧ ∃ k, CardStack.getTopCard s w = Some k ∧ rank k = RK)).
Proof.
  assert (Hcount : GameLogic.isGameComplete foundationStacks w = true
                   ↔ length (foundationStacks ≫= cards w) = 52%nat).
  { unfold GameLogic.isGameComplete, TOTAL_CARDS. cbv zeta.
    rewrite foldl_card_count, bool_decide_eq_true. lia. }
  split; [exact Hcount|]. intros Hlen Hord. rewrite Hcount.
  destruct foundationStacks as [|a [|b [|c [|d [|e l]]]]];
    try discriminate Hlen.
  assert (Ha := foundation_ordered_top _
                  (Hord a ltac:(repeat constructor))).
  assert (Hb := foundation_ordered_top _
                  (Hord b ltac:(repeat constructor))).
  assert (Hc := foundation_ordered_top _
                  (Hord c ltac:(repeat constructor))).
  assert (Hd := foundation_ordered_top _
                  (Hord d ltac:(repeat constructor))).
  rewrite !bind_cons, !length_app.
  change (length ([] ≫= cards w)) with 0%nat.
  unfold CardStack.getTopCard. split.
  - intros Hsum s Hs.
    assert (length (cards w s) = 13%nat) as E.
    { repeat (apply elem_of_cons in Hs as [->|Hs]); try lia.
      apply not_elem_of_nil in Hs. contradiction. }
    split; [exact E|].
    repeat (apply elem_of_cons in Hs as [->|Hs]);
      try (apply not_elem_of_nil in Hs; contradiction).
    + apply Ha, E.
    + apply Hb, E.
    + apply Hc, E.
    + apply Hd, E.
  - intros Hall.
    destruct (Hall a ltac:(repeat constructor)) as [-> _].
    destruct (Hall b ltac:(repeat constructor)) as [-> _].
    destruct (Hall c ltac:(repeat constructor)) as [-> _].
    destruct (Hall d ltac:(repeat constructor)) as [-> _].
    reflexivity.
Qed.

Lemma suit_pile_ordered (base : nat) (s : Suit) :
  foundation_ordered (suit_pile base s).
Proof.
  intros i c H.
  do 13 (destruct i as [|i];
         [injection H as <-; split;
          [reflexivity | intros c0 Hc0; injection Hc0 as <-; reflexivity]|]).
  discriminate H.
Qed.

Lemma complete_iff_foundations_full_witness :
  length (cards ex_won ex_F0) = 13%nat
  ∧ ∃ k, CardStack.getTopCard ex_F0 ex_won = Some k ∧ rank k = RK.
Proof.
  apply (complete_iff_foundations_full GameController.foundationStacks
           ex_won).
  - reflexivity.
  - intros s Hs.
    repeat (apply elem_of_cons in Hs as [->|Hs]);
      try apply suit_pile_ordered.
    apply not_elem_of_nil in Hs. contradiction.
  - reflexivity.
  - apply elem_of_cons. left. reflexivity.
Defined.

Lemma analyzeCards_spec (stack : CardStack) (w : World) (l : list Card) :
  ∀ a,
    let a' := foldl (GameLogic.analyzeCard stack w) a l in
    GameLogic.a_totalCards a' = GameLogic.a_totalCards a
    ∧ GameLogic.a_foundationCards a' = GameLogic.a_foundationCards a
    ∧ GameLogic.a_faceUpCards a'
      = GameLogic.a_faceUpCards a
        + Z.of_nat (length (filter (λ c, faceUp w c = true) l))
    ∧ GameLogic.a_blockedCards a'
      = GameLogic.a_blockedCards a
        + Z.of_nat (length (filter (λ c, faceUp w c = false) l))
    ∧ GameLogic.a_availableCards a ≤ GameLogic.a_availableCards a'
    ∧ GameLogic.a_availableCards a' - GameLogic.a_availableCards a
      ≤ GameLogic.a_faceUpCards a' - GameLogic.a_faceUpCards a.
Proof.
  induction l as [|c l IH]; intros a; cbv zeta.
  - cbn [foldl]. rewrite !filter_nil. simpl. lia.
  - cbn [foldl].
    destruct (IH (GameLogic.analyzeCard stack w a c))
      as (I1 & I2 & I3 & I4 & I5 & I6).
    rewrite I1, I2, I3, I4. rewrite !filter_cons.
    unfold GameLogic.analyzeCard in *.
    destruct (faceUp w c) eqn:Hup.
    + rewrite decide_True by reflexivity.
      rewrite decide_False by discriminate.
      destruct (bool_decide (CardStack.getTopCard stack w = Some c));
        cbn [GameLogic.a_totalCards GameLogic.a_foundationCards
             GameLogic.a_faceUpCards GameLogic.a_blockedCards
             GameLogic.a_availableCards] in *;
        rewrite length_cons; lia.
    + rewrite decide_False by discriminate.
      rewrite decide_True by reflexivity.
      cbn [GameLogic.a_totalCards GameLogic.a_foundationCards
           GameLogic.a_faceUpCards GameLogic.a_blockedCards
           GameLogic.a_availableCards] in *.
      rewrite length_cons. lia.
Qed.

Lemma analyzeStack_spec (w : World) (a : GameLogic.GameAnalysis)
    (s : CardStack) :
  let a' := GameLogic.analyzeStack w a s in
  GameLogic.a_totalCards a'
  = GameLogic.a_totalCards a + Z.of_nat (length (cards w s))
  ∧ GameLogic.a_foundationCards a'
    = GameLogic.a_foundationCards a
      + (if bool_decide (type s = foundation)
         then Z.of_nat (length (cards w s)) else 0)
  ∧ GameLogic.a_faceUpCards a'
    = GameLogic.a_faceUpCards a
      + Z.of_nat (length (filter (λ c, faceUp w c = true) (cards w s)))
  ∧ GameLogic.a_blockedCards a'
    = GameLogic.a_blockedCards a
      + Z.of_nat (length (filter (λ c, faceUp w c = false) (cards w s)))
  ∧ GameLogic.a_availableCards a ≤ GameLogic.a_availableCards a'
  ∧ GameLogic.a_availableCards a' - GameLogic.a_availableCards a
    ≤ GameLogic.a_faceUpCards a' - GameLogic.a_faceUpCards a.
Proof.
  cbv zeta. unfold GameLogic.analyzeStack. cbv zeta.
  match goal with
  | |- context [foldl (GameLogic.analyzeCard s w) ?a0 (cards w s)] =>
      destruct (analyzeCards_spec s w (cards w s) a0)
        as (C1 & C2 & C3 & C4 & C5 & C6);
      set (a1 := foldl (GameLogic.analyzeCard s w) a0 (cards w s)) in *
  end.
  unfold CardStack.getCardCount in *.
  destruct (bool_decide (type s = foundation));
    cbn [GameLogic.a_totalCards GameLogic.a_foundationCards
         GameLogic.a_faceUpCards GameLogic.a_blockedCards
         GameLogic.a_availableCards] in *;
    lia.
Qed.

Lemma analyzeStacks_spec (w : World) (l : list CardStack) :
  ∀ a,
    let a' := foldl (GameLogic.analyzeStack w) a l in
    let all := l ≫= cards w in
    GameLogic.a_totalCards a'
    = GameLogic.a_totalCards a + Z.of_nat (length all)
    ∧ GameLogic.a_foundationCards a'
      = GameLogic.a_foundationCards a
        + Z.of_nat (length (filter (λ s, type s = foundation) l ≫= cards w))
    ∧ GameLogic.a_faceUpCards a'
      = GameLogic.a_faceUpCards a
        + Z.of_nat (length (filter (λ c, faceUp w c = true) all))
    ∧ GameLogic.a_blockedCards a'
      = GameLogic.a_blockedCards a
        + Z.of_nat (length (filter (λ c, faceUp w c = false) all))
    ∧ GameLogic.a_availableCards a ≤ GameLogic.a_availableCards a'
    ∧ GameLogic.a_availableCards a' - GameLogic.a_availableCards a
      ≤ GameLogic.a_faceUpCards a' - GameLogic.a_faceUpCards a.
Proof.
  induction l as [|s l IH]; intros a; cbv zeta.
  - cbn [foldl]. rewrite filter_nil. simpl. lia.
  - cbn [foldl].
    destruct (IH (GameLogic.analyzeStack w a s))
      as (I1 & I2 & I3 & I4 & I5 & I6).
    destruct (analyzeStack_spec w a s) as (S1 & S2 & S3 & S4 & S5 & S6).
    rewrite I1, I2, I3, I4. clear I1 I2 I4.
    rewrite bind_cons, !filter_app, !length_app, filter_cons.
    destruct (decide (type s = foundation)) as [E|E].
    + rewrite (bool_decide_eq_true_2 _ E) in S2.
      rewrite bind_cons, length_app. lia.
    + rewrite (bool_decide_eq_false_2 _ E) in S2. lia.
Qed.

(** X17.  The counters of [analyzeGame]: the total is the number of cards
    on the given stacks, split exactly into the face-up and the face-down
    ("blocked") ones; the foundation counter is the number of cards on the
    foundations among the stacks; the available cards are at most the
    face-up ones; the possible moves are the hints of [findHints]. *)
Theorem analysis_counts (allStacks : list CardStack) (w : World) :
  let a := GameLogic.analyzeGame allStacks w in
  let all := allStacks ≫= cards w in
  GameLogic.a_totalCards a = Z.of_nat (length all)
  ∧ GameLogic.a_faceUpCards a
    = Z.of_nat (length (filter (λ c, faceUp w c = true) all))
  ∧ GameLogic.a_blockedCards a
    = Z.of_nat (length (filter (λ c, faceUp w c = false) all))
  ∧ GameLogic.a_faceUpCards a + GameLogic.a_blockedCards a
    = GameLogic.a_totalCards a
  ∧ GameLogic.a_foundationCards a
    = Z.of_nat (length (filter (λ s, type s = foundation) allStacks
                        ≫= cards w))
  ∧ 0 ≤ GameLogic.a_availableCards a ≤ GameLogic.a_faceUpCards a
  ∧ GameLogic.a_possibleMoves a
    = Z.of_nat (length (GameLogic.findHints allStacks w)).
Proof.
  cbv zeta. unfold GameLogic.analyzeGame. cbv zeta.
  destruct (analyzeStacks_spec w allStacks
              (GameLogic.mkAnalysis 0 0 0 0 0 0))
    as (I1 & I2 & I3 & I4 & I5 & I6).
  cbn [GameLogic.a_totalCards GameLogic.a_foundationCards
       GameLogic.a_faceUpCards GameLogic.a_blockedCards
       GameLogic.a_availableCards GameLogic.a_possibleMoves] in *.
  assert (Hsplit : ∀ l : list Card,
            (length (filter (λ c, faceUp w c = true) l)
             + length (filter (λ c, faceUp w c = false) l) = length l)%nat).
  { induction l as [|c l IH]; [reflexivity|].
    rewrite !filter_cons.
    destruct (faceUp w c) eqn:Hup.
    - rewrite decide_True by reflexivity.
      rewrite decide_False by discriminate. simpl. lia.
    - rewrite decide_False by discriminate.
      rewrite decide_True by reflexivity. simpl. lia. }
  specialize (Hsplit (allStacks ≫= cards w)).
  repeat split; try lia.
Qed.

(** ** GameLogic: the unblocking helpers *)

Lemma indexOf_lookup (c : Card) (l : list Card) (i : nat) :
  indexOf c l = Some i → l !! i = Some c.
Proof.
  revert i. induction l as [|x l IH]; intros i; simpl; [discriminate|].
  destruct (decide (x = c)) as [->|Hne].
  - intros [= <-]. reflexivity.
  - destruct (indexOf c l) as [j|]; [|discriminate].
    intros [= <-]. simpl. apply IH. reflexivity.
Qed.

Lemma validateMultiCardMove_face_down (c : Card) (l : list Card)
    (s t : CardStack) (w : World) :
  faceUp w c = false →
  GameLogic.validateMultiCardMove (c :: l) s t w = false.
Proof.
  intros Hup. unfold GameLogic.validateMultiCardMove.
  destruct (bool_decide (type s ≠ tableau)); [reflexivity|].
  destruct (negb (GameLogic.areCardsSequential (c :: l) w)); [reflexivity|].
  apply validateMove_rejects. right. left. exact Hup.
Qed.

Lemma blocked_run_invalid (c : Card) (s t : CardStack) (w : World) :
  faceUp w c = false →
  GameLogic.validateMultiCardMove
    (CardStack.getCardsFromIndex s (GameLogic.indexOfZ c (cards w s)) w)
    s t w = false.
Proof.
  intros Hup. unfold CardStack.getCardsFromIndex, GameLogic.indexOfZ.
  destruct (indexOf c (cards w s)) as [i|] eqn:Ei.
  - apply indexOf_lookup in Ei.
    assert (Hlt : (i < length (cards w s))%nat)
      by (apply lookup_lt_is_Some; eauto).
    rewrite (bool_decide_eq_false_2 (Z.of_nat i < 0)) by lia.
    rewrite bool_decide_eq_false_2 by lia. cbn [orb].
    rewrite Nat2Z.id, (drop_S _ _ _ Ei).
    destruct (bool_decide (type s = tableau)).
    + unfold CardStack.getValidSequence.
      destruct (bool_decide _);
        apply validateMultiCardMove_face_down; exact Hup.
    + apply validateMultiCardMove_face_down. exact Hup.
  - rewrite (bool_decide_eq_true_2 (-1 < 0)) by lia. reflexivity.
Qed.

Lemma tryUnblockOnto_noop (b : GameLogic.BlockedCard) (t : CardStack)
    (w : World) :
  faceUp w (GameLogic.b_card b) = false →
  GameLogic.tryUnblockOnto b t w = ((), w).
Proof.
  intros Hup. unfold GameLogic.tryUnblockOnto.
  destruct (bool_decide (t ≠ GameLogic.b_stack b)); [|reflexivity].
  rewrite !bind_run. unfold gets. cbn [fst snd].
  rewrite (blocked_run_invalid _ _ t w Hup). reflexivity.
Qed.

Lemma forEach_noop {A} (l : list A) (f : A → State unit) (w : World) :
  (∀ x, x ∈ l → f x w = ((), w)) → forEach l f w = ((), w).
Proof.
  induction l as [|x l IH]; intros Hall; [reflexivity|].
  simpl forEach. rewrite bind_run.
  rewrite (Hall x) by (apply elem_of_cons; left; reflexivity).
  cbn [fst snd]. apply IH. intros y Hy. apply Hall.
  apply elem_of_cons. right. exact Hy.
Qed.

Lemma tryUnblockSpecificCards_noop (blocked : list GameLogic.BlockedCard)
    (allStacks : list CardStack) (w : World) :
  (∀ b, b ∈ blocked → faceUp w (GameLogic.b_card b) = false) →
  GameLogic.tryUnblockSpecificCards blocked allStacks w = ((), w).
Proof.
  intros Hall. unfold GameLogic.tryUnblockSpecificCards. cbv zeta.
  apply forEach_noop. intros b Hb. apply forEach_noop. intros t _.
  apply tryUnblockOnto_noop, Hall, Hb.
Qed.

Lemma findBlockedCards_face_down (ts : list CardStack) (w : World)
    (b : GameLogic.BlockedCard) :
  b ∈ GameLogic.findBlockedCards ts w →
  faceUp w (GameLogic.b_card b) = false
  ∧ GameLogic.b_stack b ∈ ts
  ∧ cards w (GameLogic.b_stack b) !! GameLogic.b_index b
    = Some (GameLogic.b_card b)
  ∧ (GameLogic.b_index b < length (cards w (GameLogic.b_stack b)) - 1)%nat.
Proof.
  unfold GameLogic.findBlockedCards. intros Hb.
  apply list_elem_of_bind in Hb as (s & Hb & Hs).
  apply list_elem_of_bind in Hb as ([i c] & Hb & Hp).
  apply elem_of_lookup_imap in Hp as (i' & c' & [= -> ->] & Hl).
  cbn [fst snd] in Hb.
  destruct (faceUp w c') eqn:Hup; cbn [negb andb] in Hb;
    [apply not_elem_of_nil in Hb; contradiction|].
  destruct (bool_decide _) eqn:Ei in Hb;
    [|apply not_elem_of_nil in Hb; contradiction].
  apply bool_decide_eq_true in Ei.
  apply list_elem_of_singleton in Hb as ->.
  cbn [GameLogic.b_card GameLogic.b_stack GameLogic.b_index].
  repeat split; auto. lia.
Qed.

(** X18.  The cards [findBlockedCards] reports are face-down cards of the
    tableau columns that lie below the top.  [tryUnblockSpecificCards]
    never moves anything for face-down cards: every run it builds starts
    with the blocked card and is refused.  Hence [preventGameBlock] leaves
    the store exactly as [executeAllCardFlips] does, with every stack
    unchanged, and returns true exactly when a card was turned or a
    blocked card is left. *)
Theorem unblocking_moves_nothing (allStacks : list CardStack) (w : World) :
  let ts := filter (λ s, type s = tableau) allStacks in
  let flips := GameLogic.executeAllCardFlips ts w in
  let r := GameLogic.preventGameBlock allStacks w in
  (∀ blocked,
     (∀ b, b ∈ blocked → faceUp w (GameLogic.b_card b) = false) →
     GameLogic.tryUnblockSpecificCards blocked allStacks w = ((), w))
  ∧ (∀ b, b ∈ GameLogic.findBlockedCards ts w →
       faceUp w (GameLogic.b_card b) = false
       ∧ GameLogic.b_stack b ∈ ts
       ∧ (GameLogic.b_index b
          < length (cards w (GameLogic.b_stack b)) - 1)%nat)
  ∧ r.2 = flips.2
  ∧ cards r.2 = cards w
  ∧ (r.1 = true ↔
     0 < flips.1 ∨ GameLogic.findBlockedCards ts flips.2 ≠ []).
Proof.
  cbv zeta.
  set (ts := filter (λ s, type s = tableau) allStacks).
  split; [intros blocked; apply tryUnblockSpecificCards_noop|].
  split.
  { intros b Hb.
    destruct (findBlockedCards_face_down ts w b Hb) as (H1 & H2 & _ & H4).
    auto. }
  assert (Hrun : GameLogic.preventGameBlock allStacks w
            = (bool_decide (0 < (GameLogic.executeAllCardFlips ts w).1)
               || bool_decide
                    (0 < length
                           (GameLogic.findBlockedCards ts
                              (GameLogic.executeAllCardFlips ts w).2))%nat,
               (GameLogic.executeAllCardFlips ts w).2)).
  { unfold GameLogic.preventGameBlock. cbv zeta. fold ts.
    rewrite bind_run.
    set (flips := GameLogic.executeAllCardFlips ts w).
    rewrite bind_run. unfold gets. cbn [fst snd]. rewrite bind_run.
    destruct (bool_decide
                (0 < length (GameLogic.findBlockedCards ts flips.2))%nat);
      [|reflexivity].
    rewrite tryUnblockSpecificCards_noop; [reflexivity|].
    intros b Hb. apply (findBlockedCards_face_down ts _ b Hb). }
  rewrite Hrun. cbn [fst snd].
  split; [reflexivity|].
  split; [apply (flips_frame ts w)|].
  rewrite orb_true_iff, !bool_decide_eq_true.
  split; (intros [H|H]; [left; exact H | right]).
  - intros E. rewrite E in H. simpl in H. lia.
  - destruct (GameLogic.findBlockedCards ts _); [contradiction | simpl; lia].
Qed.

Lemma unblocking_moves_nothing_witness :
  GameLogic.tryUnblockSpecificCards
    [GameLogic.mkBlocked four_hearts ex_T1 0] GameController.getAllStacks
    ex_board
  = ((), ex_board).
Proof.
  apply (unblocking_moves_nothing GameController.getAllStacks ex_board).
  intros b Hb. apply list_elem_of_singleton in Hb as ->. reflexivity.
Defined.

Lemma drawCard_grows (stockStack wasteStack : CardStack)
    (drawn : list Card) (w : World) :
  (length drawn
   ≤ length (GameLogic.drawCard stockStack wasteStack drawn w).1)%nat.
Proof.
  destruct (CardStack.getTopCard stockStack w) as [c|] eqn:Etop.
  - rewrite (drawCard_top _ _ _ _ _ Etop). cbn [fst].
    rewrite length_app. lia.
  - unfold GameLogic.drawCard. rewrite bind_run. unfold gets.
    cbn [fst snd]. rewrite Etop. reflexivity.
Qed.

Lemma repeatM_draw_grows (stockStack wasteStack : CardStack) (n : nat) :
  ∀ (drawn : list Card) (w : World),
    (length drawn
     ≤ length (repeatM n (GameLogic.drawCard stockStack wasteStack)
                 drawn w).1)%nat.
Proof.
  induction n as [|n IH]; intros drawn w; [reflexivity|].
  simpl repeatM. rewrite bind_run.
  etransitivity; [apply (drawCard_grows stockStack wasteStack drawn w)|].
  apply IH.
Qed.

Lemma drawFromStock_draws (stockStack wasteStack : CardStack) (w : World) :
  cards w stockStack ≠ [] →
  1 ≤ drawCount (GameState.settings (gameState w)) →
  (0 < length (GameLogic.drawFromStock stockStack wasteStack w).1)%nat.
Proof.
  intros Hne Hdc. rewrite (drawFromStock_nonempty _ _ _ Hne).
  cbv zeta. cbn [fst].
  assert (Hlen : (0 < length (cards w stockStack))%nat)
    by (destruct (cards w stockStack); [contradiction | simpl; lia]).
  destruct (Z.to_nat (Z.min (drawCount (GameState.settings (gameState w)))
                        (Z.of_nat (length (cards w stockStack)))))
    as [|n] eqn:En; [lia|].
  simpl repeatM. rewrite bind_run.
  destruct (last_nonempty _ Hne) as (c & Hc).
  rewrite (drawCard_top stockStack wasteStack [] w c Hc). cbn [fst snd].
  eapply Nat.lt_le_trans; [|apply repeatM_draw_grows]. simpl. lia.
Qed.

Lemma recycleWasteToStock_result (stockStack wasteStack : CardStack)
    (w : World) :
  cards w wasteStack ≠ [] →
  (GameLogic.recycleWasteToStock stockStack wasteStack w).1
  = reverse (cards w wasteStack).
Proof.
  intros Hw. apply isEmpty_false in Hw.
  unfold GameLogic.recycleWasteToStock, GameLogic.recordMove.
  unfold_state. cbv beta iota zeta. rewrite Hw.
  destruct (forEach _ _ _) as [u w']. reflexivity.
Qed.

Lemma tryUnblockGame_no_flip (allStacks : list CardStack) (w : World)
    (s ws : CardStack) :
  first_of_type stock allStacks = Some s →
  first_of_type waste allStacks = Some ws →
  GameLogic.findCardsToFlip (filter (λ s, type s = tableau) allStacks) w
  = [] →
  GameLogic.tryUnblockGame allStacks w =
  if negb (CardStack.isEmpty s w)
     && bool_decide (0 < length (GameLogic.drawFromStock s ws w).1)%nat
  then (true, (GameLogic.drawFromStock s ws w).2)
  else
    let w1 := if CardStack.isEmpty s w then w
              else (GameLogic.drawFromStock s ws w).2 in
    if negb (CardStack.isEmpty ws w1)
    then
      (bool_decide (0 < length (GameLogic.recycleWasteToStock s ws w1).1)%nat,
       (GameLogic.recycleWasteToStock s ws w1).2)
    else (false, w1).
Proof.
  unfold first_of_type. intros Hs Hws Hflip.
  unfold GameLogic.tryUnblockGame, GameLogic.executeAllCardFlips.
  cbv zeta. rewrite Hs, Hws. unfold_state. cbv beta iota zeta.
  rewrite Hflip. cbn [GameLogic.flipLoop]. unfold_state.
  rewrite (bool_decide_eq_false_2 (0 < 0)) by lia.
  destruct (CardStack.isEmpty s w); cbn [negb andb].
  - destruct (CardStack.isEmpty ws w); cbn [negb andb]; [reflexivity|].
    destruct (GameLogic.recycleWasteToStock s ws w) as [l w1].
    cbn [fst snd]. destruct (bool_decide _); reflexivity.
  - destruct (GameLogic.drawFromStock s ws w) as [l w1]. cbn [fst snd].
    destruct (bool_decide _); [reflexivity|].
    destruct (CardStack.isEmpty ws w1); cbn [negb andb]; [reflexivity|].
    destruct (GameLogic.recycleWasteToStock s ws w1) as [l' w2].
    cbn [fst snd]. destruct (bool_decide _); reflexivity.
Qed.

Lemma flips_count_pos (ts : list CardStack) (w : World) :
  GameLogic.findCardsToFlip ts w ≠ [] →
  0 < (GameLogic.executeAllCardFlips ts w).1.
Proof.
  intros Hne. rewrite executeAllCardFlips_unfold.
  apply (flipLoop_spec (GameLogic.findCardsToFlip ts w) 0 w).
  destruct (GameLogic.findCardsToFlip ts w) as [|c l] eqn:E;
    [contradiction|].
  exists c. split; [apply elem_of_cons; left; reflexivity|].
  assert (Hc : c ∈ GameLogic.findCardsToFlip ts w)
    by (rewrite E; apply elem_of_cons; left; reflexivity).
  apply findCardsToFlip_elem in Hc as (s & _ & _ & Hup). exact Hup.
Qed.

Lemma tryUnblockGame_flip (allStacks : list CardStack) (w : World) :
  let ts := filter (λ s, type s = tableau) allStacks in
  GameLogic.findCardsToFlip ts w ≠ [] →
  GameLogic.tryUnblockGame allStacks w
  = (true, (GameLogic.executeAllCardFlips ts w).2).
Proof.
  cbv zeta. intros Hne. unfold GameLogic.tryUnblockGame. cbv zeta.
  rewrite bind_run.
  rewrite bool_decide_eq_true_2 by (apply flips_count_pos; exact Hne).
  reflexivity.
Qed.

(** X19.  [tryUnblockGame] on a collection with a stock and a waste and a
    draw count of at least one takes the first step that applies and no
    other: it turns the covered top cards if there are any; otherwise it
    draws if the stock holds a card; otherwise it recycles the waste if
    that holds a card.  It returns false exactly when none applies, and
    then the store is unchanged. *)
Theorem unblock_takes_first_step (allStacks : list CardStack) (w : World)
    (s ws : CardStack) :
  first_of_type stock allStacks = Some s →
  first_of_type waste allStacks = Some ws →
  1 ≤ drawCount (GameState.settings (gameState w)) →
  let ts := filter (λ s, type s = tableau) allStacks in
  let r := GameLogic.tryUnblockGame allStacks w in
  (GameLogic.findCardsToFlip ts w ≠ [] →
     r = (true, (GameLogic.executeAllCardFlips ts w).2))
  ∧ (GameLogic.findCardsToFlip ts w = [] → cards w s ≠ [] →
     r = (true, (GameLogic.drawFromStock s ws w).2))
  ∧ (GameLogic.findCardsToFlip ts w = [] → cards w s = [] →
     cards w ws ≠ [] →
     r = (true, (GameLogic.recycleWasteToStock s ws w).2))
  ∧ (r.1 = false ↔
     GameLogic.findCardsToFlip ts w = [] ∧ cards w s = [] ∧ cards w ws = [])
  ∧ (r.1 = false → r.2 = w).
Proof.
  intros Hs Hws Hdc. cbv zeta.
  set (ts := filter (λ s, type s = tableau) allStacks).
  assert (Hdraw : GameLogic.findCardsToFlip ts w = [] → cards w s ≠ [] →
            GameLogic.tryUnblockGame allStacks w
            = (true, (GameLogic.drawFromStock s ws w).2)).
  { intros Hf Hne.
    rewrite (tryUnblockGame_no_flip allStacks w s ws Hs Hws Hf).
    rewrite (proj2 (isEmpty_false s w) Hne). cbn [negb andb].
    rewrite bool_decide_eq_true_2
      by (apply drawFromStock_draws; assumption).
    reflexivity. }
  assert (Hrec : GameLogic.findCardsToFlip ts w = [] → cards w s = [] →
            cards w ws ≠ [] →
            GameLogic.tryUnblockGame allStacks w
            = (true, (GameLogic.recycleWasteToStock s ws w).2)).
  { intros Hf He Hne.
    rewrite (tryUnblockGame_no_flip allStacks w s ws Hs Hws Hf).
    rewrite (proj2 (isEmpty_true s w) He). cbn [negb andb]. cbv zeta.
    rewrite (proj2 (isEmpty_false ws w) Hne). cbn [negb].
    rewrite bool_decide_eq_true_2; [reflexivity|].
    rewrite (recycleWasteToStock_result s ws w Hne), length_reverse.
    destruct (cards w ws); [contradiction | simpl; lia]. }
  assert (Hnone : GameLogic.findCardsToFlip ts w = [] → cards w s = [] →
            cards w ws = [] →
            GameLogic.tryUnblockGame allStacks w = (false, w)).
  { intros Hf He Hwe.
    rewrite (tryUnblockGame_no_flip allStacks w s ws Hs Hws Hf).
    rewrite (proj2 (isEmpty_true s w) He). cbn [negb andb]. cbv zeta.
    rewrite (proj2 (isEmpty_true ws w) Hwe). reflexivity. }
  split; [apply (tryUnblockGame_flip allStacks w)|].
  split; [exact Hdraw|]. split; [exact Hrec|].
  assert (Hcases : GameLogic.findCardsToFlip ts w ≠ []
                   ∨ GameLogic.findCardsToFlip ts w = []).
  { destruct (GameLogic.findCardsToFlip ts w); [right | left]; congruence. }
  assert (Hs' : cards w s ≠ [] ∨ cards w s = [])
    by (destruct (cards w s); [right | left]; congruence).
  assert (Hw' : cards w ws ≠ [] ∨ cards w ws = [])
    by (destruct (cards w ws); [right | left]; congruence).
  split.
  - split.
    + intros Hr. destruct Hcases as [Hf|Hf].
      { rewrite (tryUnblockGame_flip allStacks w Hf) in Hr. discriminate. }
      destruct Hs' as [Hn|He].
      { rewrite (Hdraw Hf Hn) in Hr. discriminate. }
      destruct Hw' as [Hn|Hwe].
      { rewrite (Hrec Hf He Hn) in Hr. discriminate. }
      auto.
    + intros (Hf & He & Hwe). rewrite (Hnone Hf He Hwe). reflexivity.
  - intros Hr. destruct Hcases as [Hf|Hf].
    { rewrite (tryUnblockGame_flip allStacks w Hf) in Hr. discriminate. }
    destruct Hs' as [Hn|He].
    { rewrite (Hdraw Hf Hn) in Hr. discriminate. }
    destruct Hw' as [Hn|Hwe].
    { rewrite (Hrec Hf He Hn) in Hr. discriminate. }
    rewrite (Hnone Hf He Hwe). reflexivity.
Qed.

Lemma unblock_takes_first_step_witness :
  GameLogic.tryUnblockGame GameController.getAllStacks ex_stock_only
  = (true,
     (GameLogic.drawFromStock GameController.stockStack
        GameController.wasteStack ex_stock_only).2).
Proof.
  assert (Hd : 1 ≤ drawCount (GameState.settings (gameState ex_stock_only)))
    by (vm_compute; discriminate).
  destruct (unblock_takes_first_step GameController.getAllStacks
              ex_stock_only GameController.stockStack
              GameController.wasteStack eq_refl eq_refl Hd)
    as (_ & Hdraw & _).
  apply Hdraw; [reflexivity|]. intros E. vm_compute in E. discriminate.
Defined.

(** ** Deck and GameController: dealing a new game *)

Lemma alter_alter {A} (f g : A → A) (i : nat) (l : list A) :
  alter f i (alter g i l) = alter (λ x, f (g x)) i l.
Proof.
  revert i. induction l as [|x l IH]; intros [|i]; simpl; try reflexivity.
  f_equal. apply IH.
Qed.

Lemma flipAll_app (l k : list (Card * bool)) (w : World) :
  flipAll (l ++ k) w = flipAll k (flipAll l w).
Proof. unfold flipAll. apply foldl_app. Qed.

Lemma flipAll_frame (l : list (Card * bool)) (w : World) :
  cards (flipAll l w) = cards w
  ∧ currentStack (flipAll l w) = currentStack w
  ∧ gameState (flipAll l w) = gameState w.
Proof.
  revert w. induction l as [|p l IH]; intros w; [auto|].
  unfold flipAll in *. cbn [foldl].
  destruct (IH (set_faceUp p.1 p.2 w)) as (-> & -> & ->). auto.
Qed.

Lemma flipAll_other (l : list (Card * bool)) (w : World) (c : Card) :
  c ∉ l.*1 → faceUp (flipAll l w) c = faceUp w c.
Proof.
  revert w. induction l as [|p l IH]; intros w Hc; [reflexivity|].
  rewrite fmap_cons in Hc. apply not_elem_of_cons in Hc as [Hne Hc].
  unfold flipAll in *. cbn [foldl]. rewrite (IH _ Hc).
  cbn [set_faceUp faceUp]. apply fn_lookup_insert_ne. congruence.
Qed.

Lemma flipAll_lookup (l : list (Card * bool)) (w : World) (c : Card)
    (b : bool) :
  NoDup l.*1 → (c, b) ∈ l → faceUp (flipAll l w) c = b.
Proof.
  revert w. induction l as [|p l IH]; intros w Hnd Hin.
  - apply not_elem_of_nil in Hin. contradiction.
  - rewrite fmap_cons in Hnd. apply NoDup_cons in Hnd as [Hout Hnd].
    apply elem_of_cons in Hin as [<-|Hin].
    + change (flipAll ((c, b) :: l) w)
        with (flipAll l (set_faceUp c b w)).
      rewrite (flipAll_other l _ c Hout).
      cbn [set_faceUp faceUp]. apply fn_lookup_insert.
    + apply (IH (set_faceUp p.1 p.2 w) Hnd Hin).
Qed.

Lemma columnFaces_fst (row col : nat) (l : list Card) :
  (columnFaces row col l).*1 = l.
Proof.
  unfold columnFaces. revert row.
  induction l as [|c l IH]; intros row; [reflexivity|].
  rewrite imap_cons, fmap_cons. cbn [fst]. f_equal.
  rewrite <- (IH (S row)) at 2. f_equal. apply imap_ext.
  intros j x _. simpl. f_equal. apply bool_decide_ext. lia.
Qed.

Lemma dealColumn_eq (col : nat) (l : list Card) :
  ∀ (n row : nat) (rest : list Card) (tab : list (list Card)) (w : World),
    length l = n →
    Deck.dealColumn n row col (rest ++ reverse l) tab w =
    ((rest, alter (λ column, column ++ l) col tab),
     flipAll (columnFaces row col l) w).
Proof.
  induction l as [|c l IH]; intros n row rest tab w <-.
  - cbn [length Deck.dealColumn]. rewrite reverse_nil, app_nil_r.
    rewrite list_alter_id by (intros x; apply app_nil_r). reflexivity.
  - cbn [length Deck.dealColumn].
    rewrite reverse_cons, app_assoc, last_snoc, removelast_last.
    rewrite bind_run. unfold flip, modify at 1. cbn [fst snd].
    rewrite (IH (length l) (S row) rest _ _ eq_refl).
    rewrite alter_alter. f_equal.
    + f_equal. apply list_alter_ext; [|reflexivity].
      intros x _. rewrite <- app_assoc. reflexivity.
    + unfold columnFaces. rewrite imap_cons.
      change (flipAll (?p :: ?k) w) with (flipAll k (set_faceUp p.1 p.2 w)).
      cbn [fst snd]. rewrite Nat.add_0_r. f_equal.
      apply imap_ext. intros j x _. simpl. f_equal.
      apply bool_decide_ext. lia.
Qed.

Lemma dealStock_eq (deck : list Card) :
  ∀ (acc : list Card) (w : World),
    Deck.dealStock (length deck) deck acc w =
    (acc ++ reverse deck, flipAll ((λ c, (c, false)) <$> reverse deck) w).
Proof.
  induction deck as [|c deck IH] using rev_ind; intros acc w.
  - cbn [length Deck.dealStock]. rewrite reverse_nil, app_nil_r. reflexivity.
  - rewrite length_app, Nat.add_1_r. cbn [Deck.dealStock].
    rewrite last_snoc, removelast_last, bind_run.
    unfold flip, modify at 1. cbn [fst snd].
    rewrite IH, reverse_snoc, <- app_assoc, fmap_cons. reflexivity.
Qed.

Lemma dealColumns_eq (l0 l1 l2 l3 l4 l5 l6 ls : list Card) (w : World) :
  length l0 = 1%nat → length l1 = 2%nat → length l2 = 3%nat →
  length l3 = 4%nat → length l4 = 5%nat → length l5 = 6%nat →
  length l6 = 7%nat →
  Deck.dealColumns 7 0
    (reverse (l0 ++ l1 ++ l2 ++ l3 ++ l4 ++ l5 ++ l6 ++ ls))
    (replicate 7 []) w =
  ((reverse ls, [l0; l1; l2; l3; l4; l5; l6]),
   flipAll (mjoin (imap (λ k l, columnFaces 0 k l)
                     [l0; l1; l2; l3; l4; l5; l6])) w).
Proof.
  intros H0 H1 H2 H3 H4 H5 H6. cbn [Deck.dealColumns].
  rewrite reverse_app, bind_run, (dealColumn_eq 0 l0 1 0 _ _ _ H0).
  cbn [fst snd].
  rewrite reverse_app, bind_run, (dealColumn_eq 1 l1 2 0 _ _ _ H1).
  cbn [fst snd].
  rewrite reverse_app, bind_run, (dealColumn_eq 2 l2 3 0 _ _ _ H2).
  cbn [fst snd].
  rewrite reverse_app, bind_run, (dealColumn_eq 3 l3 4 0 _ _ _ H3).
  cbn [fst snd].
  rewrite reverse_app, bind_run, (dealColumn_eq 4 l4 5 0 _ _ _ H4).
  cbn [fst snd].
  rewrite reverse_app, bind_run, (dealColumn_eq 5 l5 6 0 _ _ _ H5).
  cbn [fst snd].
  rewrite reverse_app, bind_run, (dealColumn_eq 6 l6 7 0 _ _ _ H6).
  cbn [fst snd].
  cbn [imap mjoin list_join compose]. rewrite !flipAll_app.
  reflexivity.
Qed.

Lemma dealForSolitaire_eq (l0 l1 l2 l3 l4 l5 l6 ls : list Card) (w : World) :
  length l0 = 1%nat → length l1 = 2%nat → length l2 = 3%nat →
  length l3 = 4%nat → length l4 = 5%nat → length l5 = 6%nat →
  length l6 = 7%nat →
  Deck.dealForSolitaire
    (reverse (l0 ++ l1 ++ l2 ++ l3 ++ l4 ++ l5 ++ l6 ++ ls)) w =
  (Deck.mkDeal [l0; l1; l2; l3; l4; l5; l6] ls,
   flipAll (dealFaces [l0; l1; l2; l3; l4; l5; l6] ls) w).
Proof.
  intros H0 H1 H2 H3 H4 H5 H6.
  unfold Deck.dealForSolitaire, TABLEAU_COLUMNS.
  rewrite bind_run, (dealColumns_eq l0 l1 l2 l3 l4 l5 l6 ls w) by assumption.
  cbn [fst snd].
  rewrite bind_run, dealStock_eq, reverse_involutive. cbn [fst snd].
  unfold dealFaces. rewrite flipAll_app. reflexivity.
Qed.

Lemma makeCards_NoDup (base : nat) (data : list (Suit * Rank)) :
  NoDup (Deck.makeCards base data).
Proof.
  apply NoDup_alt. intros i j x Hi Hj. unfold Deck.makeCards in *.
  rewrite list_lookup_imap in Hi, Hj.
  destruct (data !! i) as [di|]; [|discriminate].
  destruct (data !! j) as [dj|]; [|discriminate].
  simpl in Hi, Hj. injection Hi as <-. injection Hj as Hc _ _. lia.
Qed.

Lemma addCards_owner (t : CardStack) :
  ∀ (l : list Card) (w : World),
    let w' := (forEach l (λ card, CardStack.addCard t card) w).2 in
    (∀ c, c ∈ l → currentStack w' c = Some t)
    ∧ (∀ c, c ∉ l → currentStack w' c = currentStack w c).
Proof.
  induction l as [|x l IH]; intros w; cbv zeta.
  - split; [intros c Hc; apply not_elem_of_nil in Hc; contradiction|].
    reflexivity.
  - simpl forEach. rewrite bind_run.
    set (w1 := (CardStack.addCard t x w).2).
    assert (H1 : currentStack w1 = <[x := Some t]> (currentStack w))
      by reflexivity.
    destruct (IH w1) as [B1 B2]. split.
    + intros c Hc. destruct (decide (c ∈ l)) as [Hin|Hout].
      * apply B1, Hin.
      * apply elem_of_cons in Hc as [->|Hc]; [|contradiction].
        rewrite (B2 x Hout), H1. apply fn_lookup_insert.
    + intros c Hc. apply not_elem_of_cons in Hc as [Hne Hc].
      rewrite (B2 c Hc), H1. apply fn_lookup_insert_ne. congruence.
Qed.

Lemma placeAll_spec (jobs : list (CardStack * list Card)) :
  NoDup jobs.*1 →
  ∀ w,
    let w' := (forEach jobs
                 (λ p, forEach p.2 (λ card, CardStack.addCard p.1 card))
                 w).2 in
    (∀ t l, (t, l) ∈ jobs → cards w' t = cards w t ++ l)
    ∧ (∀ s, s ∉ jobs.*1 → cards w' s = cards w s)
    ∧ faceUp w' = faceUp w
    ∧ gameState w' = gameState w
    ∧ (NoDup (mjoin jobs.*2) →
       ∀ t l c, (t, l) ∈ jobs → c ∈ l → currentStack w' c = Some t)
    ∧ (∀ c, c ∉ mjoin jobs.*2 → currentStack w' c = currentStack w c).
Proof.
  induction jobs as [|[t0 l0] js IH]; intros Hnd w; cbv zeta.
  - simpl. repeat split; try reflexivity.
    + intros t l H. apply not_elem_of_nil in H. contradiction.
    + intros _ t l c H. apply not_elem_of_nil in H. contradiction.
  - rewrite fmap_cons in Hnd. apply NoDup_cons in Hnd as [Ht0 Hnd].
    simpl forEach. rewrite bind_run. cbn [fst snd].
    destruct (forEach_addCard t0 l0 w) as (A1 & A2 & A3 & A4).
    destruct (addCards_owner t0 l0 w) as (O1 & O2).
    set (w1 := (forEach l0 (λ card, CardStack.addCard t0 card) w).2) in *.
    destruct (IH Hnd w1) as (B1 & B2 & B3 & B4 & B5 & B6).
    rewrite !fmap_cons. cbn [fst snd mjoin list_join].
    split.
    { intros t l Hin. apply elem_of_cons in Hin as [[= -> ->]|Hin].
      - rewrite (B2 t0 Ht0). exact A1.
      - rewrite (B1 t l Hin), A2; [reflexivity|].
        intros ->. apply Ht0.
        apply list_elem_of_fmap. exists (t0, l). auto. }
    split.
    { intros s Hs. apply not_elem_of_cons in Hs as [Hne Hs].
      rewrite (B2 s Hs). apply A2. exact Hne. }
    split; [congruence|]. split; [congruence|].
    split.
    { intros Hnd' t l c Hin Hc.
      apply NoDup_app in Hnd' as (_ & Hdis & Hnd').
      apply elem_of_cons in Hin as [[= -> ->]|Hin].
      - rewrite (B6 c (Hdis c Hc)). apply O1, Hc.
      - apply (B5 Hnd' t l c Hin Hc). }
    intros c Hc. apply not_elem_of_app in Hc as [Hc0 Hc].
    rewrite (B6 c Hc). apply O2, Hc0.
Qed.

Lemma deal_order_split (order : list Card) :
  order =
  dealtColumn 0 order ++ dealtColumn 1 order ++ dealtColumn 2 order
  ++ dealtColumn 3 order ++ dealtColumn 4 order ++ dealtColumn 5 order
  ++ dealtColumn 6 order ++ drop 28 order.
Proof.
  assert (Hstep : ∀ a n b, b = (a + n)%nat →
            take n (drop a order) ++ drop b order = drop a order).
  { intros a n b ->. rewrite <- drop_drop. apply take_drop. }
  unfold dealtColumn.
  change (0 * 1 / 2)%nat with 0%nat. change (1 * 2 / 2)%nat with 1%nat.
  change (2 * 3 / 2)%nat with 3%nat. change (3 * 4 / 2)%nat with 6%nat.
  change (4 * 5 / 2)%nat with 10%nat. change (5 * 6 / 2)%nat with 15%nat.
  change (6 * 7 / 2)%nat with 21%nat.
  rewrite (Hstep 21 7 28)%nat by reflexivity.
  rewrite (Hstep 15 6 21)%nat by reflexivity.
  rewrite (Hstep 10 5 15)%nat by reflexivity.
  rewrite (Hstep 6 4 10)%nat by reflexivity.
  rewrite (Hstep 3 3 6)%nat by reflexivity.
  rewrite (Hstep 1 2 3)%nat by reflexivity.
  rewrite (Hstep 0 1 1)%nat by reflexivity.
  reflexivity.
Qed.

Lemma dealFaces_columns_fst (cols : list (list Card)) :
  ∀ f : nat → nat,
    (mjoin (imap (λ k l, columnFaces 0 (f k) l) cols)).*1 = mjoin cols.
Proof.
  induction cols as [|l cols IH]; intros f; [reflexivity|].
  rewrite imap_cons. cbn [mjoin list_join].
  rewrite fmap_app, columnFaces_fst. f_equal.
  apply (IH (λ k, f (S k))).
Qed.

Lemma dealFaces_fst (cols : list (list Card)) (ls : list Card) :
  (dealFaces cols ls).*1 = mjoin cols ++ ls.
Proof.
  unfold dealFaces. rewrite fmap_app. f_equal.
  - apply (dealFaces_columns_fst cols (λ k, k)).
  - rewrite <- list_fmap_compose. apply list_fmap_id.
Qed.

Lemma dealFaces_column (cols : list (list Card)) (ls : list Card)
    (k j : nat) (l : list Card) (c : Card) :
  cols !! k = Some l → l !! j = Some c →
  (c, bool_decide (j = k)) ∈ dealFaces cols ls.
Proof.
  intros Hk Hj. unfold dealFaces. apply elem_of_app. left.
  apply list_elem_of_join. exists (columnFaces 0 k l). split.
  - apply (elem_of_lookup_imap_2
             (λ j c, (c, bool_decide (0 + j = k)%nat)) l c j Hj).
  - apply (elem_of_lookup_imap_2 (λ k l, columnFaces 0 k l) cols l k Hk).
Qed.

Lemma dealFaces_stock (cols : list (list Card)) (ls : list Card) (c : Card) :
  c ∈ ls → (c, false) ∈ dealFaces cols ls.
Proof.
  intros Hc. unfold dealFaces. apply elem_of_app. right.
  apply (list_elem_of_fmap_2 (λ c, (c, false)) ls c Hc).
Qed.

(** Dealing a deck given in the order of dealing. *)
Lemma deal_spec (l0 l1 l2 l3 l4 l5 l6 ls : list Card) (w : World) :
  length l0 = 1%nat → length l1 = 2%nat → length l2 = 3%nat →
  length l3 = 4%nat → length l4 = 5%nat → length l5 = 6%nat →
  length l6 = 7%nat →
  NoDup (l0 ++ l1 ++ l2 ++ l3 ++ l4 ++ l5 ++ l6 ++ ls) →
  let cols := [l0; l1; l2; l3; l4; l5; l6] in
  let jobs := (GameController.stockStack, ls)
              :: zip GameController.tableauStacks cols in
  let dealt :=
    Deck.dealForSolitaire
      (reverse (l0 ++ l1 ++ l2 ++ l3 ++ l4 ++ l5 ++ l6 ++ ls)) w in
  let w' := (GameController.dealCards dealt.1 dealt.2).2 in
  (∀ t l, (t, l) ∈ jobs → cards w' t = cards w t ++ l)
  ∧ (∀ s, s ∉ jobs.*1 → cards w' s = cards w s)
  ∧ faceUp w' = faceUp (flipAll (dealFaces cols ls) w)
  ∧ gameState w' = gameState w
  ∧ (∀ t l c, (t, l) ∈ jobs → c ∈ l → currentStack w' c = Some t).
Proof.
  intros H0 H1 H2 H3 H4 H5 H6 Hnd. cbv zeta.
  rewrite dealForSolitaire_eq by assumption. cbn [fst snd].
  set (w1 := flipAll _ w).
  set (jobs := (GameController.stockStack, ls)
               :: zip GameController.tableauStacks
                    [l0; l1; l2; l3; l4; l5; l6]).
  change (GameController.dealCards
            (Deck.mkDeal [l0; l1; l2; l3; l4; l5; l6] ls) w1)
    with (forEach jobs
            (λ p, forEach p.2 (λ card, CardStack.addCard p.1 card)) w1).
  assert (Hst : NoDup jobs.*1).
  { apply (bool_decide_unpack _). vm_compute. exact I. }
  destruct (placeAll_spec jobs Hst w1) as (P1 & P2 & P3 & P4 & P5 & _).
  destruct (flipAll_frame
              (dealFaces [l0; l1; l2; l3; l4; l5; l6] ls) w)
    as (F1 & F2 & F3).
  fold w1 in F1, F2, F3.
  split; [intros t l Hin; rewrite (P1 t l Hin), F1; reflexivity|].
  split; [intros s Hs; rewrite (P2 s Hs), F1; reflexivity|].
  split; [exact P3|]. split; [congruence|].
  apply P5. subst jobs. cbn [zip zip_with fmap list_fmap snd
                             GameController.tableauStacks imap
                             TABLEAU_COLUMNS replicate mjoin list_join].
  rewrite app_nil_r.
  apply (NoDup_Permutation_proper
           (l0 ++ l1 ++ l2 ++ l3 ++ l4 ++ l5 ++ l6 ++ ls));
    [|exact Hnd].
  rewrite (Permutation_app_comm ls), <- !app_assoc. reflexivity.
Qed.

Lemma dealtColumn_length (k : nat) (order : list Card) :
  length order = 52%nat → (k < 7)%nat →
  length (dealtColumn k order) = S k.
Proof.
  intros Hlen Hk. unfold dealtColumn.
  rewrite length_take, length_drop, Hlen.
  do 7 (destruct k as [|k]; [reflexivity|]). lia.
Qed.

Lemma clear_loop (s : CardStack) :
  ∀ (l : list Card) (w : World),
    cards w s ≡ₚ l →
    let w' := (forEach l (λ card,
                 CardStack.removeCard s card ;;
                 modify (set_currentStack card None)) w).2 in
    cards w' s = []
    ∧ (∀ s', s' ≠ s → cards w' s' = cards w s')
    ∧ faceUp w' = faceUp w
    ∧ gameState w' = gameState w.
Proof.
  induction l as [|c l IH]; intros w Hp; cbv zeta.
  - simpl. split; [apply Permutation_nil; symmetry; exact Hp|].
    repeat split.
  - simpl forEach. rewrite bind_run.
    set (w1 := ((CardStack.removeCard s c ;;
                 modify (set_currentStack c None)) w).2).
    assert (H1 : cards w1 s ≡ₚ l
                 ∧ (∀ s', s' ≠ s → cards w1 s' = cards w s')
                 ∧ faceUp w1 = faceUp w
                 ∧ gameState w1 = gameState w).
    { subst w1. rewrite bind_run.
      unfold CardStack.removeCard, modify. cbn [fst snd].
      destruct (indexOf c (cards w s)) as [i|] eqn:E.
      - apply indexOf_Some in E.
        cbn [set_currentStack set_cards cards faceUp gameState].
        split.
        { rewrite fn_lookup_insert.
          apply (Permutation_cons_inv (a := c)).
          rewrite E. exact Hp. }
        split; [|split; reflexivity].
        intros s' Hne. apply fn_lookup_insert_ne. congruence.
      - apply indexOf_None in E. exfalso. apply E.
        rewrite Hp. apply elem_of_cons. left. reflexivity. }
    destruct H1 as (P1 & P2 & P3 & P4).
    destruct (IH w1 P1) as (B1 & B2 & B3 & B4).
    split; [exact B1|].
    split; [intros s' Hne; rewrite (B2 s' Hne); apply P2, Hne|].
    split; congruence.
Qed.

Lemma clearStack_spec (s : CardStack) (w : World) :
  let w' := (GameController.clearStack s w).2 in
  cards w' s = []
  ∧ (∀ s', s' ≠ s → cards w' s' = cards w s')
  ∧ faceUp w' = faceUp w
  ∧ gameState w' = gameState w.
Proof.
  cbv zeta. unfold GameController.clearStack.
  rewrite bind_run. unfold gets. cbn [fst snd].
  apply clear_loop. reflexivity.
Qed.

Lemma clearStacks_spec (stacks : list CardStack) :
  ∀ w : World,
    let w' := (forEach stacks GameController.clearStack w).2 in
    (∀ s, s ∈ stacks → cards w' s = [])
    ∧ (∀ s, cards w s = [] → cards w' s = [])
    ∧ (∀ s, s ∉ stacks → cards w' s = cards w s)
    ∧ faceUp w' = faceUp w
    ∧ gameState w' = gameState w.
Proof.
  induction stacks as [|s0 stacks IH]; intros w; cbv zeta.
  - simpl. split.
    { intros s Hs. apply not_elem_of_nil in Hs. contradiction. }
    repeat split. intros s Hs. exact Hs.
  - simpl forEach. rewrite bind_run.
    destruct (clearStack_spec s0 w) as (C1 & C2 & C3 & C4).
    set (w1 := (GameController.clearStack s0 w).2) in *.
    destruct (IH w1) as (B1 & B2 & B3 & B4 & B5).
    assert (Hkeep : ∀ s, cards w s = [] → cards w1 s = []).
    { intros s Hs. destruct (decide (s = s0)) as [->|Hne]; [exact C1|].
      rewrite (C2 s Hne). exact Hs. }
    split.
    { intros s Hs. apply elem_of_cons in Hs as [->|Hs].
      - apply B2, C1.
      - apply B1, Hs. }
    split; [intros s Hs; apply B2, Hkeep, Hs|].
    split.
    { intros s Hs. apply not_elem_of_cons in Hs as [Hne Hs].
      rewrite (B3 s Hs). apply C2, Hne. }
    split; congruence.
Qed.

Lemma clearGame_spec (w : World) :
  let w' := (GameController.clearGame w).2 in
  (∀ s, s ∈ GameController.getAllStacks → cards w' s = [])
  ∧ (∀ s, s ∉ GameController.getAllStacks → cards w' s = cards w s)
  ∧ faceUp w' = faceUp w
  ∧ gameState w' = gameState w.
Proof.
  cbv zeta. unfold GameController.clearGame.
  destruct (clearStacks_spec GameController.getAllStacks w)
    as (B1 & _ & B3 & B4 & B5).
  repeat split; assumption.
Qed.

Lemma createLoop_frame :
  ∀ (l : list Card) (w : World),
    let w' := (forEach l (λ card,
                 modify (λ w, set_currentStack card None
                                (set_faceUp card false w))) w).2 in
    cards w' = cards w ∧ gameState w' = gameState w.
Proof.
  induction l as [|c l IH]; intros w; cbv zeta.
  - split; reflexivity.
  - simpl forEach. rewrite bind_run. unfold modify at 1. cbn [fst snd].
    destruct (IH (set_currentStack c None (set_faceUp c false w)))
      as [B1 B2].
    split; [exact B1 | exact B2].
Qed.

Lemma createCards_spec (base : nat) (data : list (Suit * Rank))
    (w : World) :
  (Deck.createCards base data w).1 = Deck.makeCards base data
  ∧ cards (Deck.createCards base data w).2 = cards w
  ∧ gameState (Deck.createCards base data w).2 = gameState w.
Proof.
  unfold Deck.createCards. rewrite bind_run. cbn [fst snd mret State_ret].
  split; [reflexivity|]. apply createLoop_frame.
Qed.

Lemma newGame_spec (base : nat) (shuffled : list (Suit * Rank))
    (w0 : World) :
  length shuffled = 52%nat →
  let order := reverse (Deck.makeCards base shuffled) in
  let cols := [dealtColumn 0 order; dealtColumn 1 order; dealtColumn 2 order;
               dealtColumn 3 order; dealtColumn 4 order; dealtColumn 5 order;
               dealtColumn 6 order] in
  let ls := drop 28 order in
  let jobs := (GameController.stockStack, ls)
              :: zip GameController.tableauStacks cols in
  let w := (GameController.newGame base shuffled w0).2 in
  NoDup order
  ∧ (∀ t l, (t, l) ∈ jobs → cards w t = l)
  ∧ (∀ s, s ∈ GameController.getAllStacks → s ∉ jobs.*1 → cards w s = [])
  ∧ (∀ c b, (c, b) ∈ dealFaces cols ls → faceUp w c = b)
  ∧ gameState w = GameState.startGame (GameState.reset (gameState w0))
  ∧ (∀ t l c, (t, l) ∈ jobs → c ∈ l → currentStack w c = Some t).
Proof.
  intros Hlen. cbv zeta.
  set (deck := Deck.makeCards base shuffled).
  set (order := reverse deck).
  assert (Hlo : length order = 52%nat).
  { subst order deck. unfold Deck.makeCards.
    rewrite length_reverse, length_imap. exact Hlen. }
  assert (Hnd : NoDup order).
  { subst order. apply NoDup_reverse_2, makeCards_NoDup. }
  assert (E : deck = reverse
                (dealtColumn 0 order ++ dealtColumn 1 order
                 ++ dealtColumn 2 order ++ dealtColumn 3 order
                 ++ dealtColumn 4 order ++ dealtColumn 5 order
                 ++ dealtColumn 6 order ++ drop 28 order)).
  { rewrite <- deal_order_split. subst order.
    symmetry. apply reverse_involutive. }
  assert (Hnd' : NoDup (dealtColumn 0 order ++ dealtColumn 1 order
                 ++ dealtColumn 2 order ++ dealtColumn 3 order
                 ++ dealtColumn 4 order ++ dealtColumn 5 order
                 ++ dealtColumn 6 order ++ drop 28 order))
    by (rewrite <- deal_order_split; exact Hnd).
  destruct (clearGame_spec w0) as (K1 & _ & _ & K4).
  set (w1 := (GameController.clearGame w0).2) in *.
  set (w2 := set_gameState (GameState.reset (gameState w1)) w1).
  destruct (createCards_spec base shuffled w2) as (R1 & R2 & R3).
  fold deck in R1.
  set (w3 := (Deck.createCards base shuffled w2).2) in *.
  assert (Hrun : (GameController.newGame base shuffled w0).2
            = set_gameState
                (GameState.startGame
                   (gameState
                      (GameController.dealCards
                         (Deck.dealForSolitaire deck w3).1
                         (Deck.dealForSolitaire deck w3).2).2))
                (GameController.dealCards
                   (Deck.dealForSolitaire deck w3).1
                   (Deck.dealForSolitaire deck w3).2).2).
  { unfold GameController.newGame.
    rewrite !bind_run. fold w1.
    change (modify (λ w, set_gameState (GameState.reset (gameState w)) w)
              w1).2 with w2.
    fold w3. rewrite R1. reflexivity. }
  rewrite Hrun. clear Hrun. rewrite E.
  destruct (deal_spec (dealtColumn 0 order) (dealtColumn 1 order)
              (dealtColumn 2 order) (dealtColumn 3 order)
              (dealtColumn 4 order) (dealtColumn 5 order)
              (dealtColumn 6 order) (drop 28 order) w3)
    as (D1 & D2 & D3 & D4 & D5);
    try (apply dealtColumn_length; [exact Hlo | lia]); [exact Hnd'|].
  assert (Hempty : ∀ s, s ∈ GameController.getAllStacks →
            cards w3 s = []).
  { intros s Hs. rewrite R2. exact (K1 s Hs). }
  cbn [set_gameState cards faceUp gameState currentStack].
  split; [exact Hnd|].
  split.
  { intros t l Hin. rewrite (D1 t l Hin), Hempty; [reflexivity|].
    repeat (apply elem_of_cons in Hin as [[= -> ->]|Hin]);
      try (apply (bool_decide_unpack _); vm_compute; exact I).
    apply not_elem_of_nil in Hin. contradiction. }
  split; [intros s Hs Hout; rewrite (D2 s Hout); exact (Hempty s Hs)|].
  split.
  { intros c b Hin. rewrite D3. apply flipAll_lookup; [|exact Hin].
    rewrite dealFaces_fst. cbn [mjoin list_join].
    rewrite app_nil_r, <- !app_assoc. exact Hnd'. }
  split; [rewrite D4, R3; subst w2; cbn [set_gameState gameState];
          rewrite K4; reflexivity|].
  exact D5.
Qed.

(** X20.  The layout of a new game, started from any board and dealt from
    a deck of 52 new cards: the board is cleared first, so that whatever
    lay on the thirteen stacks is gone; tableau column [k] (from 0) holds
    the [k + 1] cards dealt after the first [k (k + 1) / 2], of which
    only the top one lies face up; the stock holds the remaining 24, all
    face down; the waste and the foundations are empty; the game is being
    played, with no move counted. *)
Theorem deal_layout (base : nat) (shuffled : list (Suit * Rank))
    (w0 : World) :
  length shuffled = 52%nat →
  let order := reverse (Deck.makeCards base shuffled) in
  let w := (GameController.newGame base shuffled w0).2 in
  (∀ k s, GameController.tableauStacks !! k = Some s →
     cards w s = dealtColumn k order
     ∧ length (cards w s) = S k
     ∧ ∀ j c, cards w s !! j = Some c → faceUp w c = bool_decide (j = k))
  ∧ cards w GameController.stockStack = drop 28 order
  ∧ length (cards w GameController.stockStack) = 24%nat
  ∧ (∀ c, c ∈ cards w GameController.stockStack → faceUp w c = false)
  ∧ cards w GameController.wasteStack = []
  ∧ (∀ s, s ∈ GameController.foundationStacks → cards w s = [])
  ∧ GameState.isPlaying (gameState w) = true
  ∧ GameState.moves (gameState w) = 0
  ∧ GameState.foundationCards (gameState w) = 0.
Proof.
  intros Hlen. cbv zeta.
  destruct (newGame_spec base shuffled w0 Hlen)
    as (Hnd & N1 & N2 & N3 & N4 & _).
  set (order := reverse (Deck.makeCards base shuffled)) in *.
  set (w := (GameController.newGame base shuffled w0).2) in *.
  assert (Hlo : length order = 52%nat).
  { subst order. unfold Deck.makeCards.
    rewrite length_reverse, length_imap. exact Hlen. }
  set (cols := [dealtColumn 0 order; dealtColumn 1 order;
                dealtColumn 2 order; dealtColumn 3 order;
                dealtColumn 4 order; dealtColumn 5 order;
                dealtColumn 6 order]) in *.
  assert (Hcol : ∀ k s, GameController.tableauStacks !! k = Some s →
            (k < 7)%nat ∧ cols !! k = Some (dealtColumn k order)
            ∧ cards w s = dealtColumn k order).
  { intros k s Hk.
    do 7 (destruct k as [|k];
          [injection Hk as <-;
           split; [lia|]; split; [reflexivity|];
           apply N1; repeat constructor|]).
    discriminate Hk. }
  assert (Hstock : cards w GameController.stockStack = drop 28 order)
    by (apply N1; repeat constructor).
  split.
  { intros k s Hk. destruct (Hcol k s Hk) as (Hlt & Hck & ->).
    split; [reflexivity|].
    split; [apply dealtColumn_length; assumption|].
    intros j c Hj. apply N3.
    apply (dealFaces_column cols _ k j _ c Hck Hj). }
  split; [exact Hstock|].
  split; [rewrite Hstock, length_drop, Hlo; reflexivity|].
  split.
  { intros c Hc. rewrite Hstock in Hc. apply N3.
    apply dealFaces_stock. exact Hc. }
  split.
  { apply N2; apply (bool_decide_unpack _); vm_compute; exact I. }
  split.
  { intros s Hs.
    repeat (apply elem_of_cons in Hs as [->|Hs]);
      try (apply N2; apply (bool_decide_unpack _); vm_compute; exact I).
    apply not_elem_of_nil in Hs. contradiction. }
  rewrite N4. repeat split.
Qed.

Lemma deal_layout_witness :
  length (cards (GameController.newGame 52 Deck.sortedPattern
                   dealt_reverse).2
            GameController.stockStack) = 24%nat.
Proof.
  destruct (deal_layout 52 Deck.sortedPattern dealt_reverse)
    as (_ & _ & H & _); [reflexivity | exact H].
Defined.

(** X21.  A new game conserves the new deck, whatever board it is started
    from: the cards on the thirteen stacks are exactly the 52 cards just
    created, each once, and every card's back reference names the stack
    that holds it. *)
Theorem deal_conserves_deck (base : nat) (shuffled : list (Suit * Rank))
    (w0 : World) :
  length shuffled = 52%nat →
  let w := (GameController.newGame base shuffled w0).2 in
  allCards w ≡ₚ Deck.makeCards base shuffled
  ∧ NoDup (allCards w)
  ∧ length (allCards w) = 52%nat
  ∧ (∀ s c, s ∈ GameController.getAllStacks → c ∈ cards w s →
       currentStack w c = Some s).
Proof.
  intros Hlen. cbv zeta.
  destruct (newGame_spec base shuffled w0 Hlen)
    as (Hnd & N1 & N2 & _ & _ & N5).
  set (order := reverse (Deck.makeCards base shuffled)) in *.
  set (w := (GameController.newGame base shuffled w0).2) in *.
  assert (Hall : allCards w ≡ₚ order).
  { change (allCards w) with
      (cards w GameController.stockStack
       ++ cards w GameController.wasteStack
       ++ cards w (mkStack 2 foundation 0)
       ++ cards w (mkStack 3 foundation 1)
       ++ cards w (mkStack 4 foundation 2)
       ++ cards w (mkStack 5 foundation 3)
       ++ cards w (mkStack 6 tableau 0) ++ cards w (mkStack 7 tableau 1)
       ++ cards w (mkStack 8 tableau 2) ++ cards w (mkStack 9 tableau 3)
       ++ cards w (mkStack 10 tableau 4) ++ cards w (mkStack 11 tableau 5)
       ++ cards w (mkStack 12 tableau 6) ++ []).
    rewrite (N2 GameController.wasteStack), (N2 (mkStack 2 foundation 0)),
      (N2 (mkStack 3 foundation 1)), (N2 (mkStack 4 foundation 2)),
      (N2 (mkStack 5 foundation 3))
      by (apply (bool_decide_unpack _); vm_compute; exact I).
    rewrite (N1 GameController.stockStack (drop 28 order)),
      (N1 (mkStack 6 tableau 0) (dealtColumn 0 order)),
      (N1 (mkStack 7 tableau 1) (dealtColumn 1 order)),
      (N1 (mkStack 8 tableau 2) (dealtColumn 2 order)),
      (N1 (mkStack 9 tableau 3) (dealtColumn 3 order)),
      (N1 (mkStack 10 tableau 4) (dealtColumn 4 order)),
      (N1 (mkStack 11 tableau 5) (dealtColumn 5 order)),
      (N1 (mkStack 12 tableau 6) (dealtColumn 6 order))
      by repeat constructor.
    cbn [app]. rewrite app_nil_r.
    rewrite (Permutation_app_comm (drop 28 order)), <- !app_assoc.
    rewrite <- deal_order_split. reflexivity. }
  assert (Hperm : allCards w ≡ₚ Deck.makeCards base shuffled).
  { rewrite Hall. subst order. apply reverse_Permutation. }
  split; [exact Hperm|].
  split; [rewrite Hall; exact Hnd|].
  split.
  { rewrite Hperm. unfold Deck.makeCards. rewrite length_imap. exact Hlen. }
  assert (Hjob : ∀ t l c,
            (t, l) ∈ (GameController.stockStack, drop 28 order)
                     :: zip GameController.tableauStacks
                          [dealtColumn 0 order; dealtColumn 1 order;
                           dealtColumn 2 order; dealtColumn 3 order;
                           dealtColumn 4 order; dealtColumn 5 order;
                           dealtColumn 6 order] →
            c ∈ cards w t → currentStack w c = Some t).
  { intros t l c Hin Hc. rewrite (N1 t l Hin) in Hc.
    apply (N5 t l c Hin Hc). }
  intros s c Hs Hc.
  repeat (apply elem_of_cons in Hs as [->|Hs]);
    try (apply not_elem_of_nil in Hs; contradiction);
    try (rewrite N2 in Hc
           by (apply (bool_decide_unpack _); vm_compute; exact I);
         apply not_elem_of_nil in Hc; contradiction);
    (eapply Hjob; [repeat constructor | exact Hc]).
Qed.

Lemma deal_conserves_deck_witness :
  length (allCards (GameController.newGame 52 Deck.sortedPattern
                      dealt_reverse).2) = 52%nat.
Proof.
  destruct (deal_conserves_deck 52 Deck.sortedPattern dealt_reverse)
    as (_ & _ & H & _); [reflexivity | exact H].
Defined.

(** ** Deck: validation *)

Lemma cardKey_inj (s s' : Suit) (r r' : Rank) :
  Deck.cardKey s r = Deck.cardKey s' r' → (s, r) = (s', r').
Proof.
  destruct s, s'; destruct r, r'; intros H;
    first [reflexivity | vm_compute in H; discriminate H].
Qed.

Lemma collectKeys_Some (l : list Card) :
  ∀ S S', Deck.collectKeys l S = Some S' →
    NoDup (cardData l)
    ∧ (∀ s r, Deck.cardKey s r ∈ S' ↔
              (s, r) ∈ cardData l ∨ Deck.cardKey s r ∈ S)
    ∧ (∀ s r, (s, r) ∈ cardData l → Deck.cardKey s r ∉ S).
Proof.
  induction l as [|c l IH]; intros S S' H.
  - injection H as <-. split; [constructor|].
    split; [|intros s r Hin; apply not_elem_of_nil in Hin; contradiction].
    intros s r. split; [auto|]. intros [Hin|Hin]; [|exact Hin].
    apply not_elem_of_nil in Hin. contradiction.
  - cbn [Deck.collectKeys] in H. cbv zeta in H.
    destruct (bool_decide _) eqn:Ein in H; [discriminate|].
    apply bool_decide_eq_false in Ein.
    destruct (IH _ _ H) as (Hnd & Hmem & Hfresh).
    unfold cardData in *. rewrite fmap_cons.
    split.
    { apply NoDup_cons. split; [|exact Hnd].
      intros Hin. apply (Hfresh _ _ Hin).
      apply elem_of_union. left. apply elem_of_singleton. reflexivity. }
    split.
    { intros s r. rewrite (Hmem s r), elem_of_cons. split.
      - intros [Hin|Hin]; [auto|].
        apply elem_of_union in Hin as [Hin|Hin]; [|auto].
        apply elem_of_singleton in Hin. apply cardKey_inj in Hin. auto.
      - intros [[E|Hin]|Hin]; [|auto|].
        + right. injection E as -> ->.
          apply elem_of_union. left. apply elem_of_singleton. reflexivity.
        + right. apply elem_of_union. right. exact Hin. }
    intros s r Hin. apply elem_of_cons in Hin as [E|Hin].
    + injection E as -> ->. exact Ein.
    + intros HS. apply (Hfresh _ _ Hin).
      apply elem_of_union. right. exact HS.
Qed.

Lemma collectKeys_NoDup (l : list Card) :
  ∀ S, NoDup (cardData l) →
    (∀ s r, (s, r) ∈ cardData l → Deck.cardKey s r ∉ S) →
    ∃ S', Deck.collectKeys l S = Some S'.
Proof.
  induction l as [|c l IH]; intros S Hnd Hfresh; [eexists; reflexivity|].
  unfold cardData in *. rewrite fmap_cons in *.
  apply NoDup_cons in Hnd as [Hout Hnd].
  cbn [Deck.collectKeys]. cbv zeta.
  rewrite bool_decide_eq_false_2
    by (apply Hfresh; apply elem_of_cons; left; reflexivity).
  apply IH; [exact Hnd|].
  intros s r Hin HS. apply elem_of_union in HS as [HS|HS].
  - apply elem_of_singleton in HS. apply cardKey_inj in HS.
    rewrite HS in Hin. contradiction.
  - apply (Hfresh s r); [apply elem_of_cons; right; exact Hin | exact HS].
Qed.

Lemma sortedPattern_all (d : Suit * Rank) : d ∈ Deck.sortedPattern.
Proof.
  destruct d as [s r]. apply list_elem_of_In.
  destruct s, r; vm_compute; tauto.
Qed.

Lemma sortedPattern_NoDup : NoDup Deck.sortedPattern.
Proof. apply (bool_decide_unpack _). vm_compute. exact I. Qed.

Lemma all_keys_iff (S : gset string) :
  forallb (λ s,
    forallb (λ r, bool_decide (Deck.cardKey s r ∈ S)) RANKS) SUITS = true
  ↔ ∀ s r, Deck.cardKey s r ∈ S.
Proof.
  rewrite forallb_forall. split.
  - intros H s r.
    assert (Hs : In s SUITS) by (destruct s; simpl; tauto).
    assert (Hr : In r RANKS) by (destruct r; simpl; tauto).
    specialize (H s Hs). rewrite forallb_forall in H.
    specialize (H r Hr). apply bool_decide_eq_true in H. exact H.
  - intros H s _. apply forallb_forall. intros r _.
    apply bool_decide_eq_true_2. apply H.
Qed.

Lemma cardData_makeCards (data : list (Suit * Rank)) :
  ∀ base, cardData (Deck.makeCards base data) = data.
Proof.
  unfold cardData, Deck.makeCards.
  induction data as [|[s r] data IH]; intros base; [reflexivity|].
  rewrite imap_cons, fmap_cons. cbn [suit rank fst snd]. f_equal.
  rewrite <- (IH (S base)) at 2. f_equal. apply imap_ext.
  intros i d _. simpl. f_equal. lia.
Qed.

(** X22.  [Deck.validate] accepts exactly the decks whose cards are, by
    suit and rank, the 52 cards of a full deck in some order.  Its last
    check can never fail: a deck of 52 cards without a repeated suit and
    rank already holds every card.  The deck built from any reordering of
    the 52 card data, as [shuffle] builds it, is accepted. *)
Theorem validate_iff_full_deck (deck : list Card) :
  (Deck.validate deck = true ↔ cardData deck ≡ₚ Deck.sortedPattern)
  ∧ (Deck.validate deck = true ↔
     length deck = 52%nat ∧ NoDup (cardData deck))
  ∧ (∀ base shuffled, shuffled ≡ₚ Deck.sortedPattern →
       deck = Deck.makeCards base shuffled → Deck.validate deck = true).
Proof.
  cut ((Deck.validate deck = true ↔ cardData deck ≡ₚ Deck.sortedPattern)
       ∧ (Deck.validate deck = true ↔
          length deck = 52%nat ∧ NoDup (cardData deck))).
  { intros [H1 H2]. split; [exact H1|]. split; [exact H2|].
    intros base shuffled Hp ->. apply H1.
    rewrite cardData_makeCards. exact Hp. }
  assert (Hfull : length deck = 52%nat → NoDup (cardData deck) →
                  cardData deck ≡ₚ Deck.sortedPattern).
  { intros Hlen Hnd. apply submseteq_length_Permutation.
    - apply NoDup_submseteq; [exact Hnd|].
      intros x _. apply sortedPattern_all.
    - unfold cardData. rewrite length_fmap, Hlen. reflexivity. }
  assert (Hperm : cardData deck ≡ₚ Deck.sortedPattern →
                  length deck = 52%nat ∧ NoDup (cardData deck)).
  { intros E. split.
    - rewrite <- (length_fmap (λ c, (suit c, rank c)) deck).
      change (length (cardData deck) = 52%nat). rewrite E. reflexivity.
    - rewrite E. apply sortedPattern_NoDup. }
  assert (Hval : Deck.validate deck = true ↔
                 length deck = 52%nat ∧ NoDup (cardData deck)).
  { unfold Deck.validate, TOTAL_CARDS. split.
    - intros H.
      destruct (bool_decide (Z.of_nat (length deck) ≠ 52)) eqn:El;
        [discriminate|].
      apply bool_decide_eq_false in El.
      destruct (Deck.collectKeys deck ∅) as [S|] eqn:Ek; [|discriminate].
      destruct (collectKeys_Some deck _ _ Ek) as (Hnd & _).
      split; [|exact Hnd].
      destruct (decide (length deck = 52%nat)) as [E|E]; [exact E|].
      exfalso. apply El. lia.
    - intros [Hlen Hnd].
      rewrite bool_decide_eq_false_2 by (rewrite Hlen; lia).
      destruct (collectKeys_NoDup deck ∅ Hnd) as (S & Ek);
        [intros s r _; apply not_elem_of_empty|].
      rewrite Ek. apply all_keys_iff. intros s r.
      destruct (collectKeys_Some deck _ _ Ek) as (_ & Hmem & _).
      apply Hmem. left. rewrite (Hfull Hlen Hnd).
      apply sortedPattern_all. }
  split; [|exact Hval].
  rewrite Hval. split; [intros [Hlen Hnd]; auto | exact Hperm].
Qed.

Lemma validate_iff_full_deck_witness :
  Deck.validate (Deck.makeCards 0 Deck.sortedPattern) = true.
Proof.
  apply (validate_iff_full_deck (Deck.makeCards 0 Deck.sortedPattern)
           ) with (base := 0%nat) (shuffled := Deck.sortedPattern);
    reflexivity.
Defined.

(** ** GameLogic: the foundation counter and the foundation piles *)

Lemma recordMove_foundationCards (md : MoveData.t) (g : GameState.t) :
  GameState.foundationCards (GameState.recordMove md g)
  = GameState.foundationCards g.
Proof.
  unfold GameState.recordMove.
  destruct (negb (GameState.isGameStarted g)); reflexivity.
Qed.

Lemma singleMoveState_counter (card : Card) (fromStack toStack : CardStack)
    (g : GameState.t) :
  GameState.isGameCompleted g = false →
  GameState.foundationCards (singleMoveState card fromStack toStack g)
  = if bool_decide (type toStack = foundation) then
      if bool_decide (GameState.foundationCards g + 1 = TOTAL_CARDS)
      then TOTAL_CARDS
      else if bool_decide (type fromStack = foundation)
           then Z.max 0 (GameState.foundationCards g + 1 - 1)
           else GameState.foundationCards g + 1
    else if bool_decide (type fromStack = foundation)
         then Z.max 0 (GameState.foundationCards g - 1)
         else GameState.foundationCards g.
Proof.
  intros Hc. unfold singleMoveState. cbv zeta.
  destruct (removeFromFoundation_frame g) as (_ & _ & _ & R).
  destruct (bool_decide (type toStack = foundation)).
  - destruct (decide (GameState.foundationCards g + 1 = TOTAL_CARDS))
      as [E|E].
    + destruct (addToFoundation_complete g E Hc) as (-> & _ & _ & _ & _ & A).
      rewrite (bool_decide_eq_true_2 _ E). exact A.
    + destruct (addToFoundation_continue g E) as (-> & _ & _ & _ & A & _).
      rewrite (bool_decide_eq_false_2 _ E), recordMove_foundationCards.
      destruct (bool_decide (type fromStack = foundation)); [|exact A].
      destruct (removeFromFoundation_frame (GameState.addToFoundation g).2)
        as (_ & _ & _ & ->).
      rewrite A. reflexivity.
  - rewrite recordMove_foundationCards.
    destruct (bool_decide (type fromStack = foundation)); [exact R|].
    reflexivity.
Qed.

Lemma elem_of_cons_ne {A} `{EqDecision A} (x s : A) (l : list A) :
  x ≠ s → bool_decide (x ∈ s :: l) = bool_decide (x ∈ l).
Proof.
  intros Hne. apply bool_decide_ext. rewrite elem_of_cons. tauto.
Qed.

Lemma pile_count_move (fromStack toStack : CardStack) (card : Card)
    (rest : list Card) (w w' : World) :
  fromStack ≠ toStack →
  cards w fromStack = rest ++ [card] →
  cards w' fromStack = rest →
  cards w' toStack = cards w toStack ++ [card] →
  (∀ s, s ≠ fromStack → s ≠ toStack → cards w' s = cards w s) →
  ∀ fs, NoDup fs →
    Z.of_nat (length (fs ≫= cards w'))
    = Z.of_nat (length (fs ≫= cards w))
      + (if bool_decide (toStack ∈ fs) then 1 else 0)
      - (if bool_decide (fromStack ∈ fs) then 1 else 0).
Proof.
  intros Hne Hf Hf' Ht' Ho. induction fs as [|s fs IH]; intros Hnd.
  - rewrite !(bool_decide_eq_false_2 (_ ∈ [])) by apply not_elem_of_nil.
    simpl. lia.
  - apply NoDup_cons in Hnd as [Hs Hnd]. specialize (IH Hnd).
    rewrite !bind_cons, !length_app, !Nat2Z.inj_add, IH. clear IH.
    destruct (decide (s = fromStack)) as [->|Hsf].
    + rewrite (bool_decide_eq_true_2 (fromStack ∈ fromStack :: fs))
        by (apply elem_of_cons; left; reflexivity).
      rewrite (bool_decide_eq_false_2 (fromStack ∈ fs)) by exact Hs.
      rewrite (elem_of_cons_ne toStack fromStack fs) by congruence.
      rewrite Hf', Hf, length_app. simpl. lia.
    + destruct (decide (s = toStack)) as [->|Hst].
      * rewrite (bool_decide_eq_true_2 (toStack ∈ toStack :: fs))
          by (apply elem_of_cons; left; reflexivity).
        rewrite (bool_decide_eq_false_2 (toStack ∈ fs)) by exact Hs.
        rewrite (elem_of_cons_ne fromStack toStack fs) by congruence.
        rewrite Ht', length_app. simpl. lia.
      * rewrite (elem_of_cons_ne toStack s fs) by congruence.
        rewrite (elem_of_cons_ne fromStack s fs) by congruence.
        rewrite (Ho s Hsf Hst). lia.
Qed.

(** X23.  The foundation counter follows the foundation piles [fs]
    (the source and the target are among them exactly when they are
    foundations): if it equals the number of cards on the piles before a
    validated move of the top card of one stack onto another, it does so
    afterwards.  The one exception is a move from a foundation onto a
    foundation made at a counter of 51: the counter is raised to 52 and
    the game is completed, with 51 cards on the piles, before the counter
    is lowered again. *)
Theorem counter_follows_foundations (fs : list CardStack) (card : Card)
    (fromStack toStack : CardStack) (rest : list Card) (w : World) :
  NoDup fs →
  (fromStack ∈ fs ↔ type fromStack = foundation) →
  (toStack ∈ fs ↔ type toStack = foundation) →
  GameState.foundationCards (gameState w)
  = Z.of_nat (length (fs ≫= cards w)) →
  GameLogic.validateMove card fromStack toStack w = true →
  fromStack ≠ toStack →
  cards w fromStack = rest ++ [card] →
  card ∉ rest →
  let r := GameLogic.executeSingleCardMove card fromStack toStack w in
  (¬ (type fromStack = foundation ∧ type toStack = foundation
      ∧ GameState.foundationCards (gameState w) + 1 = TOTAL_CARDS) →
   GameState.foundationCards (gameState r.2)
   = Z.of_nat (length (fs ≫= cards r.2)))
  ∧ (type fromStack = foundation → type toStack = foundation →
     GameState.foundationCards (gameState w) + 1 = TOTAL_CARDS →
     GameState.isGameCompleted (gameState r.2) = true
     ∧ GameState.foundationCards (gameState r.2) = 52
     ∧ length (fs ≫= cards r.2) = 51%nat).
Proof.
  intros Hnd Hfsf Hfst Hinv Hv Hne Hc Hout r. subst r.
  rewrite (executeSingleCardMove_unfold _ _ _ _ Hv). cbn [fst snd].
  destruct (validateMove_true _ _ _ _ Hv) as (Hp & _ & _).
  assert (Hnc : GameState.isGameCompleted (gameState w) = false).
  { unfold GameState.isPlaying in Hp.
    apply andb_true_iff in Hp as [_ Hp]. apply negb_true_iff in Hp.
    exact Hp. }
  destruct (remove_add_target fromStack toStack card w Hne)
    as (T1 & T2 & _).
  pose proof (remove_top_source fromStack toStack card rest w Hne Hc Hout)
    as S1.
  set (w1 := ((CardStack.removeCard fromStack card ;;
               CardStack.addCard toStack card) w).2) in *.
  pose proof (pile_count_move fromStack toStack card rest w w1
                Hne Hc S1 T1 T2 fs Hnd) as Hcount.
  cbn [set_gameState cards gameState].
  rewrite (singleMoveState_counter card fromStack toStack _ Hnc).
  assert (Hto : bool_decide (toStack ∈ fs)
                = bool_decide (type toStack = foundation))
    by (apply bool_decide_ext, Hfst).
  assert (Hfrom : bool_decide (fromStack ∈ fs)
                  = bool_decide (type fromStack = foundation))
    by (apply bool_decide_ext, Hfsf).
  rewrite Hto, Hfrom in Hcount.
  assert (Hpos : type fromStack = foundation →
                 1 ≤ GameState.foundationCards (gameState w)).
  { intros Hty. rewrite Hinv. apply Hfsf in Hty.
    apply list_elem_of_lookup in Hty as (i & Hi).
    assert (Hin : card ∈ fs ≫= cards w).
    { apply list_elem_of_bind. exists fromStack. split.
      - rewrite Hc. apply elem_of_app. right.
        apply elem_of_cons. left. reflexivity.
      - apply list_elem_of_lookup. exists i. exact Hi. }
    destruct (fs ≫= cards w); [apply not_elem_of_nil in Hin; contradiction|].
    simpl. lia. }
  unfold TOTAL_CARDS in *. split.
  - intros Hex.
    destruct (bool_decide (type toStack = foundation)) eqn:Et;
      destruct (bool_decide (type fromStack = foundation)) eqn:Ef;
      try apply bool_decide_eq_true in Et;
      try apply bool_decide_eq_true in Ef.
    + rewrite bool_decide_eq_false_2 by (intros E; apply Hex; auto).
      specialize (Hpos Ef). lia.
    + destruct (bool_decide
                  (GameState.foundationCards (gameState w) + 1 = 52))
        eqn:E52; [apply bool_decide_eq_true in E52|]; lia.
    + specialize (Hpos Ef). lia.
    + lia.
  - intros Ef Et E.
    rewrite (bool_decide_eq_true_2 _ Et), (bool_decide_eq_true_2 _ E).
    rewrite (bool_decide_eq_true_2 _ Et), (bool_decide_eq_true_2 _ Ef)
      in Hcount.
    split; [|split; [reflexivity | lia]].
    unfold singleMoveState. cbv zeta.
    rewrite (bool_decide_eq_true_2 _ Et).
    destruct (addToFoundation_complete (gameState w) E Hnc)
      as (-> & _ & A & _).
    exact A.
Qed.

Lemma counter_follows_foundations_witness :
  GameState.foundationCards
    (gameState (GameLogic.executeSingleCardMove three_hearts ex_T1 ex_F0
                  ex_counted).2)
  = Z.of_nat
      (length (GameController.foundationStacks
               ≫= cards (GameLogic.executeSingleCardMove three_hearts ex_T1
                           ex_F0 ex_counted).2)).
Proof.
  assert (Hnd : NoDup GameController.foundationStacks).
  { apply (bool_decide_unpack _). vm_compute. exact I. }
  assert (Hf : ex_T1 ∈ GameController.foundationStacks
               ↔ type ex_T1 = foundation).
  { split; [|discriminate]. intros H. exfalso. revert H.
    apply (bool_decide_unpack _). vm_compute. exact I. }
  assert (Ht : ex_F0 ∈ GameController.foundationStacks
               ↔ type ex_F0 = foundation).
  { split; [reflexivity|]. intros _.
    apply elem_of_cons. left. reflexivity. }
  assert (Hout : three_hearts ∉ [four_hearts]).
  { apply (bool_decide_unpack _). vm_compute. exact I. }
  pose proof (counter_follows_foundations GameController.foundationStacks
                three_hearts ex_T1 ex_F0 [four_hearts] ex_counted
                Hnd Hf Ht eq_refl eq_refl ltac:(discriminate) eq_refl Hout)
    as H.
  cbv zeta in H. destruct H as [H _]. apply H.
  intros (Hty & _). discriminate Hty.
Defined.

(** ** Conservation of the cards on the board *)

Lemma two_stacks_conserve (stacks : list CardStack)
    (fromStack toStack : CardStack) (w w' : World) :
  NoDup stacks → fromStack ∈ stacks → toStack ∈ stacks →
  fromStack ≠ toStack →
  cards w' fromStack ++ cards w' toStack
    ≡ₚ cards w fromStack ++ cards w toStack →
  (∀ s, s ≠ fromStack → s ≠ toStack → cards w' s = cards w s) →
  stacks ≫= cards w' ≡ₚ stacks ≫= cards w.
Proof.
  intros Hnd Hf Ht Hne Hp Ho.
  apply elem_of_Permutation in Hf as (l1 & E1).
  assert (Ht1 : toStack ∈ l1).
  { rewrite E1 in Ht. apply elem_of_cons in Ht as [Ht|Ht]; [congruence|].
    exact Ht. }
  apply elem_of_Permutation in Ht1 as (others & E2).
  assert (E : stacks ≡ₚ fromStack :: toStack :: others)
    by (rewrite E1, E2; reflexivity).
  rewrite E in Hnd. apply NoDup_cons in Hnd as [Hf1 Hnd].
  apply NoDup_cons in Hnd as [Ht1 _].
  assert (Eo : others ≫= cards w' = others ≫= cards w).
  { apply Forall_bind_ext, Forall_forall. intros s Hs. apply Ho.
    - intros ->. apply Hf1. apply elem_of_cons. right. exact Hs.
    - intros ->. contradiction. }
  rewrite !E, !bind_cons, Eo, !app_assoc, Hp. reflexivity.
Qed.

Lemma moved_conserves (src dst : CardStack) (l rest : list Card) (b : bool)
    (w w' : World) :
  cards w src = rest ++ reverse l ∨ cards w src = rest ++ l →
  moved src dst l b rest w w' →
  cards w' src ++ cards w' dst ≡ₚ cards w src ++ cards w dst
  ∧ (∀ s, s ≠ src → s ≠ dst → cards w' s = cards w s).
Proof.
  intros Hsrc (M1 & M2 & M3 & _). split; [|exact M3].
  rewrite M1, M2.
  destruct Hsrc as [-> | ->]; rewrite ?reverse_Permutation;
    rewrite <- !app_assoc; f_equiv; apply Permutation_app_comm.
Qed.

(** X24.  The engine's operations conserve the cards on the board: over
    any collection of distinct stacks that contains the stacks involved, a
    single-card move of a card that lies in its source stack, a multi-card
    move of the top part of its source stack, and a draw (or recycling)
    between a stock and a waste without repeated cards leave the same
    cards on the collection, whether or not the move is accepted; turning
    cards leaves every stack as it is. *)
Theorem moves_conserve_board (stacks : list CardStack) (w : World) :
  NoDup stacks →
  (∀ card fromStack toStack,
     fromStack ∈ stacks → toStack ∈ stacks → fromStack ≠ toStack →
     card ∈ cards w fromStack →
     stacks ≫= cards
       (GameLogic.executeSingleCardMove card fromStack toStack w).2
     ≡ₚ stacks ≫= cards w)
  ∧ (∀ l rest fromStack toStack,
       fromStack ∈ stacks → toStack ∈ stacks → fromStack ≠ toStack →
       cards w fromStack = rest ++ l → NoDup (rest ++ l) →
       stacks ≫= cards
         (GameLogic.executeMultiCardMove l fromStack toStack w).2
       ≡ₚ stacks ≫= cards w)
  ∧ (∀ stockStack wasteStack,
       stockStack ∈ stacks → wasteStack ∈ stacks →
       stockStack ≠ wasteStack →
       NoDup (cards w stockStack) → NoDup (cards w wasteStack) →
       stacks ≫= cards (GameLogic.drawFromStock stockStack wasteStack w).2
       ≡ₚ stacks ≫= cards w)
  ∧ (∀ ts, cards (GameLogic.executeAllCardFlips ts w).2 = cards w).
Proof.
  intros Hnd. split; [|split; [|split]].
  - intros card fromStack toStack Hf Ht Hne Hin.
    destruct (GameLogic.validateMove card fromStack toStack w) eqn:Hv.
    + rewrite (executeSingleCardMove_unfold _ _ _ _ Hv). cbn [snd].
      destruct (remove_add_conserves fromStack toStack card w Hne Hin)
        as [Hp Ho].
      apply (two_stacks_conserve stacks fromStack toStack); assumption.
    + rewrite (executeSingleCardMove_refused _ _ _ _ Hv). reflexivity.
  - intros l rest fromStack toStack Hf Ht Hne Hc Hndl.
    destruct (GameLogic.validateMultiCardMove l fromStack toStack w) eqn:Hv.
    + rewrite (executeMultiCardMove_unfold _ _ _ _ Hv). cbv zeta.
      cbn [snd set_gameState cards].
      destruct (forEach_move_run fromStack toStack Hne l rest w Hc Hndl)
        as (A1 & A2 & A3 & _).
      apply (two_stacks_conserve stacks fromStack toStack);
        try assumption.
      rewrite A1, A2, Hc, <- !app_assoc. f_equiv.
      apply Permutation_app_comm.
    + rewrite (executeMultiCardMove_refused _ _ _ _ Hv). reflexivity.
  - intros stockStack wasteStack Hs Hw Hne Hns Hnw.
    destruct (decide (cards w stockStack = [])) as [He|Hfull].
    + destruct (drawFromStock_recycle stockStack wasteStack w
                  (cards w wasteStack) Hne He eq_refl Hnw) as (_ & Hm & _).
      destruct (moved_conserves wasteStack stockStack
                  (reverse (cards w wasteStack)) [] false w _
                  (or_introl (eq_sym (reverse_involutive _))) Hm)
        as [Hp Ho].
      apply (two_stacks_conserve stacks wasteStack stockStack);
        try assumption. congruence.
    + pose proof (drawFromStock_draw stockStack wasteStack w
                    (cards w stockStack) Hne eq_refl Hfull Hns) as H.
      cbv zeta in H. destruct H as (_ & Hm & _).
      match type of Hm with
      | moved _ _ ?l2 _ ?l1 _ _ =>
          assert (Hsplit : cards w stockStack = l1 ++ reverse l2)
            by (rewrite reverse_involutive, take_drop; reflexivity);
          destruct (moved_conserves stockStack wasteStack l2 l1 true w _
                      (or_introl Hsplit) Hm) as [Hp Ho]
      end.
      apply (two_stacks_conserve stacks stockStack wasteStack); assumption.
  - intros ts. apply flips_frame.
Qed.

Lemma moves_conserve_board_witness :
  allCards (GameLogic.executeSingleCardMove three_hearts ex_T1 ex_F0
              ex_board).2
  ≡ₚ allCards ex_board.
Proof.
  assert (Hnd : NoDup GameController.getAllStacks).
  { apply (bool_decide_unpack _). vm_compute. exact I. }
  destruct (moves_conserve_board GameController.getAllStacks ex_board Hnd)
    as (Hsingle & _).
  apply Hsingle.
  - apply (bool_decide_unpack _). vm_compute. exact I.
  - apply (bool_decide_unpack _). vm_compute. exact I.
  - discriminate.
  - apply (bool_decide_unpack _). vm_compute. exact I.
Defined.

(** ** GameLogic: moves that uncover a card *)

Lemma filter_other_top (c : Card) (rest : list Card) :
  c ∉ rest → filter (λ card, card ≠ c) (rest ++ [c]) = rest.
Proof.
  intros Hout. rewrite filter_app, filter_cons, filter_nil.
  rewrite decide_False by (intros H; apply H; reflexivity).
  rewrite app_nil_r. induction rest as [|x rest IH]; [reflexivity|].
  apply not_elem_of_cons in Hout as [Hne Hout].
  rewrite filter_cons, decide_True by congruence.
  f_equal. apply IH, Hout.
Qed.

(** X25.  [findUnblockingMoves] keeps a move of the top card of a stack
    (a card lying there once) exactly when that stack is a tableau column
    and the card directly below the moved card lies face down; the target
    plays no part. *)
Theorem unblocking_moves_uncover (tableauMoves : list Hint)
    (allStacks : list CardStack) (w : World) (h : Hint) (rest : list Card) :
  cards w (h_fromStack h) = rest ++ [h_card h] →
  h_card h ∉ rest →
  (h ∈ GameLogic.findUnblockingMoves tableauMoves allStacks w ↔
   h ∈ tableauMoves
   ∧ type (h_fromStack h) = tableau
   ∧ ∃ below, last rest = Some below ∧ faceUp w below = false).
Proof.
  intros Hc Hout. unfold GameLogic.findUnblockingMoves.
  rewrite list_elem_of_filter.
  assert (Hw : GameLogic.wouldUnblockCards (h_fromStack h) (h_toStack h)
                 (h_card h) w = true
               ↔ type (h_fromStack h) = tableau
                 ∧ ∃ below, last rest = Some below ∧ faceUp w below = false).
  { unfold GameLogic.wouldUnblockCards.
    rewrite Hc, (filter_other_top _ _ Hout).
    destruct (bool_decide (type (h_fromStack h) = tableau)) eqn:Et.
    - apply bool_decide_eq_true in Et.
      destruct (bool_decide (0 < length rest)%nat) eqn:El.
      + destruct (last rest) as [top|] eqn:Etop.
        * destruct (faceUp w top) eqn:Eup; cbn [negb]; split.
          -- discriminate.
          -- intros (_ & below & [= <-] & Hb). congruence.
          -- intros _. split; [exact Et|]. exists top. auto.
          -- reflexivity.
        * split; [discriminate|]. intros (_ & below & Hb & _). discriminate.
      + apply bool_decide_eq_false in El.
        split; [discriminate|]. intros (_ & below & Hb & _).
        destruct rest; [discriminate | simpl in El; lia].
    - apply bool_decide_eq_false in Et.
      split; [discriminate|]. intros (Hty & _). contradiction. }
  rewrite Hw. tauto.
Qed.

Lemma unblocking_moves_uncover_witness :
  mkHint three_hearts ex_T1 ex_T0 None
  ∈ GameLogic.findUnblockingMoves [mkHint three_hearts ex_T1 ex_T0 None]
      GameController.getAllStacks ex_board.
Proof.
  apply (unblocking_moves_uncover [mkHint three_hearts ex_T1 ex_T0 None]
           GameController.getAllStacks ex_board
           (mkHint three_hearts ex_T1 ex_T0 None) [four_hearts]).
  - reflexivity.
  - apply (bool_decide_unpack _). vm_compute. exact I.
  - split; [apply elem_of_cons; left; reflexivity|].
    split; [reflexivity|]. exists four_hearts. split; reflexivity.
Defined.
